(** * textmation: the scene builder and the drawable elements

    A shallow embedding of [textmation/scenebuilder.py] and
    [textmation/elements/drawables.py].  The builder is a tree-walking
    interpreter over the parser's syntax tree; it mutates a tree of elements,
    a template registry and a handful of stacks, and aborts with an exception
    at the first failure.  It is embedded as a state-and-exception monad whose
    state survives a raise, exactly as the Python objects do. *)

From Stdlib Require Import QArith Ascii String DecimalString.
From stdpp Require Import gmap strings list.

Local Close Scope Q_scope.
Set Warnings "-register-all".

(** ** Strings as Python formats them *)

Module pystr.

Definition nl : string := String "010"%char "".

Fixpoint contains (c : ascii) (s : string) : bool :=
  match s with
  | "" => false
  | String d rest => Ascii.eqb d c || contains c rest
  end.

(** A hexadecimal digit, in lower case. *)
Definition hex_digit (n : N) : ascii :=
  ascii_of_N (if (n <? 10)%N then 48 + n else 87 + n).

(** [str.isprintable] of a character, a character being a code point below
    256: not a control character, not [\x7f] to [\xa0], not [\xad]. *)
Definition printable (c : ascii) : bool :=
  let n := N_of_ascii c in
  ((32 <=? n)%N && (n <? 127)%N) || ((161 <=? n)%N && negb (n =? 173)%N).

(** A character as [repr] writes it between the quotes [quote]. *)
Definition escape (quote c : ascii) : string :=
  if Ascii.eqb c quote || Ascii.eqb c "\"%char then String "\" (String c "")
  else if Ascii.eqb c "009"%char then "\t"
  else if Ascii.eqb c "010"%char then "\n"
  else if Ascii.eqb c "013"%char then "\r"
  else if printable c then String c ""
  else String "\" (String "x"
         (String (hex_digit (N_of_ascii c / 16)) (String (hex_digit (N_of_ascii c mod 16)) ""))).

Fixpoint escaped (quote : ascii) (s : string) : string :=
  match s with
  | "" => ""
  | String c rest => escape quote c +:+ escaped quote rest
  end.

(** [repr] of a [str], which is what [!r] formats.  The text is quoted
    with single quotes, or with double quotes when it holds a single quote
    and no double quote; the quote in use and the backslash are escaped with
    a backslash; tab, newline and carriage return are written [\t], [\n]
    and [\r]; every other character that is not printable is written [\x]
    and two hexadecimal digits. *)
Definition repr (s : string) : string :=
  let quote :=
    if contains "'"%char s && negb (contains "034"%char s) then "034"%char
    else "'"%char in
  String quote (escaped quote s +:+ String quote "").

(** [%d] of a non-negative [int]. *)
Definition of_nat (n : nat) : string := NilZero.string_of_uint (Nat.to_uint n).

(** [sep.join(parts)] *)
Definition join (sep : string) (parts : list string) : string :=
  String.concat sep parts.

(** [s.partition(sep)[0::2]] for a one-character separator: the text before
    the first separator and the text after it; the whole text and the empty
    string when there is none. *)
Fixpoint partition (sep : ascii) (s : string) : string * string :=
  match s with
  | "" => ("", "")
  | String c rest =>
      if Ascii.eqb c sep then ("", rest)
      else let '(before, after) := partition sep rest in (String c before, after)
  end.

(** Truthiness of a [str]. *)
Definition truthy (s : string) : bool :=
  match s with "" => false | _ => true end.

End pystr.

(** ** [os.path] on a POSIX host *)

Module ospath.

Definition startswith_sep (s : string) : bool :=
  match s with String "/"%char _ => true | _ => false end.

Fixpoint endswith_sep (s : string) : bool :=
  match s with
  | "" => false
  | String c "" => Ascii.eqb c "/"%char
  | String _ rest => endswith_sep rest
  end.

Definition join2 (path b : string) : string :=
  if startswith_sep b then b
  else if negb (pystr.truthy path) || endswith_sep path then path +:+ b
  else path +:+ "/" +:+ b.

(** [join(a, *p)] *)
Definition join (a : string) (p : list string) : string := fold_left join2 p a.

End ospath.

(** ** Exceptions and the builder monad *)

(** A property object is identified by its owning element and its name. *)
Definition PropertyId : Type := nat * string.

Inductive Exn : Type :=
| SceneBuilderError (message : string)
| NotImplementedError
| KeyError (key : string)
| IndexError
| AttributeError
| ValueError
| AssertionError
| TypeError (message : string)
| ZeroDivisionError
| FileNotFoundError (message : string)
| ElementError (message : string)
| ElementPropertyDefinedError (message : string)
| ElementPropertyReadonlyError (message : string)
| ElementPropertyConstantError (message : string)
| CircularReferenceError (message : string) (paths : list (list PropertyId)).

(** What keeps the model from producing a Python outcome: the recursion
    budget ran out, an element handle points outside the arena (which no
    Python object reference can), or an operator node has an operand that is
    not an expression (which the parser does not produce). *)
Inductive Fault : Type := OutOfFuel | Dangling | Malformed.

Inductive Res (A : Type) : Type :=
| Ok (a : A)
| Raise (e : Exn)
| NoResult (f : Fault).
Arguments Ok {A} a.
Arguments Raise {A} e.
Arguments NoResult {A} f.

Definition M (S A : Type) : Type := S -> Res A * S.

Definition ret {S A} (a : A) : M S A := fun s => (Ok a, s).
Definition raise {S A} (e : Exn) : M S A := fun s => (Raise e, s).
Definition fault {S A} (f : Fault) : M S A := fun s => (NoResult f, s).
Definition bind {S A B} (m : M S A) (k : A -> M S B) : M S B :=
  fun s => match m s with
           | (Ok a, s') => k a s'
           | (Raise e, s') => (Raise e, s')
           | (NoResult f, s') => (NoResult f, s')
           end.
Definition get_state {S} : M S S := fun s => (Ok s, s).
Definition modify {S} (f : S -> S) : M S unit := fun s => (Ok tt, f s).

(** [try: m except <handled>: raise handler(e)] *)
Definition try_except {S A} (m : M S A) (handler : Exn -> option Exn) : M S A :=
  fun s => match m s with
           | (Raise e, s') =>
               match handler e with
               | Some e' => (Raise e', s')
               | None => (Raise e, s')
               end
           | other => other
           end.

(** A pure computation that may raise, run inside the monad. *)
Definition lift_res {S A} (r : Res A) : M S A := fun s => (r, s).

Declare Scope builder_scope.
Delimit Scope builder_scope with builder.
Notation "'let*' x ':=' c 'in' k" := (bind c (fun x => k))
  (at level 10, x name, c at level 100, k at level 200, only parsing)
  : builder_scope.
Notation "'let*' ' pat ':=' c 'in' k" := (bind c (fun x => let 'pat := x in k))
  (at level 10, pat pattern, c at level 100, k at level 200, only parsing)
  : builder_scope.
Notation "'do' c 'then' k" := (bind c (fun _ => k))
  (at level 10, c at level 100, k at level 200, only parsing)
  : builder_scope.
Local Open Scope builder_scope.

(** [for x in xs: body(x)] *)
Fixpoint for_each {S A} (body : A -> M S unit) (xs : list A) : M S unit :=
  match xs with
  | [] => ret tt
  | x :: rest => do body x then for_each body rest
  end.

(** [tuple(f(x) for x in xs)] *)
Fixpoint map_m {S A B} (f : A -> M S B) (xs : list A) : M S (list B) :=
  match xs with
  | [] => ret []
  | x :: rest => let* y := f x in let* ys := map_m f rest in ret (y :: ys)
  end.

(** The same for computations that only read: [Res] alone. *)
Definition res_bind {A B} (r : Res A) (k : A -> Res B) : Res B :=
  match r with
  | Ok a => k a
  | Raise e => Raise e
  | NoResult f => NoResult f
  end.
Notation "'let?' x ':=' r 'in' k" := (res_bind r (fun x => k))
  (at level 10, x name, r at level 100, k at level 200, only parsing)
  : builder_scope.

Fixpoint res_map {A B} (f : A -> Res B) (xs : list A) : Res (list B) :=
  match xs with
  | [] => Ok []
  | x :: rest => let? y := f x in let? ys := res_map f rest in Ok (y :: ys)
  end.

(** ** [datatypes]: values and expressions *)

Module datatypes.

(** The [Value] classes the builder constructs.  [ElementProperty] is the
    property object [Element.get] hands out; an expression that mentions it
    refers to the property, not to a copy of its current value.  Numbers are
    exact rationals. *)
Inductive Value : Type :=
| Number (value : Q)
| Percentage (value : Q)
| Angle (value : Q) (unit : string)
| Time (value : Q) (unit : string)
| String (text : string)
| Vec4 (x y z w : Q)
| EnumMember (enum : string) (value : Z)
| FlagMember (enum : string) (value : Z)
| UnaryOp (op : string) (operand : Value)
| BinOp (op : string) (lhs rhs : Value)
| Call (function : string) (args : list Value)
| ElementProperty (element : nat) (name : string)
| ElementRef (element : nat).

(** The type objects a property is declared with ([ElementProperty.types]). *)
Inductive TypeTag : Type :=
| TNumber | TPercentage | TAngle | TTime | TString | TVec4 | TElement
| EnumType (enum : string) (members : list (string * Z))
| FlagType (enum : string) (members : list (string * Z)).

#[global] Instance TypeTag_eq_dec : EqDecision TypeTag.
Proof. solve_decision. Defined.

(** [type.enum[name].box()] *)
Definition enum_lookup (members : list (string * Z)) (name : string) : option Z :=
  snd <$> List.find (fun m => String.eqb (fst m) name) members.

End datatypes.

(** ** [parser]: the syntax tree the builder consumes *)

Module parser.

(** [token.span]: begin and end, each a (line, column) pair. *)
Record Token : Type := { span : (nat * nat) * (nat * nat) }.

(** The node classes, with the attributes the builder reads.  [Scene] is the
    [Create] subclass the parser returns for a whole file.  [Define] and
    [Assign] have exactly the two children [name] and [value]; [UnaryOp] has
    one and [BinOp] two. *)
Inductive Node : Type :=
| Include (path : list string) (token : option Token)
| Template (name : string) (inherit : option string) (children : list Node)
    (token : option Token)
| Create (element : string) (name : option string) (children : list Node)
    (token : option Token)
| Scene (element : string) (name : option string) (children : list Node)
    (token : option Token)
| Define (name value : Node) (token : option Token)
| Assign (name value : Node) (token : option Token)
| MemberAccess (value member : Node) (token : option Token)
| UnaryOp (op : string) (operand : Node) (token : option Token)
| BinOp (op : string) (lhs rhs : Node) (token : option Token)
| Number (value : Q) (unit : option string) (token : option Token)
| String (string : string) (token : option Token)
| Call (name : string) (args : list Node) (token : option Token)
| Name (name : string) (token : option Token).

(** A [Template] node, as stored in the template registry. *)
Record TemplateNode : Type := {
  t_name : string;
  t_inherit : option string;
  t_children : list Node;
  t_token : option Token;
}.

Definition is_Include_or_Template (n : Node) : bool :=
  match n with
  | Include _ _ | Template _ _ _ _ => true
  | _ => false
  end.

Definition is_Scene (n : Node) : bool :=
  match n with Scene _ _ _ _ => true | _ => false end.

(** [x or "Drawable"] on an optional string. *)
Definition inherit_or (inherit : option string) (default : string) : string :=
  match inherit with
  | Some s => if pystr.truthy s then s else default
  | None => default
  end.

End parser.

(** ** [elements]: the element tree and its property tables *)

Module elements.
Import datatypes.

(** The element classes the two modules name.  [Element], [Scene] and
    [Animation] are imported by them; the others are declared in
    [drawables.py]. *)
Inductive ElementClass : Type :=
| Element | Animation | Scene
| BaseDrawable | Drawable
| Rectangle | Circle | Ellipse | Arc | Line | Image | Text.

#[global] Instance ElementClass_eq_dec : EqDecision ElementClass.
Proof. solve_decision. Defined.

(** [cls.__name__] *)
Definition class_name (c : ElementClass) : string :=
  match c with
  | Element => "Element" | Animation => "Animation" | Scene => "Scene"
  | BaseDrawable => "BaseDrawable" | Drawable => "Drawable"
  | Rectangle => "Rectangle" | Circle => "Circle" | Ellipse => "Ellipse"
  | Arc => "Arc" | Line => "Line" | Image => "Image" | Text => "Text"
  end.

(** Modelled from the spec: the bases of [Scene] and [Animation], whose
    class statements are outside [drawables.py]; [Scene], the root canvas
    that holds the drawables, derives from [BaseDrawable], and [Animation]
    from [Element].  The other entries are the class statements of
    [drawables.py]. *)
Definition base (c : ElementClass) : option ElementClass :=
  match c with
  | Element => None
  | Animation => Some Element
  | Scene => Some BaseDrawable
  | BaseDrawable => Some Element
  | Drawable => Some BaseDrawable
  | Rectangle | Circle | Ellipse | Line | Image | Text => Some Drawable
  | Arc => Some Ellipse
  end.

(** [issubclass(c, d)]; the hierarchy is four levels deep. *)
Fixpoint issubclass_upto (depth : nat) (c d : ElementClass) : bool :=
  bool_decide (c = d) ||
  match depth, base c with
  | S depth', Some b => issubclass_upto depth' b d
  | _, _ => false
  end.
Definition issubclass (c d : ElementClass) : bool := issubclass_upto 4 c d.

Record Property : Type := {
  name : string;
  value : Value;
  types : list TypeTag;
  relative : option string;
  readonly : bool;
  constant : bool;
}.

(** Modelled from the spec: the property after [set] replaces its
    expression; its flags, types and relative dimension stay. *)
Definition with_value (v : Value) (p : Property) : Property :=
  {| name := name p; value := v; types := types p; relative := relative p;
     readonly := readonly p; constant := constant p |}.

(** An element object.  [elements] and [animations] are the two lists
    [BaseDrawable.__init__] adds. *)
Record ElementObj : Type := {
  cls : ElementClass;
  parent : option nat;
  children : list nat;
  properties : gmap string Property;
  elements : list nat;
  animations : list nat;
}.

(** The elements alive during a build, in creation order; an element is
    referred to by its index. *)
Abbreviation Heap := (list ElementObj).

Definition with_parent (p : option nat) (e : ElementObj) : ElementObj :=
  {| cls := cls e; parent := p; children := children e;
     properties := properties e; elements := elements e;
     animations := animations e |}.
Definition with_children (c : list nat) (e : ElementObj) : ElementObj :=
  {| cls := cls e; parent := parent e; children := c;
     properties := properties e; elements := elements e;
     animations := animations e |}.
Definition with_properties (m : gmap string Property) (e : ElementObj) : ElementObj :=
  {| cls := cls e; parent := parent e; children := children e;
     properties := m; elements := elements e; animations := animations e |}.
Definition with_elements (l : list nat) (e : ElementObj) : ElementObj :=
  {| cls := cls e; parent := parent e; children := children e;
     properties := properties e; elements := l; animations := animations e |}.
Definition with_animations (l : list nat) (e : ElementObj) : ElementObj :=
  {| cls := cls e; parent := parent e; children := children e;
     properties := properties e; elements := elements e; animations := l |}.

(** Read the object behind a handle. *)
Definition deref (self : nat) : M Heap ElementObj :=
  fun h => match h !! self with
           | Some e => (Ok e, h)
           | None => (NoResult Dangling, h)
           end.

(** Mutate the object behind a handle. *)
Definition update (self : nat) (f : ElementObj -> ElementObj) : M Heap unit :=
  fun h => match h !! self with
           | Some e => (Ok tt, <[self := f e]> h)
           | None => (NoResult Dangling, h)
           end.

(** Modelled from the spec: the object [cls()] constructs, [Element.__init__]
    being absent from the sources at hand: no parent, no children, an empty
    property table, and the two empty lists of [BaseDrawable.__init__]. *)
Definition fresh (c : ElementClass) : ElementObj :=
  {| cls := c; parent := None; children := [];
     properties := ∅; elements := []; animations := [] |}.

(** [cls()]: a fresh object; its handle is returned. *)
Definition new (c : ElementClass) : M Heap nat :=
  fun h => (Ok (length h), h ++ [fresh c]).

(** [isinstance(element, c)] *)
Definition isinstance (self : nat) (c : ElementClass) : M Heap bool :=
  let* e := deref self in ret (issubclass (cls e) c).

(** [element.__class__.__name__] *)
Definition class_name_of (h : Heap) (self : nat) : string :=
  match h !! self with
  | Some e => class_name (cls e)
  | None => ""
  end.

(** [xs.index(x)] *)
Fixpoint index_of (x : nat) (xs : list nat) : option nat :=
  match xs with
  | [] => None
  | y :: rest => if Nat.eqb y x then Some 0 else S <$> index_of x rest
  end.

End elements.

(** ** What the two modules import and this development does not contain

    The parser, the operating system, the function table, the unit tables
    and the hooks of the classes declared outside [drawables.py] are supplied
    by the environment. *)

Record Env : Type := {
  (** [parser.parse] *)
  parse : string -> Res parser.Node;
  (** [os.path.abspath], [os.path.dirname], [os.path.isfile] and
      [open(filename).read()] *)
  abspath : string -> string;
  dirname : string -> string;
  isfile : string -> bool;
  read : string -> option string;
  (** [_scenes_dir] *)
  scenes_dir : string;
  (** [functions]: the callable registered under a name, if any *)
  functions : string -> option (list datatypes.Value -> Res datatypes.Value);
  (** the values of [AngleUnit] and [TimeUnit], the value of
      [AngleUnit.Degrees], [str(_units)], and the conversions between units
      of one kind *)
  angle_units : list string;
  time_units : list string;
  degrees : string;
  units_text : string;
  convert : string -> string -> Q -> Q;
  (** [Element.list_element_types()] *)
  list_element_types : list elements.ElementClass;
  (** the types [define] records for a value given without a type, and the
      check [set] makes of a new value against them *)
  infer_types : datatypes.Value -> list datatypes.TypeTag;
  type_compatible : list datatypes.TypeTag -> datatypes.Value -> bool;
  (** [on_init], [on_element] and [on_created], none of which
      [drawables.py] overrides; [on_created] gives the text of the
      [ElementError] it raises, if it raises *)
  on_init : nat -> M elements.Heap unit;
  on_element : nat -> nat -> M elements.Heap unit;
  on_created : nat -> elements.Heap -> option string;
  (** [on_ready] as declared by [Element], [Scene] and [Animation] *)
  foreign_on_ready : elements.ElementClass -> nat -> M elements.Heap unit;
}.

(** ** [elements.element]: the methods of [Element] *)

Module element.
Import datatypes elements.

Section Methods.
Context (env : Env).

(** Modelled from the spec: [Element.get], absent from the sources at hand.
    It looks the name up in this element's own table and fails with the
    not-found signal ([KeyError]) otherwise; it does not search ancestors.
    [get_property] reads the attributes of the property object, [get] hands
    out the object. *)
Definition get_property (self : nat) (name : string) : M Heap Property :=
  let* e := deref self in
  match properties e !! name with
  | Some p => ret p
  | None => raise (KeyError name)
  end.

Definition get (self : nat) (name : string) : M Heap Value :=
  let* _ := get_property self name in ret (ElementProperty self name).

(** Modelled from the spec: [Element.define], absent from the sources at
    hand.  It fails with a property-already-defined error when the name
    exists and inserts otherwise; nothing is evaluated.  The optional
    positional [type] is the one [drawables.py] passes for [outline]. *)
Definition define (self : nat) (name : string) (value : Value)
    (type : option TypeTag) (relative : option string)
    (readonly constant : bool) : M Heap unit :=
  let* e := deref self in
  match properties e !! name with
  | Some _ =>
      raise (ElementPropertyDefinedError
               ("Property " +:+ pystr.repr name +:+ " already defined"))
  | None =>
      update self
        (with_properties
           (<[name := {| name := name; value := value;
                         types := match type with
                                  | Some t => [t]
                                  | None => infer_types env value
                                  end;
                         relative := relative; readonly := readonly;
                         constant := constant |}]> (properties e)))
  end.

(** Modelled from the spec: the property objects an expression mentions,
    which are the edges of the property graph [set] searches. *)
Fixpoint references (v : Value) : list PropertyId :=
  match v with
  | UnaryOp _ x => references x
  | BinOp _ l r => references l ++ references r
  | Call _ args => List.flat_map references args
  | ElementProperty e n => [(e, n)]
  | _ => []
  end.

(** Modelled from the spec: the cycle a repeated pair closes, from its first
    occurrence on the visitation stack back to the repeat. *)
Fixpoint cycle_from (r : PropertyId) (stack : list PropertyId) : list PropertyId :=
  match stack with
  | [] => [r]
  | x :: rest => if bool_decide (x = r) then x :: rest ++ [r] else cycle_from r rest
  end.

(** Modelled from the spec: the search [set] makes for circular references.
    [graph] gives the expression each property would hold; [stack] is the
    visitation stack; every reference that re-enters a pair on the stack
    contributes its cycle. *)
Fixpoint cycle_paths (fuel : nat) (graph : PropertyId -> option Value)
    (stack : list PropertyId) (refs : list PropertyId)
    : option (list (list PropertyId)) :=
  match fuel with
  | 0 => None
  | S fuel' =>
      match refs with
      | [] => Some []
      | r :: rest =>
          here ←
            (if bool_decide (r ∈ stack) then Some [cycle_from r stack]
             else match graph r with
                  | Some v => cycle_paths fuel' graph (stack ++ [r]) (references v)
                  | None => Some []
                  end);
          there ← cycle_paths fuel' graph stack rest;
          Some (here ++ there)
      end
  end.

Definition stored_value (h : Heap) (id : PropertyId) : option Value :=
  e ← h !! id.1; p ← properties e !! id.2; Some (value p).

(** Modelled from the spec: the new expression combined with the current
    graph, that is the expression each property would hold once [new] is
    stored in the property [name] of [self]. *)
Definition graph_with (h : Heap) (self : nat) (name : string) (new : Value)
    (id : PropertyId) : option Value :=
  if bool_decide (id = (self, name)) then Some new else stored_value h id.

(** Modelled from the spec: [Element.set], absent from the sources at hand.
    It fails if the property is absent, if it is read-only, if it is
    constant, if the new expression would close a cycle reachable from the
    property, and if the value does not fit the declared types; otherwise it
    replaces the stored expression without evaluating it.  The texts of the
    messages are not fixed by the spec. *)
Definition set (fuel : nat) (self : nat) (name : string) (new : Value)
    : M Heap unit :=
  let* p := get_property self name in
  if readonly p then
    raise (ElementPropertyReadonlyError
             ("Property " +:+ pystr.repr name +:+ " is readonly"))
  else if constant p then
    raise (ElementPropertyConstantError
             ("Property " +:+ pystr.repr name +:+ " is constant"))
  else
    let* h := get_state in
    match cycle_paths fuel (graph_with h self name new) [(self, name)]
            (references new) with
    | None => fault OutOfFuel
    | Some (path :: paths) =>
        raise (CircularReferenceError
                 ("Circular reference in property " +:+ pystr.repr name)
                 (path :: paths))
    | Some [] =>
        if type_compatible env (types p) new then
          update self
            (fun e => with_properties (<[name := with_value new p]> (properties e)) e)
        else
          raise (TypeError ("Unexpected type for property " +:+ pystr.repr name))
    end.

(** Modelled from the spec: [Element.add], absent from the sources at hand.
    The child is appended to the ordered children and gets its back
    reference. *)
Definition add (self child : nat) : M Heap unit :=
  do update child (with_parent (Some self)) then
  update self (fun e => with_children (children e ++ [child]) e).

End Methods.
End element.

(** ** Evaluation of expressions and properties *)

Module evaluation.
Import datatypes elements.

Section Eval.
Context (env : Env).

Definition additive (op : string) : bool := String.eqb op "+" || String.eqb op "-".
Definition multiplicative (op : string) : bool := String.eqb op "*" || String.eqb op "/".

(** Modelled from the spec: the four operators on magnitudes; a zero divisor
    fails when the division is evaluated. *)
Definition arith (op : string) (a b : Q) : Res Q :=
  if String.eqb op "+" then Ok (Qred (Qplus a b))
  else if String.eqb op "-" then Ok (Qred (Qminus a b))
  else if String.eqb op "*" then Ok (Qred (Qmult a b))
  else if String.eqb op "/" then
    if Qeq_bool b (0 # 1) then Raise ZeroDivisionError
    else Ok (Qred (Qdiv a b))
  else Raise (TypeError ("Unsupported operator " +:+ pystr.repr op)).

Definition res_fmap {A B} (f : A -> B) (r : Res A) : Res B :=
  let? a := r in Ok (f a).

(** Modelled from the spec: the unit rules of a binary operation.  Numbers
    combine under all four operators; two values of one unit kind add and
    subtract (after the right one is brought to the left one's unit); a
    unit value is scaled by a number with [*] and [/]; every other
    combination is a type error. *)
Definition binop (op : string) (l r : Value) : Res Value :=
  let mismatch := Raise (TypeError ("Unsupported operands for " +:+ pystr.repr op)) in
  match l, r with
  | Number a, Number b => res_fmap Number (arith op a b)
  | Percentage a, Percentage b =>
      if additive op then res_fmap Percentage (arith op a b) else mismatch
  | Angle a u, Angle b v =>
      if additive op then res_fmap (fun x => Angle x u) (arith op a (convert env v u b))
      else mismatch
  | Time a u, Time b v =>
      if additive op then res_fmap (fun x => Time x u) (arith op a (convert env v u b))
      else mismatch
  | Percentage a, Number b =>
      if multiplicative op then res_fmap Percentage (arith op a b) else mismatch
  | Angle a u, Number b =>
      if multiplicative op then res_fmap (fun x => Angle x u) (arith op a b) else mismatch
  | Time a u, Number b =>
      if multiplicative op then res_fmap (fun x => Time x u) (arith op a b) else mismatch
  | _, _ => mismatch
  end.

(** Modelled from the spec: negation and identity keep the unit. *)
Definition unop (op : string) (x : Value) : Res Value :=
  let mismatch := Raise (TypeError ("Unsupported operand for " +:+ pystr.repr op)) in
  if String.eqb op "+" then
    match x with
    | Number _ | Percentage _ | Angle _ _ | Time _ _ => Ok x
    | _ => mismatch
    end
  else if String.eqb op "-" then
    match x with
    | Number a => Ok (Number (Qred (Qopp a)))
    | Percentage a => Ok (Percentage (Qred (Qopp a)))
    | Angle a u => Ok (Angle (Qred (Qopp a)) u)
    | Time a u => Ok (Time (Qred (Qopp a)) u)
    | _ => mismatch
    end
  else mismatch.

(** Modelled from the spec: [Value.eval], absent from the sources at hand.
    Literals evaluate to themselves; operators evaluate their operands and
    apply the unit rules; a call evaluates its arguments left to right and
    dispatches to the function table; a property object evaluates the
    expression it holds, with the visitation stack of (element, name) pairs
    detecting re-entry. *)
Fixpoint eval (fuel : nat) (h : Heap) (stack : list PropertyId) (v : Value)
    : Res Value :=
  match fuel with
  | 0 => NoResult OutOfFuel
  | S fuel' =>
      match v with
      | UnaryOp op x =>
          let? a := eval fuel' h stack x in unop op a
      | BinOp op l r =>
          let? a := eval fuel' h stack l in
          let? b := eval fuel' h stack r in
          binop op a b
      | Call fn args =>
          let? vs := res_map (eval fuel' h stack) args in
          match functions env fn with
          | Some f => f vs
          | None => Raise (KeyError fn)
          end
      | ElementProperty e n =>
          if bool_decide ((e, n) ∈ stack) then
            Raise (CircularReferenceError
                     ("Circular reference in property " +:+ pystr.repr n)
                     [element.cycle_from (e, n) stack])
          else
            match h !! e with
            | None => NoResult Dangling
            | Some obj =>
                match properties obj !! n with
                | None => Raise (KeyError n)
                | Some p => eval fuel' h (stack ++ [(e, n)]) (value p)
                end
            end
      | literal => Ok literal
      end
  end.

(** Modelled from the spec: reading a property as the consumer that needs
    pixels does.  The property's expression is evaluated; a resulting
    [Percentage] is resolved through the property's relative dimension
    against the parent's property of that name, itself read the same way, so
    that the recursion bottoms out at a concrete ancestor. *)
Fixpoint eval_property (fuel : nat) (h : Heap) (self : nat) (n : string)
    : Res Value :=
  match fuel with
  | 0 => NoResult OutOfFuel
  | S fuel' =>
      match h !! self with
      | None => NoResult Dangling
      | Some obj =>
          match properties obj !! n with
          | None => Raise (KeyError n)
          | Some p =>
              let? v := eval fuel' h [] (ElementProperty self n) in
              match v, relative p, parent obj with
              | Percentage q, Some dim, Some up =>
                  let? w := eval_property fuel' h up dim in
                  match w with
                  | Number x => Ok (Number (Qred (Qdiv (Qmult x q) (100 # 1))))
                  | _ => Raise (TypeError ("Property " +:+ pystr.repr dim
                                           +:+ " is not a number"))
                  end
              | _, _, _ => Ok v
              end
          end
      end
  end.

End Eval.
End evaluation.

(** ** [elements/drawables.py] *)

Module drawables.
Import datatypes elements.

(** [@register_flag class TextAnchor(IntFlag)] *)
Definition TextAnchor : TypeTag :=
  FlagType "TextAnchor"
    [("Left", 1%Z); ("CenterX", 2%Z); ("Right", 4%Z); ("Top", 8%Z);
     ("CenterY", 16%Z); ("Bottom", 32%Z); ("Center", Z.lor 2 16);
     ("Default", Z.lor 2 16)].

(** [@register_enum class TextAlignment(IntEnum)] *)
Definition TextAlignment : TypeTag :=
  EnumType "TextAlignment"
    [("Left", 1%Z); ("Center", 2%Z); ("Right", 3%Z); ("Default", 1%Z)].

(** A Python [int] given where a value is expected. *)
Definition int (z : Z) : Value := Number (inject_Z z).
Definition percent (z : Z) : Value := Percentage (inject_Z z).
Definition white : Value :=
  Vec4 (inject_Z 255) (inject_Z 255) (inject_Z 255) (inject_Z 255).
Definition transparent : Value :=
  Vec4 (inject_Z 0) (inject_Z 0) (inject_Z 0) (inject_Z 0).

Section Classes.
Context (env : Env) (fuel : nat).

(** [self.define(name, value)], [self.define(name, value, relative=...)] and
    [self.define(name, value, constant=True)] *)
Definition def (self : nat) (name : string) (v : Value) : M Heap unit :=
  element.define env self name v None None false false.
Definition def_relative (self : nat) (name : string) (v : Value)
    (relative : string) : M Heap unit :=
  element.define env self name v None (Some relative) false false.
Definition def_constant (self : nat) (name : string) (v : Value) : M Heap unit :=
  element.define env self name v None None false true.

(** [BaseDrawable.add] *)
Definition BaseDrawable_add (self child : nat) : M Heap unit :=
  do element.add self child then
  let* is_drawable := isinstance child Drawable in
  if is_drawable then
    update self (fun e => with_elements (elements e ++ [child]) e)
  else
    let* is_animation := isinstance child Animation in
    if is_animation then
      update self (fun e => with_animations (animations e ++ [child]) e)
    else raise NotImplementedError.

(** [Drawable.on_ready]; [super().on_ready()] reaches [Element.on_ready],
    [BaseDrawable] declaring none. *)
Definition Drawable_on_ready (self : nat) : M Heap unit :=
  do foreign_on_ready env Element self then
  let* me := deref self in
  match parent me with
  | None => raise AttributeError
  | Some up =>
      let* p := deref up in
      match index_of self (children p) with
      | None => raise ValueError
      | Some i =>
          do element.define env self "index" (int (Z.of_nat i)) None None true true then
          do def_relative self "x" (int 0) "width" then
          do def_relative self "y" (int 0) "height" then
          do def_relative self "width" (percent 100) "width" then
          def_relative self "height" (percent 100) "height"
      end
  end.

(** The four definitions [Rectangle], [Circle] and [Ellipse] end with. *)
Definition define_paint (self : nat) : M Heap unit :=
  do def self "color" white then
  let* color := element.get self "color" in
  do def self "fill" color then
  do element.define env self "outline" transparent (Some TVec4) None false false then
  def self "outline_width" (int 1).

(** [Rectangle.on_ready] *)
Definition Rectangle_on_ready (self : nat) : M Heap unit :=
  do Drawable_on_ready self then
  define_paint self.

(** [BinOp("-", Percentage(50), BinOp("/", self.get(dim), Number(2)))] *)
Definition centered (self : nat) (dim : string) : M Heap Value :=
  let* d := element.get self dim in
  ret (BinOp "-" (percent 50) (BinOp "/" d (int 2))).

(** [BinOp("-", self.get(center), BinOp("/", self.get(dim), Number(2)))] *)
Definition corner (self : nat) (center dim : string) : M Heap Value :=
  let* c := element.get self center in
  let* d := element.get self dim in
  ret (BinOp "-" c (BinOp "/" d (int 2))).

(** [BinOp(op, self.get(name), Number(2))] *)
Definition scaled (self : nat) (op name : string) : M Heap Value :=
  let* p := element.get self name in
  ret (BinOp op p (int 2)).

(** [Circle.on_ready] *)
Definition Circle_on_ready (self : nat) : M Heap unit :=
  do Drawable_on_ready self then
  let* cx := centered self "width" in
  do def_relative self "center_x" cx "width" then
  let* cy := centered self "height" in
  do def_relative self "center_y" cy "height" then
  do def_relative self "diameter" (percent 100) "width" then
  let* r := scaled self "/" "diameter" in
  do def_relative self "radius" r "width" then
  let* x := corner self "center_x" "width" in
  do element.set env fuel self "x" x then
  let* y := corner self "center_y" "height" in
  do element.set env fuel self "y" y then
  let* w := scaled self "*" "radius" in
  do element.set env fuel self "width" w then
  let* h := scaled self "*" "radius" in
  do element.set env fuel self "height" h then
  define_paint self.

(** [Ellipse.on_ready] *)
Definition Ellipse_on_ready (self : nat) : M Heap unit :=
  do Drawable_on_ready self then
  let* cx := centered self "width" in
  do def_relative self "center_x" cx "width" then
  let* cy := centered self "height" in
  do def_relative self "center_y" cy "height" then
  do def_relative self "diameter" (percent 100) "width" then
  let* r := scaled self "/" "diameter" in
  do def_relative self "radius" r "width" then
  let* dx := element.get self "diameter" in
  do def_relative self "diameter_x" dx "width" then
  let* dy := element.get self "diameter" in
  do def_relative self "diameter_y" dy "height" then
  let* rx := scaled self "/" "diameter_x" in
  do def_relative self "radius_x" rx "width" then
  let* ry := scaled self "/" "diameter_y" in
  do def_relative self "radius_y" ry "height" then
  let* x := corner self "center_x" "width" in
  do element.set env fuel self "x" x then
  let* y := corner self "center_y" "height" in
  do element.set env fuel self "y" y then
  let* w := scaled self "*" "radius_x" in
  do element.set env fuel self "width" w then
  let* h := scaled self "*" "radius_y" in
  do element.set env fuel self "height" h then
  define_paint self.

(** [Arc.on_ready] *)
Definition Arc_on_ready (self : nat) : M Heap unit :=
  do Ellipse_on_ready self then
  do def self "start_angle" (Angle (inject_Z 0) (degrees env)) then
  def self "end_angle" (Angle (inject_Z 360) (degrees env)).

(** [Line.on_ready] *)
Definition Line_on_ready (self : nat) : M Heap unit :=
  do Drawable_on_ready self then
  do def_relative self "x1" (int 0) "width" then
  do def_relative self "y1" (int 0) "height" then
  do def_relative self "x2" (int 0) "width" then
  do def_relative self "y2" (int 0) "height" then
  let* x1 := element.get self "x1" in
  do element.set env fuel self "x" x1 then
  let* y1 := element.get self "y1" in
  do element.set env fuel self "y" y1 then
  do def self "color" white then
  let* color := element.get self "color" in
  do def self "fill" color then
  element.set env fuel self "width" (int 1).

(** [Image.on_ready] *)
Definition Image_on_ready (self : nat) : M Heap unit :=
  do Drawable_on_ready self then
  def_constant self "filename" (String "").

(** [Text.on_ready]; the two defaults are the boxed members
    [TextAnchor.Default] and [TextAlignment.Default]. *)
Definition Text_on_ready (self : nat) : M Heap unit :=
  do Drawable_on_ready self then
  do element.set env fuel self "x" (percent 50) then
  do element.set env fuel self "y" (percent 50) then
  do def_constant self "text" (String "") then
  do def_constant self "font" (String "arial") then
  do def self "font_size" (int 32) then
  do def_constant self "anchor" (FlagMember "TextAnchor" (Z.lor 2 16)) then
  do def_constant self "alignment" (EnumMember "TextAlignment" 1) then
  do def self "color" white then
  let* color := element.get self "color" in
  def self "fill" color.

(** The [on_ready] a class resolves to: its own, or the nearest inherited
    one. *)
Definition on_ready_of (c : ElementClass) (self : nat) : M Heap unit :=
  match c with
  | Drawable => Drawable_on_ready self
  | Rectangle => Rectangle_on_ready self
  | Circle => Circle_on_ready self
  | Ellipse => Ellipse_on_ready self
  | Arc => Arc_on_ready self
  | Line => Line_on_ready self
  | Image => Image_on_ready self
  | Text => Text_on_ready self
  | BaseDrawable => foreign_on_ready env Element self
  | Element => foreign_on_ready env Element self
  | Scene => foreign_on_ready env Scene self
  | Animation => foreign_on_ready env Animation self
  end.

(** [element.on_ready()], dispatched on the element's class. *)
Definition on_ready (self : nat) : M Heap unit :=
  let* me := deref self in
  on_ready_of (cls me) self.

(** [parent.add(element)], dispatched on the parent's class: [BaseDrawable]
    and its subclasses use [BaseDrawable.add], the others [Element.add]. *)
Definition add (self child : nat) : M Heap unit :=
  let* me := deref self in
  if issubclass (cls me) BaseDrawable then BaseDrawable_add self child
  else element.add self child.

End Classes.
End drawables.

(** ** [scenebuilder.py] *)

Module scenebuilder.
Import elements.

(** What the template registry holds under a name: an element class, or a
    [Template] node of the script. *)
Inductive TemplateEntry : Type :=
| ElementType (c : ElementClass)
| TemplateDecl (t : parser.TemplateNode).

(** The builder's attributes, together with the two things it acts on: the
    element objects and the record of the files it has opened.  Lists that
    Python uses as stacks keep Python's order, the top being the last
    item. *)
Record State : Type := {
  templates : gmap string TemplateEntry;
  _elements : list nat;
  _types : list datatypes.TypeTag;
  search_paths : list string;
  _including : list string;
  _included : gset string;
  heap : Heap;
  opened : list string;
}.

Definition set_templates (f : gmap string TemplateEntry -> gmap string TemplateEntry)
    (s : State) : State :=
  {| templates := f (templates s); _elements := _elements s; _types := _types s;
     search_paths := search_paths s; _including := _including s;
     _included := _included s; heap := heap s; opened := opened s |}.
Definition set_elements (f : list nat -> list nat) (s : State) : State :=
  {| templates := templates s; _elements := f (_elements s); _types := _types s;
     search_paths := search_paths s; _including := _including s;
     _included := _included s; heap := heap s; opened := opened s |}.
Definition set_types (f : list datatypes.TypeTag -> list datatypes.TypeTag)
    (s : State) : State :=
  {| templates := templates s; _elements := _elements s; _types := f (_types s);
     search_paths := search_paths s; _including := _including s;
     _included := _included s; heap := heap s; opened := opened s |}.
Definition set_search_paths (f : list string -> list string) (s : State) : State :=
  {| templates := templates s; _elements := _elements s; _types := _types s;
     search_paths := f (search_paths s); _including := _including s;
     _included := _included s; heap := heap s; opened := opened s |}.
Definition set_including (f : list string -> list string) (s : State) : State :=
  {| templates := templates s; _elements := _elements s; _types := _types s;
     search_paths := search_paths s; _including := f (_including s);
     _included := _included s; heap := heap s; opened := opened s |}.
Definition set_included (f : gset string -> gset string) (s : State) : State :=
  {| templates := templates s; _elements := _elements s; _types := _types s;
     search_paths := search_paths s; _including := _including s;
     _included := f (_included s); heap := heap s; opened := opened s |}.
Definition set_heap (f : Heap -> Heap) (s : State) : State :=
  {| templates := templates s; _elements := _elements s; _types := _types s;
     search_paths := search_paths s; _including := _including s;
     _included := _included s; heap := f (heap s); opened := opened s |}.
Definition set_opened (f : list string -> list string) (s : State) : State :=
  {| templates := templates s; _elements := _elements s; _types := _types s;
     search_paths := search_paths s; _including := _including s;
     _included := _included s; heap := heap s; opened := f (opened s) |}.

(** A method of an element, run on the builder's elements. *)
Definition on_heap {A} (m : M Heap A) : M State A :=
  fun s => let '(r, h) := m (heap s) in (r, set_heap (fun _ => h) s).

(** What a [_build_*] method returns: [None], an element, or a value. *)
Inductive Built : Type :=
| BNone
| BElement (element : nat)
| BValue (value : datatypes.Value).

(** [_ext] *)
Definition _ext : string := ".anim".

Section Builder.
Context (env : Env).

(** [self._element] *)
Definition _element : M State nat :=
  let* s := get_state in
  match last (_elements s) with
  | Some e => ret e
  | None => raise IndexError
  end.

(** [with self._push_element(element): body] — no [finally]: a failing body
    leaves the stack as it is. *)
Definition _push_element {A} (element : nat) (body : M State A) : M State A :=
  do modify (set_elements (fun l => l ++ [element])) then
  let* r := body in
  let* top := _element in
  do modify (set_elements (fun l => removelast l)) then
  if Nat.eqb top element then ret r else raise AssertionError.

(** [self._type] *)
Definition _type : M State datatypes.TypeTag :=
  let* s := get_state in
  match last (_types s) with
  | Some t => ret t
  | None => raise IndexError
  end.

(** [with self._push_type(type): body] *)
Definition _push_type {A} (type : datatypes.TypeTag) (body : M State A) : M State A :=
  do modify (set_types (fun l => l ++ [type])) then
  let* r := body in
  let* top := _type in
  do modify (set_types (fun l => removelast l)) then
  if bool_decide (top = type) then ret r else raise AssertionError.

(** [_create_error] *)
Definition _create_error (message : string) (after : option string)
    (token : option parser.Token) : Exn :=
  let after_given := match after with Some a => pystr.truthy a | None => false end in
  match token with
  | Some t =>
      let '((bl, bc), (el, ec)) := parser.span t in
      let located :=
        message +:+ " at " +:+ pystr.of_nat bl +:+ ":" +:+ pystr.of_nat bc
                +:+ " to " +:+ pystr.of_nat el +:+ ":" +:+ pystr.of_nat ec in
      if after_given then SceneBuilderError (located +:+ pystr.nl +:+ default "" after)
      else SceneBuilderError located
  | None =>
      if after_given then SceneBuilderError (message +:+ pystr.nl +:+ default "" after)
      else SceneBuilderError message
  end.

(** [_fail] *)
Definition _fail {A} (message : string) (after : option string)
    (token : option parser.Token) : M State A :=
  raise (_create_error message after token).

(** [_get_template] *)
Definition _get_template (name : string) (token : option parser.Token)
    : M State TemplateEntry :=
  let* s := get_state in
  match templates s !! name with
  | Some t => ret t
  | None =>
      raise (_create_error ("Creating undefined " +:+ pystr.repr name +:+ " template")
               None token)
  end.

(** [_get_element_type]; the recursive call passes no token. *)
Fixpoint _get_element_type (fuel : nat) (name : string)
    (token : option parser.Token) : M State ElementClass :=
  match fuel with
  | 0 => fault OutOfFuel
  | S fuel' =>
      let* template := _get_template name token in
      match template with
      | TemplateDecl t =>
          _get_element_type fuel' (parser.inherit_or (parser.t_inherit t) "Drawable") None
      | ElementType c => ret c
      end
  end.

(** The [while] loop of [_get_property]: [element.get(name)] with its
    [KeyError] suppressed, then on to [element.parent]. *)
Fixpoint _get_property_loop (fuel : nat) (h : Heap) (element : option nat)
    (name : string) : Res (option datatypes.Value) :=
  match element with
  | None => Ok None
  | Some e =>
      match fuel with
      | 0 => NoResult OutOfFuel
      | S fuel' =>
          match element.get e name h with
          | (Ok property, _) => Ok (Some property)
          | (Raise (KeyError _), _) =>
              match h !! e with
              | Some obj => _get_property_loop fuel' h (parent obj) name
              | None => NoResult Dangling
              end
          | (Raise other, _) => Raise other
          | (NoResult f, _) => NoResult f
          end
      end
  end.

(** [_get_property].  The loop is given as many rounds as there are
    elements, which is enough on every tree (see [heap_wf]). *)
Definition _get_property (element : nat) (name : string)
    (token : option parser.Token) : M State datatypes.Value :=
  let* s := get_state in
  let* found := lift_res (_get_property_loop (length (heap s)) (heap s) (Some element) name) in
  match found with
  | Some property => ret property
  | None => _fail ("Undefined property " +:+ pystr.repr name) None token
  end.

(** The [for] loop of [_find_scene_file]. *)
Fixpoint first_file (dirs : list string) (path : string) : option string :=
  match dirs with
  | [] => None
  | dirpath :: rest =>
      let filename := ospath.join dirpath [path] in
      if isfile env filename then Some filename else first_file rest path
  end.

(** [_find_scene_file]; [join] of an empty unpacked path is a [TypeError]. *)
Definition _find_scene_file (dirs : list string) (path : list string) : Res string :=
  match path with
  | [] => Raise (TypeError "join() missing 1 required positional argument: 'a'")
  | a :: p =>
      let file := ospath.join a p +:+ _ext in
      match first_file (rev dirs) file with
      | Some filename => Ok filename
      | None =>
          let paths :=
            pystr.join pystr.nl
              (map (fun dirpath => "- " +:+ ospath.join dirpath [file]) (rev dirs)) in
          Raise (FileNotFoundError
                   ("Failed including " +:+ pystr.join "." path +:+ pystr.nl
                    +:+ "Tried..." +:+ pystr.nl +:+ paths))
      end
  end.

(** [_is_including] *)
Definition _is_including (s : State) : bool :=
  negb (Nat.eqb (length (_including s)) 0).

(** [list.pop()] on one of the builder's stacks. *)
Definition pop_including : M State unit :=
  let* s := get_state in
  match _including s with
  | [] => raise IndexError
  | _ => modify (set_including (fun l => removelast l))
  end.
Definition pop_search_path : M State unit :=
  let* s := get_state in
  match search_paths s with
  | [] => raise IndexError
  | _ => modify (set_search_paths (fun l => removelast l))
  end.

(** [with open(filename) as f: string = f.read()] *)
Definition read_file (filename : string) : M State string :=
  do modify (set_opened (fun l => l ++ [filename])) then
  match read env filename with
  | Some text => ret text
  | None => raise (FileNotFoundError ("No such file or directory: " +:+ pystr.repr filename))
  end.

(** [_include] *)
Definition _include (_build : parser.Node -> M State Built) (filename : string)
    : M State unit :=
  let filename := abspath env filename in
  let* s := get_state in
  if bool_decide (filename ∈ _including s) then ret tt
  else if bool_decide (filename ∈ _included s) then ret tt
  else
    do modify (set_search_paths (fun l => l ++ [dirname env filename])) then
    do modify (set_including (fun l => l ++ [filename])) then
    let* string := read_file filename in
    let* node := lift_res (parse env string) in
    let* _ := _build node in
    do pop_including then
    do modify (set_included (fun i => {[filename]} ∪ i)) then
    pop_search_path.

(** The methods below call [_build] and [_apply_template] back; the two are
    tied together at the end, and until then stand as [build] and [apply]. *)
Section Methods.
Context (fuel : nat).
Context (build : parser.Node -> M State Built).
Context (apply : nat -> string -> option parser.Token -> M State unit).

(** [for child in self._build_children(node): pass] *)
Definition _build_children (children : list parser.Node) : M State unit :=
  for_each (fun child => let* _ := build child in ret tt) children.

(** [_apply_template].  Every caller passes the template by name. *)
Definition _apply_template_body (element : nat) (template : string)
    (token : option parser.Token) : M State unit :=
  let* s := get_state in
  match templates s !! template with
  | None =>
      raise (_create_error ("Creating undefined " +:+ pystr.repr template +:+ " template")
               None token)
  | Some (TemplateDecl t) =>
      _push_element element
        (do apply element (parser.inherit_or (parser.t_inherit t) "Drawable") token then
         _build_children (parser.t_children t))
  | Some (ElementType _) =>
      on_heap (drawables.on_ready env fuel element)
  end.

(** [_build_Include] *)
Definition _build_Include (path : list string) (token : option parser.Token)
    : M State Built :=
  let* s := get_state in
  let* include_filename :=
    try_except (lift_res (_find_scene_file (search_paths s) path))
      (fun ex => match ex with
                 | FileNotFoundError text =>
                     let '(message, after) := pystr.partition "010" text in
                     Some (_create_error message (Some after) token)
                 | _ => None
                 end) in
  do _include build include_filename then
  ret BNone.

(** [_build_Create] *)
Definition _build_Create (element : string) (name : option string)
    (children : list parser.Node) (token : option parser.Token) : M State Built :=
  if match name with Some n => pystr.truthy n | None => false end then
    raise NotImplementedError
  else
    let* element_type := _get_element_type fuel element token in
    let* new_element := on_heap (new element_type) in
    do on_heap (on_init env new_element) then
    let* s := get_state in
    do match last (_elements s) with
       | None => ret tt
       | Some up =>
           try_except
             (on_heap (do drawables.add up new_element then
                       on_element env up new_element))
             (fun ex => match ex with
                        | NotImplementedError =>
                            Some (_create_error
                                    ("Cannot add " +:+ class_name_of (heap s) new_element
                                     +:+ " to " +:+ class_name_of (heap s) up)
                                    None token)
                        | _ => None
                        end)
       end then
    do apply new_element element token then
    do _push_element new_element (_build_children children) then
    let* s' := get_state in
    match on_created env new_element (heap s') with
    | Some text =>
        raise (_create_error (text +:+ " in " +:+ class_name_of (heap s') new_element)
                 None token)
    | None => ret (BElement new_element)
    end.

(** [_build_Scene] *)
Definition _build_Scene (element : string) (name : option string)
    (children : list parser.Node) (token : option parser.Token) : M State Built :=
  let* s := get_state in
  if negb (_is_including s) then _build_Create element name children token
  else
    do for_each
         (fun child =>
            if parser.is_Include_or_Template child then
              let* result := build child in
              match result with
              | BNone => ret tt
              | _ => raise AssertionError
              end
            else ret tt)
         children then
    ret BNone.

(** [_build_Template] *)
Definition _build_Template (t : parser.TemplateNode) : M State Built :=
  let* s := get_state in
  match templates s !! parser.t_name t with
  | Some _ =>
      _fail ("Redeclaration of " +:+ pystr.repr (parser.t_name t)) None (parser.t_token t)
  | None =>
      do modify (set_templates (fun m => <[parser.t_name t := TemplateDecl t]> m)) then
      ret BNone
  end.

(** [assert isinstance(name, Name); name = name.name] *)
Definition name_of (n : parser.Node) : M State string :=
  match n with
  | parser.Name name _ => ret name
  | _ => raise AssertionError
  end.

(** [assert isinstance(value, Value)] *)
Definition value_of (b : Built) : M State datatypes.Value :=
  match b with
  | BValue v => ret v
  | _ => raise AssertionError
  end.

(** [_build_Define] *)
Definition _build_Define (name value : parser.Node) (token : option parser.Token)
    : M State Built :=
  let* name := name_of name in
  let* built := build value in
  let* value := value_of built in
  let* self := _element in
  let* s := get_state in
  do try_except (on_heap (element.define env self name value None None false false))
       (fun ex => match ex with
                  | ElementPropertyDefinedError text =>
                      Some (_create_error (text +:+ " in " +:+ class_name_of (heap s) self)
                              None token)
                  | _ => None
                  end) then
  ret BNone.

(** [self._element.get(name).types[0]] *)
Definition declared_type (name : string) : M State datatypes.TypeTag :=
  let* self := _element in
  let* property := on_heap (element.get_property self name) in
  match types property with
  | t :: _ => ret t
  | [] => raise IndexError
  end.

(** The text after [Paths:] in the circular-reference diagnostic: one line
    per path, the names of its properties joined by arrows. *)
Definition format_paths (paths : list (list PropertyId)) : string :=
  pystr.join pystr.nl (map (fun path => pystr.join " -> " (map snd path)) paths).

(** The [except] clauses of [_build_Assign] around [Element.set];
    [in_class] is the text [ in <class of the active element>]. *)
Definition _build_Assign_handlers (name in_class : string)
    (token : option parser.Token) (ex : Exn) : option Exn :=
  match ex with
  | TypeError text =>
      Some (_create_error (text +:+ in_class) None token)
  | ElementPropertyReadonlyError _ =>
      Some (_create_error
              ("Cannot assign to readonly property " +:+ pystr.repr name +:+ in_class)
              None token)
  | ElementPropertyConstantError text =>
      Some (_create_error (text +:+ in_class) None token)
  | CircularReferenceError text paths =>
      Some (_create_error (text +:+ in_class)
              (Some ("Paths:" +:+ pystr.nl +:+ format_paths paths)) token)
  | _ => None
  end.

(** [_build_Assign] *)
Definition _build_Assign (name value : parser.Node) (token : option parser.Token)
    : M State Built :=
  let* name := name_of name in
  let* s0 := get_state in
  let in_class (s : State) : string :=
    " in " +:+ default "" ((fun e => class_name_of (heap s) e) <$> last (_elements s)) in
  let* type :=
    try_except (declared_type name)
      (fun ex => match ex with
                 | KeyError _ =>
                     Some (_create_error
                             ("Assigning value to undefined property "
                              +:+ pystr.repr name +:+ in_class s0)
                             None token)
                 | _ => None
                 end) in
  let* built := _push_type type (build value) in
  let* value := value_of built in
  let* self := _element in
  let* s := get_state in
  do try_except (on_heap (element.set env fuel self name value))
       (_build_Assign_handlers name (in_class s) token) then
  ret BNone.

(** [_build_MemberAccess] *)
Definition _build_MemberAccess (value member : parser.Node)
    (token : option parser.Token) : M State Built :=
  let* built := build value in
  let* s := get_state in
  let* evaluated :=
    match built with
    | BValue v => lift_res (evaluation.eval env fuel (heap s) [] v)
    | _ => raise AttributeError
    end in
  match evaluated with
  | datatypes.ElementRef target =>
      let* name := name_of member in
      let* property := _get_property target name token in
      ret (BValue property)
  | _ => raise AssertionError
  end.

(** An operand of an operator or an argument of a call, which the value
    constructors take as they come. *)
Definition operand (n : parser.Node) : M State datatypes.Value :=
  let* built := build n in
  match built with
  | BValue v => ret v
  | _ => fault Malformed
  end.

(** [_build_UnaryOp] *)
Definition _build_UnaryOp (op : string) (child : parser.Node) : M State Built :=
  let* x := operand child in
  ret (BValue (datatypes.UnaryOp op x)).

(** [_build_BinOp] *)
Definition _build_BinOp (op : string) (lhs rhs : parser.Node) : M State Built :=
  let* l := operand lhs in
  let* r := operand rhs in
  ret (BValue (datatypes.BinOp op l r)).

(** [_build_Number] *)
Definition _build_Number (value : Q) (unit : option string)
    (token : option parser.Token) : M State Built :=
  match unit with
  | None => ret (BValue (datatypes.Number value))
  | Some u =>
      if String.eqb u "%" then ret (BValue (datatypes.Percentage value))
      else if bool_decide (u ∈ angle_units env) then ret (BValue (datatypes.Angle value u))
      else if bool_decide (u ∈ time_units env) then ret (BValue (datatypes.Time value u))
      else _fail ("Unexpected unit " +:+ pystr.repr u +:+ ", expected any of "
                  +:+ units_text env) None token
  end.

(** [_build_String] *)
Definition _build_String (string : string) : M State Built :=
  ret (BValue (datatypes.String string)).

(** [_build_Call] *)
Definition _build_Call (name : string) (args : list parser.Node) : M State Built :=
  let* built := map_m operand args in
  match functions env name with
  | Some _ => ret (BValue (datatypes.Call name built))
  | None => raise (KeyError name)
  end.

(** The member of the type being assigned that a name denotes, boxed;
    nothing when the [with suppress(IndexError, KeyError)] block falls
    through. *)
Definition enum_member (s : State) (name : string) : option datatypes.Value :=
  match last (_types s) with
  | Some (datatypes.EnumType enum members) =>
      datatypes.EnumMember enum <$> datatypes.enum_lookup members name
  | Some (datatypes.FlagType enum members) =>
      datatypes.FlagMember enum <$> datatypes.enum_lookup members name
  | _ => None
  end.

(** [_build_Name] *)
Definition _build_Name (name : string) (token : option parser.Token)
    : M State Built :=
  let* s := get_state in
  match enum_member s name with
  | Some member => ret (BValue member)
  | None =>
      let* self := _element in
      let* property := _get_property self name token in
      ret (BValue property)
  end.

(** [_build]: the method named after the node's class. *)
Definition _build_body (node : parser.Node) : M State Built :=
  match node with
  | parser.Include path token => _build_Include path token
  | parser.Template name inherit children token =>
      _build_Template {| parser.t_name := name; parser.t_inherit := inherit;
                         parser.t_children := children; parser.t_token := token |}
  | parser.Create element name children token =>
      _build_Create element name children token
  | parser.Scene element name children token =>
      _build_Scene element name children token
  | parser.Define name value token => _build_Define name value token
  | parser.Assign name value token => _build_Assign name value token
  | parser.MemberAccess value member token => _build_MemberAccess value member token
  | parser.UnaryOp op child _ => _build_UnaryOp op child
  | parser.BinOp op lhs rhs _ => _build_BinOp op lhs rhs
  | parser.Number value unit token => _build_Number value unit token
  | parser.String string _ => _build_String string
  | parser.Call name args _ => _build_Call name args
  | parser.Name name token => _build_Name name token
  end.

End Methods.

(** The recursion of the builder, bounded by [fuel]: every call of [_build]
    or [_apply_template] spends one unit. *)
Fixpoint _build (fuel : nat) (node : parser.Node) {struct fuel} : M State Built :=
  match fuel with
  | 0 => fault OutOfFuel
  | S fuel' => _build_body fuel' (_build fuel') (_apply_template fuel') node
  end
with _apply_template (fuel : nat) (element : nat) (template : string)
    (token : option parser.Token) {struct fuel} : M State unit :=
  match fuel with
  | 0 => fault OutOfFuel
  | S fuel' =>
      _apply_template_body fuel' (_build fuel') (_apply_template fuel')
        element template token
  end.

(** [SceneBuilder.__init__] *)
Definition init : State :=
  {| templates := ∅; _elements := []; _types := [];
     search_paths := [scenes_dir env]; _including := []; _included := ∅;
     heap := []; opened := [] |}.

(** [build] of a syntax tree: the root must be a [Create] of [Scene]; the
    registry is seeded with the registered element classes.  The two stacks
    the builder resets to [None] afterwards are left empty. *)
Definition build (fuel : nat) (root : parser.Node) : M State nat :=
  let is_scene_create :=
    match root with
    | parser.Create element _ _ _ | parser.Scene element _ _ _ => String.eqb element "Scene"
    | _ => false
    end in
  if negb is_scene_create then raise AssertionError
  else
    do modify (set_templates (fun _ =>
         foldl (fun m c => <[class_name c := ElementType c]> m) ∅
               (list_element_types env))) then
    do modify (set_elements (fun _ => [])) then
    do modify (set_types (fun _ => [])) then
    let* scene := _build fuel root in
    match scene with
    | BElement e =>
        let* is_scene := on_heap (isinstance e Scene) in
        if is_scene then
          do modify (set_elements (fun _ => [])) then
          do modify (set_types (fun _ => [])) then
          ret e
        else raise AssertionError
    | _ => raise AssertionError
    end.

(** [build] of a script text. *)
Definition build_text (fuel : nat) (text : string) : M State nat :=
  let* root := lift_res (parse env text) in
  build fuel root.

End Builder.
End scenebuilder.

(** ** Notions the statements below are phrased with *)

Module spec.
Import datatypes elements scenebuilder.

(** The chain of an element: the element, its parent, and so on up to the
    root, which has no parent. *)
Inductive ancestor_chain (h : Heap) : nat -> list nat -> Prop :=
| chain_root e obj :
    h !! e = Some obj -> parent obj = None -> ancestor_chain h e [e]
| chain_up e obj up rest :
    h !! e = Some obj -> parent obj = Some up ->
    ancestor_chain h up rest -> ancestor_chain h e (e :: rest).

(** The element has a property of that name in its own table. *)
Definition has_property (h : Heap) (name : string) (e : nat) : bool :=
  match h !! e with
  | Some obj => bool_decide (is_Some (properties obj !! name))
  | None => false
  end.

(** Parents are created before their children: the shape every tree built
    through [Element.add] has. *)
Definition heap_wf (h : Heap) : Prop :=
  forall i obj up, h !! i = Some obj -> parent obj = Some up -> up < i.

(** The same, as a check that computes. *)
Fixpoint heap_wf_from (i : nat) (h : Heap) : bool :=
  match h with
  | [] => true
  | obj :: rest =>
      match parent obj with Some up => Nat.ltb up i | None => true end
      && heap_wf_from (S i) rest
  end.

(** The inheritance chain of a registered name: the templates met on the
    way, nearest first, and the element class the chain ends in. *)
Inductive template_chain (registry : gmap string TemplateEntry)
    : string -> list parser.TemplateNode -> ElementClass -> Prop :=
| chain_class name c :
    registry !! name = Some (ElementType c) ->
    template_chain registry name [] c
| chain_template name t rest c :
    registry !! name = Some (TemplateDecl t) ->
    template_chain registry (parser.inherit_or (parser.t_inherit t) "Drawable") rest c ->
    template_chain registry name (t :: rest) c.


(** The nodes that denote values. *)
Fixpoint is_expr (n : parser.Node) : bool :=
  match n with
  | parser.Number _ _ _ | parser.String _ _ | parser.Name _ _ => true
  | parser.UnaryOp _ x _ => is_expr x
  | parser.BinOp _ l r _ => is_expr l && is_expr r
  | parser.Call _ args _ => forallb is_expr args
  | parser.MemberAccess v _ _ => is_expr v
  | _ => false
  end.

(** The element has a property of that name, holding that expression and
    declared relative to that dimension. *)
Definition declares (h : Heap) (self : nat) (n : string) (v : Value)
    (rel : option string) : Prop :=
  exists obj p,
    h !! self = Some obj /\ properties obj !! n = Some p
    /\ value p = v /\ relative p = rel.

(** The property table of an element. *)
Definition table (h : Heap) (self : nat) : option (gmap string Property) :=
  properties <$> h !! self.

(** In [graph], the expression of property [a] mentions property [b]. *)
Definition refers (graph : PropertyId -> option datatypes.Value) (a b : PropertyId) : Prop :=
  exists v, graph a = Some v /\ b ∈ element.references v.

(** A sequence of properties each of which refers to the next. *)
Inductive follows (graph : PropertyId -> option datatypes.Value)
    : list PropertyId -> Prop :=
| follows_nil : follows graph []
| follows_one a : follows graph [a]
| follows_cons a b rest :
    refers graph a b -> follows graph (b :: rest) -> follows graph (a :: b :: rest).


(** A state-and-exception computation that leaves the state as it was. *)
Definition pure {S A} (m : M S A) : Prop := forall s, (m s).2 = s.

(** Weakest preconditions for the builder monad: [Q] holds of the outcome
    and the final state of [m] run from [s]. *)
Definition wp {S A} (m : M S A) (Q : Res A -> S -> Prop) (s : S) : Prop :=
  Q (m s).1 (m s).2.

Definition is_ok {A} (r : Res A) : bool :=
  match r with Ok _ => true | _ => false end.

(** What a file-level node may touch while an include is in progress:
    neither the elements nor the stack of active elements; and when it
    returns, the include stack is as it found it. *)
Definition quiet {A} (st : State) (r : Res A) (st' : State) : Prop :=
  heap st' = heap st /\ _elements st' = _elements st /\
  (is_ok r = true -> _including st' = _including st).

Definition quiet_none (st : State) (r : Res Built) (st' : State) : Prop :=
  quiet st r st' /\ forall b, r = Ok b -> b = BNone.

(** The file names [_find_scene_file] tries for the module path [a :: p], in
    the order it tries them. *)
Definition searched (dirs : list string) (a : string) (p : list string)
    : list string :=
  map (fun dirpath => ospath.join dirpath [ospath.join a p +:+ _ext]) (rev dirs).

(** The state in which [_include] builds the tree of a file it has not seen:
    the directory of the file searched first, the file in progress and
    opened. *)
Definition entered (env : Env) (filename : string) (s : State) : State :=
  set_opened (fun l => l ++ [abspath env filename])
    (set_including (fun l => l ++ [abspath env filename])
       (set_search_paths (fun l => l ++ [dirname env (abspath env filename)]) s)).

(** The four stacks of the builder: active elements, types being assigned,
    files being included, search directories. *)
Definition stacks (s : State)
    : list nat * list TypeTag * list string * list string :=
  (_elements s, _types s, _including s, search_paths s).

(** What the builder only ever adds to: the registry, the set of completed
    includes, and the files it has opened. *)
Definition grows (s s' : State) : Prop :=
  templates s ⊆ templates s' /\ _included s ⊆ _included s'
  /\ opened s `prefix_of` opened s'.

(** Each of the four stacks of [s'] is the one of [s] with entries pushed
    on top. *)
Definition extends (s s' : State) : Prop :=
  _elements s `prefix_of` _elements s' /\ _types s `prefix_of` _types s'
  /\ _including s `prefix_of` _including s'
  /\ search_paths s `prefix_of` search_paths s'.

(** A computation that only adds to the registry, never pops what it found
    on the stacks and, when it returns, leaves the four stacks as it found
    them. *)
Definition tidy {A} (m : M State A) : Prop :=
  forall s,
    wp m (fun r s' => grows s s' /\ extends s s'
                      /\ (is_ok r = true -> stacks s' = stacks s)) s.

(** The element has a property under each of the names. *)
Definition has_keys (h : Heap) (self : nat) (keys : list string) : Prop :=
  exists m, table h self = Some m /\ forall k, k ∈ keys -> is_Some (m !! k).

(** A computation on the element tree that, when it returns, has removed
    none of the properties of [self]. *)
Definition keeps {A} (self : nat) (m : M Heap A) : Prop :=
  forall keys h a h',
    m h = (Ok a, h') -> has_keys h self keys -> has_keys h' self keys.

(** A computation on the element tree that, when it returns, has left the
    property [n] of [self] holding what it held, declared as it was. *)
Definition keeps_declared {A} (self : nat) (n : string) (m : M Heap A) : Prop :=
  forall v rel h a h',
    m h = (Ok a, h') -> declares h self n v rel -> declares h' self n v rel.

(** The kind of result each class of node builds to; [including] tells
    whether an include is in progress. *)
Definition builds_to (including : bool) (node : parser.Node) (b : Built) : Prop :=
  match node with
  | parser.Include _ _ | parser.Template _ _ _ _
  | parser.Define _ _ _ | parser.Assign _ _ _ => b = BNone
  | parser.Create _ _ _ _ => exists e, b = BElement e
  | parser.Scene _ _ _ _ => if including then b = BNone else exists e, b = BElement e
  | _ => exists v, b = BValue v
  end.

(** Every result a computation returns satisfies [P]. *)
Definition returns {S A} (P : A -> Prop) (m : M S A) : Prop :=
  forall s a s', m s = (Ok a, s') -> P a.

(** The registry [build] starts every build from: the registered element
    classes under their names. *)
Definition seeded (env : Env) : gmap string TemplateEntry :=
  foldl (fun m c => <[class_name c := ElementType c]> m) ∅ (list_element_types env).

(** The value an expression made of literals and operators stands for, and
    the height of its tree. *)
Fixpoint literal (env : Env) (n : parser.Node) : option Value :=
  match n with
  | parser.Number q None _ => Some (Number q)
  | parser.Number q (Some u) _ =>
      if String.eqb u "%" then Some (Percentage q)
      else if bool_decide (u ∈ angle_units env) then Some (Angle q u)
      else if bool_decide (u ∈ time_units env) then Some (Time q u)
      else None
  | parser.String s _ => Some (datatypes.String s)
  | parser.UnaryOp op x _ => UnaryOp op <$> literal env x
  | parser.BinOp op l r _ =>
      match literal env l, literal env r with
      | Some vl, Some vr => Some (BinOp op vl vr)
      | _, _ => None
      end
  | _ => None
  end.

Fixpoint height (n : parser.Node) : nat :=
  match n with
  | parser.UnaryOp _ x _ => S (height x)
  | parser.BinOp _ l r _ => S (Nat.max (height l) (height r))
  | _ => 1
  end.

End spec.

(** ** A concrete environment and concrete scenes *)

Module demo.
Import datatypes elements scenebuilder.

Definition static_types (v : Value) : list TypeTag :=
  match v with
  | Percentage _ => [TPercentage; TNumber]
  | Angle _ _ => [TAngle]
  | Time _ _ => [TTime]
  | String _ => [TString]
  | Vec4 _ _ _ _ => [TVec4]
  | EnumMember _ _ => [drawables.TextAlignment]
  | FlagMember _ _ => [drawables.TextAnchor]
  | ElementRef _ => [TElement]
  | _ => [TNumber; TPercentage]
  end.

(** A literal fits when its own type is among the declared ones; an
    expression is checked when it is evaluated. *)
Definition fits (declared : list TypeTag) (v : Value) : bool :=
  match v with
  | UnaryOp _ _ | BinOp _ _ _ | Call _ _ | ElementProperty _ _ => true
  | _ => match static_types v with
         | t :: _ => bool_decide (t ∈ declared)
         | [] => false
         end
  end.

(** The library file [/scenes/lib.anim]: a template, and a top-level
    [create]. *)
Definition lib_tree : parser.Node :=
  parser.Scene "Scene" None
    [ parser.Template "Box" (Some "Rectangle")
        [ parser.Assign (parser.Name "width" None)
            (parser.Number (50 # 1) (Some "%") None) None ] None;
      parser.Create "Rectangle" None [] None ] None.

Definition bare : Env := {|
  parse := fun text =>
    if String.eqb text "lib" then Ok lib_tree
    else Ok (parser.Scene "Scene" None [] None);
  abspath := fun p => p;
  dirname := fun _ => "/scenes";
  isfile := fun p => String.eqb p "/scenes/lib.anim";
  read := fun p => if String.eqb p "/scenes/lib.anim" then Some "lib" else None;
  scenes_dir := "/scenes";
  functions := fun _ => None;
  angle_units := ["deg"; "rad"];
  time_units := ["s"; "ms"];
  degrees := "deg";
  units_text := "('%', 'deg', 'rad', 's', 'ms')";
  convert := fun _ _ q => q;
  list_element_types :=
    [Element; Animation; Scene; BaseDrawable; Drawable; Rectangle; Circle;
     Ellipse; Arc; Line; Image; Text];
  infer_types := static_types;
  type_compatible := fits;
  on_init := fun _ => ret tt;
  on_element := fun _ _ => ret tt;
  on_created := fun _ _ => None;
  foreign_on_ready := fun _ _ => ret tt;
|}.

(** The same, with a [Scene] that declares a concrete canvas. *)
Definition env : Env := {|
  parse := parse bare; abspath := abspath bare; dirname := dirname bare;
  isfile := isfile bare; read := read bare; scenes_dir := scenes_dir bare;
  functions := functions bare; angle_units := angle_units bare;
  time_units := time_units bare; degrees := degrees bare;
  units_text := units_text bare; convert := convert bare;
  list_element_types := list_element_types bare;
  infer_types := infer_types bare; type_compatible := type_compatible bare;
  on_init := on_init bare; on_element := on_element bare;
  on_created := on_created bare;
  foreign_on_ready := fun c self =>
    match c with
    | Scene =>
        bind (element.define bare self "width" (drawables.int 100) None None false false)
          (fun _ => element.define bare self "height" (drawables.int 100) None None false false)
    | _ => ret tt
    end;
|}.

Definition at_ (l c l' c' : nat) : option parser.Token :=
  Some {| parser.span := ((l, c), (l', c')) |}.

(** [create Scene { width: 300; create Circle { diameter: 50% } }] *)
Definition circle_scene : parser.Node :=
  parser.Scene "Scene" None
    [ parser.Assign (parser.Name "width" None)
        (parser.Number (300 # 1) None None) None;
      parser.Create "Circle" None
        [ parser.Assign (parser.Name "diameter" None)
            (parser.Number (50 # 1) (Some "%") None) None ] None ] None.

(** [create Scene { create Rectangle { create Image {} } }], stopped inside
    the [Image]: the state an assignment in its body is built in. *)
Definition nested_scene : parser.Node :=
  parser.Scene "Scene" None
    [ parser.Create "Rectangle" None
        [ parser.Create "Image" None [] None ] None ] None.

(** [create Scene { template Box { inherit: Rectangle; width: 50% }
    template Card { inherit: Box; define title: "card" }; create Card {} }] *)
Definition template_scene : parser.Node :=
  parser.Scene "Scene" None
    [ parser.Template "Box" (Some "Rectangle")
        [ parser.Assign (parser.Name "width" None)
            (parser.Number (50 # 1) (Some "%") None) None ] None;
      parser.Template "Card" (Some "Box")
        [ parser.Define (parser.Name "title" None)
            (parser.String "card" None) None ] None;
      parser.Template "Plain" None [] None;
      parser.Create "Card" None [] None ] None.

(** [create Scene { create Rectangle {} create Rectangle {} }] *)
Definition twin_scene : parser.Node :=
  parser.Scene "Scene" None
    [ parser.Create "Rectangle" None [] None;
      parser.Create "Rectangle" None [] None ] None.

(** [create Scene { width: 300 }], then a [Circle] constructed and attached
    to it as [_build_Create] does, then its [on_ready], then the assignment
    [diameter: 50%]. *)
Definition canvas_scene : parser.Node :=
  parser.Scene "Scene" None
    [ parser.Assign (parser.Name "width" None)
        (parser.Number (300 # 1) None None) None ] None.
Definition circle_attached : Heap :=
  Eval vm_compute in
    (bind (new Circle) (fun c => drawables.add 0 c)
       (heap (build env 30 canvas_scene (init env)).2)).2.
Definition circle_ready : Heap :=
  Eval vm_compute in (drawables.Circle_on_ready env 10 1 circle_attached).2.
Definition circle_halved : Heap :=
  Eval vm_compute in
    (element.set env 10 1 "diameter" (Percentage (50 # 1)) circle_ready).2.

(** The two templates of [template_scene], and the state in which a fresh
    [Rectangle] has been constructed and attached to its scene. *)
Definition box_template : parser.TemplateNode :=
  {| parser.t_name := "Box"; parser.t_inherit := Some "Rectangle";
     parser.t_children :=
       [ parser.Assign (parser.Name "width" None)
           (parser.Number (50 # 1) (Some "%") None) None ];
     parser.t_token := None |}.
Definition card_template : parser.TemplateNode :=
  {| parser.t_name := "Card"; parser.t_inherit := Some "Box";
     parser.t_children :=
       [ parser.Define (parser.Name "title" None)
           (parser.String "card" None) None ];
     parser.t_token := None |}.

(** A placeholder for table lookups that cannot fail. *)
Definition no_property : Property :=
  {| name := ""; value := Number (0 # 1); types := []; relative := None;
     readonly := false; constant := false |}.

(** The states the scenes leave behind. *)
Definition twin_state : State :=
  Eval vm_compute in (build env 30 twin_scene (init env)).2.
Definition template_state : State :=
  Eval vm_compute in (build env 30 template_scene (init env)).2.

Definition circle_state : State :=
  Eval vm_compute in (build env 30 circle_scene (init env)).2.
Definition nested_state : State :=
  Eval vm_compute in (build env 30 nested_scene (init env)).2.

(** A state of the build as it is inside the elements of [stack]. *)
Definition inside (stack : list nat) (st : State) : State :=
  set_elements (fun _ => stack) st.

Definition rectangle_attached : State :=
  Eval vm_compute in
    (on_heap (bind (new Rectangle) (fun r => drawables.add 0 r))
       (inside [0] template_state)).2.

(** The state [include lib] leaves behind when it is built on its own. *)
Definition lib_state : State :=
  Eval vm_compute in (_build env 30 (parser.Include ["lib"] None) (init env)).2.

(** [create Scene { include lib; create Box {} }] *)
Definition boxed_scene : parser.Node :=
  parser.Scene "Scene" None
    [ parser.Include ["lib"] (at_ 1 0 1 11);
      parser.Create "Box" None [] (at_ 2 0 2 13) ] (at_ 0 0 3 1).

(** The state the first build of [boxed_scene] leaves the builder in. *)
Definition boxed_state : State :=
  Eval vm_compute in (build env 30 boxed_scene (init env)).2.

(** [create Scene { template Ping { inherit: Pong } template Pong { inherit:
    Ping } template Star { inherit: Polygon } }]: two templates that inherit
    from each other, and one that inherits from a name nothing declares. *)
Definition tangle_scene : parser.Node :=
  parser.Scene "Scene" None
    [ parser.Template "Ping" (Some "Pong") [] None;
      parser.Template "Pong" (Some "Ping") [] None;
      parser.Template "Star" (Some "Polygon") [] None ] None.
Definition tangle_state : State :=
  Eval vm_compute in (build env 30 tangle_scene (init env)).2.

(** [create Scene { create Text {} }], seen from inside the [Text]. *)
Definition text_scene : parser.Node :=
  parser.Scene "Scene" None [ parser.Create "Text" None [] None ] None.
Definition text_state : State :=
  Eval vm_compute in (inside [0; 1] (build env 30 text_scene (init env)).2).

(** [nested_scene] seen from inside its [Image]. *)
Definition image_state : State :=
  Eval vm_compute in (inside [0; 1; 2] nested_state).

(** [1 + -(50%)] *)
Definition sum_tree : parser.Node :=
  parser.BinOp "+" (parser.Number (1 # 1) None None)
    (parser.UnaryOp "-" (parser.Number (50 # 1) (Some "%") None) None) None.

(** [create Box { height: 20; width: 10 }], and the state it leaves when it
    is built inside the scene of [template_scene]. *)
Definition box_create : parser.Node :=
  parser.Create "Box" None
    [ parser.Assign (parser.Name "height" None) (parser.Number (20 # 1) None None) None;
      parser.Assign (parser.Name "width" None) (parser.Number (10 # 1) None None) None ]
    None.
Definition box_created : State :=
  Eval vm_compute in (_build env 30 box_create (inside [0] template_state)).2.

End demo.

(** * Properties *)

Import elements scenebuilder spec.

(** ** Unfolding the recursion, and reasoning in the monad *)

Lemma _build_unfold env fuel node :
  _build env (S fuel) node
  = _build_body env fuel (_build env fuel) (_apply_template env fuel) node.
Proof. reflexivity. Qed.

Lemma _apply_template_unfold env fuel element template token :
  _apply_template env (S fuel) element template token
  = _apply_template_body env fuel (_build env fuel) (_apply_template env fuel)
      element template token.
Proof. reflexivity. Qed.

Lemma wp_bind {S A B} (m : M S A) (k : A -> M S B) Q s :
  wp m (fun r s' => match r with
                    | Ok a => wp (k a) Q s'
                    | Raise e => Q (Raise e) s'
                    | NoResult f => Q (NoResult f) s'
                    end) s ->
  wp (bind m k) Q s.
Proof. unfold wp, bind. destruct (m s) as [[a|e|f] s']; done. Qed.

Lemma wp_mono {S A} (m : M S A) (Q Q' : Res A -> S -> Prop) s :
  (forall r s', Q r s' -> Q' r s') -> wp m Q s -> wp m Q' s.
Proof. unfold wp. auto. Qed.

(** ** Strings *)

Lemma append_cons x (a b : string) :
  String.String x a +:+ b = String.String x (a +:+ b).
Proof. reflexivity. Qed.

Lemma append_assoc (a b c : string) : (a +:+ b) +:+ c = a +:+ (b +:+ c).
Proof. induction a as [|x a IH]; [done|]. rewrite !append_cons. by f_equal. Qed.

Lemma contains_app c (a b : string) :
  pystr.contains c (a +:+ b) = pystr.contains c a || pystr.contains c b.
Proof.
  induction a as [|x a IH]; [done|].
  rewrite append_cons. cbn. rewrite IH. by rewrite orb_assoc.
Qed.

Lemma partition_at c (m rest : string) :
  pystr.contains c m = false ->
  pystr.partition c (m +:+ String.String c rest) = (m, rest).
Proof.
  induction m as [|x m IH]; intros H.
  - change ("" +:+ String.String c rest) with (String.String c rest).
    cbn. by rewrite Ascii.eqb_refl.
  - rewrite append_cons. cbn in *. apply orb_false_iff in H as [Hx Hm].
    rewrite Hx, (IH Hm). done.
Qed.

Lemma contains_join c sep (parts : list string) :
  pystr.contains c sep = false ->
  Forall (fun part => pystr.contains c part = false) parts ->
  pystr.contains c (pystr.join sep parts) = false.
Proof.
  intros Hsep. unfold pystr.join.
  induction 1 as [|x xs Hx Hxs IH]; cbn; [done|].
  destruct xs as [|y ys]; [done|].
  rewrite !contains_app, Hx, Hsep. exact IH.
Qed.

Lemma truthy_nonempty s : s <> "" -> pystr.truthy s = true.
Proof. destruct s; [congruence | reflexivity]. Qed.

(** ** Named creation *)

(** C9.  Building a [Create] node that carries a non-empty name raises
    [NotImplementedError] and leaves the builder, the elements and the
    registry exactly as they were: nothing is constructed or attached.  The
    same holds of the file-level [Scene] node, the [Create] subclass, when no
    include is in progress. *)
Theorem named_create_not_implemented env fuel element name children token st :
  name <> "" ->
  _build env (S fuel) (parser.Create element (Some name) children token) st
    = (Raise NotImplementedError, st)
  /\ (_is_including st = false ->
      _build env (S fuel) (parser.Scene element (Some name) children token) st
        = (Raise NotImplementedError, st)).
Proof.
  intros Hname. rewrite !_build_unfold. cbn [_build_body].
  split.
  - unfold _build_Create. rewrite (truthy_nonempty _ Hname). reflexivity.
  - intros Hinc. unfold _build_Scene, bind, get_state. rewrite Hinc. cbn.
    unfold _build_Create. rewrite (truthy_nonempty _ Hname). reflexivity.
Qed.

Lemma named_create_not_implemented_witness :
  _build demo.env 1
    (parser.Create "Rectangle" (Some "box") [parser.Create "Circle" None [] None] None)
    (init demo.env)
  = (Raise NotImplementedError, init demo.env).
Proof.
  apply (named_create_not_implemented demo.env 0 "Rectangle" "box"). discriminate.
Defined.

(** ** Include once *)

Lemma include_seen env build filename st :
  abspath env filename ∈ _including st \/ abspath env filename ∈ _included st ->
  _include env build filename st = (Ok tt, st).
Proof.
  intros H. unfold _include, bind, get_state.
  destruct (bool_decide (abspath env filename ∈ _including st)) eqn:E1; [reflexivity|].
  destruct (bool_decide (abspath env filename ∈ _included st)) eqn:E2; [reflexivity|].
  apply bool_decide_eq_false in E1, E2. tauto.
Qed.

(** C4.  An include that resolves to a file whose absolute path is on the
    in-progress include stack or in the set of completed includes returns
    [None] without raising and with the whole state unchanged: no file is
    opened, and the registry and the elements are as before. *)
Theorem include_twice_is_noop env fuel path token filename st :
  _find_scene_file env (search_paths st) path = Ok filename ->
  abspath env filename ∈ _including st \/ abspath env filename ∈ _included st ->
  _build env (S fuel) (parser.Include path token) st = (Ok BNone, st).
Proof.
  intros Hfind Hseen. rewrite _build_unfold. cbn [_build_body].
  unfold _build_Include, bind, get_state, try_except, lift_res.
  rewrite Hfind. rewrite (include_seen _ _ _ _ Hseen). reflexivity.
Qed.

Lemma include_twice_is_noop_witness :
  let st := set_including (fun _ => ["/scenes/lib.anim"]) (init demo.env) in
  _build demo.env 1 (parser.Include ["lib"] None) st = (Ok BNone, st).
Proof.
  intros st.
  apply (include_twice_is_noop demo.env 0 ["lib"] None "/scenes/lib.anim" st).
  - reflexivity.
  - left. apply list_elem_of_here.
Defined.

(** ** Included files *)

Lemma is_including_true st : _including st <> [] -> _is_including st = true.
Proof. unfold _is_including. destruct (_including st); [congruence | reflexivity]. Qed.

Lemma quiet_trans {A B} st s1 s2 (r : Res A) (a : B) :
  quiet st (Ok a) s1 -> quiet s1 r s2 -> quiet st r s2.
Proof.
  intros (Hh & He & Hi) (Hh' & He' & Hi'). repeat split; try congruence.
  intros Hx. rewrite (Hi' Hx). by apply Hi.
Qed.

Ltac quiet_done :=
  unfold wp, quiet_none, quiet; cbn; repeat split; first [done | congruence].

Lemma pop_including_snoc s l y :
  _including s = l ++ [y] ->
  pop_including s = (Ok tt, set_including (fun l => removelast l) s).
Proof.
  intros H. unfold pop_including, bind, get_state. rewrite H.
  by destruct l.
Qed.

Section Included.
Context (env : Env).
Hypothesis parse_scene :
  forall text node, parse env text = Ok node -> parser.is_Scene node = true.

Lemma for_each_quiet (build : parser.Node -> M State Built) children :
  (forall node st, parser.is_Include_or_Template node = true ->
     _including st <> [] -> wp (build node) (quiet_none st) st) ->
  forall st, _including st <> [] ->
  wp (for_each
         (fun child =>
            if parser.is_Include_or_Template child then
              bind (build child) (fun result =>
              match result with
              | BNone => ret tt
              | _ => raise AssertionError
              end)
            else ret tt) children) (quiet st) st.
Proof.
  intros Hb. induction children as [|c cs IH]; intros st Hinc; cbn [for_each].
  - by unfold wp.
  - apply wp_bind. destruct (parser.is_Include_or_Template c) eqn:Ec.
    + apply wp_bind. eapply wp_mono; [|apply (Hb c st Ec Hinc)].
      intros [b|e|f] s1 [Hq Hn]; [|exact Hq..].
      rewrite (Hn b eq_refl). unfold wp at 1; cbn.
      assert (_including s1 <> []) as Hinc1.
      { destruct Hq as (_ & _ & Hi). by rewrite Hi. }
      eapply wp_mono; [|apply (IH s1 Hinc1)].
      intros r s2 Hq2. eapply quiet_trans; eauto.
    + unfold wp at 1; cbn. apply IH, Hinc.
Qed.

Lemma build_quiet fuel :
  forall node st,
    parser.is_Scene node || parser.is_Include_or_Template node = true ->
    _including st <> [] -> wp (_build env fuel node) (quiet_none st) st.
Proof.
  induction fuel as [|fuel IH]; intros node st Hnode Hinc.
  { quiet_done. }
  rewrite _build_unfold.
  destruct node as [path token| tn ti tc tk | | kelem kname kids token | | | | | | | | | ];
    try discriminate Hnode; cbn [_build_body].
  - (* Include *)
    unfold _build_Include. apply wp_bind. unfold wp at 1; cbn.
    apply wp_bind. unfold wp at 1, try_except, lift_res; cbn.
    destruct (_find_scene_file env (search_paths st) path) as [f|e|ft]; cbn.
    2:{ destruct e; try quiet_done. destruct (pystr.partition _ _). quiet_done. }
    2:{ quiet_done. }
    apply wp_bind. unfold _include. apply wp_bind. unfold wp at 1; cbn.
    destruct (bool_decide _); [quiet_done|].
    destruct (bool_decide _); [quiet_done|].
    apply wp_bind. unfold wp at 1; cbn.
    apply wp_bind. unfold wp at 1; cbn.
    apply wp_bind. unfold read_file. apply wp_bind. unfold wp at 1; cbn.
    destruct (read env (abspath env f)) as [text|]; [|quiet_done].
    unfold wp at 1; cbn.
    apply wp_bind. unfold wp at 1, lift_res; cbn.
    destruct (parse env text) as [node|e|ft] eqn:Ep; cbn; [|quiet_done..].
    pose proof (parse_scene _ _ Ep) as Hs.
    apply wp_bind.
    eapply wp_mono; [|apply (IH node)].
    3:{ cbn. by destruct (_including st). }
    2:{ by rewrite Hs. }
    intros [b|e|ft] s1 [(Hh & He & Hi) Hn]; cbn in *; [|quiet_done..].
    specialize (Hi eq_refl).
    apply wp_bind. unfold wp at 1. rewrite (pop_including_snoc _ _ _ Hi). cbn.
    apply wp_bind. unfold wp at 1; cbn.
    unfold wp, pop_search_path, bind, get_state, modify; cbn.
    destruct (search_paths s1); unfold quiet_none, quiet; cbn;
      rewrite ?Hi, ?removelast_last; repeat split; first [done | congruence].
  - (* Template *)
    unfold _build_Template. apply wp_bind. unfold wp at 1; cbn.
    destruct (templates st !! _); quiet_done.
  - (* Scene *)
    unfold _build_Scene. apply wp_bind. unfold wp at 1; cbn.
    rewrite (is_including_true _ Hinc). cbn [negb].
    apply wp_bind.
    eapply wp_mono; [|apply (for_each_quiet (_build env fuel) kids); [|done]].
    + intros [u|e|ft] s1 Hq; [|by split..].
      unfold wp; cbn. split; [|by intros b [= <-]].
      destruct Hq as (? & ? & Hi). repeat split; try done.
    + intros n s Hn Hi. apply IH; [|done]. by rewrite Hn, orb_true_r.
Qed.


Lemma for_each_filter {S A} (p : A -> bool) (body : A -> M S unit) l s :
  for_each (fun x => if p x then body x else ret tt) l s
  = for_each (fun x => if p x then body x else ret tt) (List.filter p l) s.
Proof.
  revert s. induction l as [|x l IH]; intros s; [done|].
  cbn [for_each List.filter]. destruct (p x) eqn:Ex.
  - cbn [for_each]. rewrite Ex. unfold bind. destruct (body x s) as [[u|e|f] s']; [apply IH|done..].
  - unfold bind. cbn. apply IH.
Qed.

Lemma _build_Scene_including fuel build apply element name children token st :
  _is_including st = true ->
  _build_Scene env fuel build apply element name children token st
  = bind (for_each
            (fun child =>
               if parser.is_Include_or_Template child then
                 bind (build child)
                   (fun result => match result with
                                  | BNone => ret tt
                                  | _ => raise AssertionError
                                  end)
               else ret tt) children)
      (fun _ => ret BNone) st.
Proof. intros H. unfold _build_Scene, bind at 1, get_state. by rewrite H. Qed.

End Included.

Lemma demo_parse_scene text node :
  parse demo.env text = Ok node -> parser.is_Scene node = true.
Proof.
  cbn. destruct (String.eqb text "lib"); by intros [= <-].
Qed.

(** An included file does register its templates: including [lib] from the
    main file adds [Box] to the registry, creates no element, and reads the
    file once. *)
Example include_registers_template :
  let r := _build demo.env 5 (parser.Include ["lib"] None) (init demo.env) in
  r.1 = Ok BNone
  /\ is_Some (templates r.2 !! "Box")
  /\ heap r.2 = []
  /\ opened r.2 = ["/scenes/lib.anim"]
  /\ "/scenes/lib.anim" ∈ _included r.2.
Proof. vm_compute. repeat split; try done. by eexists. Qed.

(** ** Resolving an include *)

Section Find.
Context (env : Env).

Lemma first_file_find dirs file :
  first_file env dirs file
  = List.find (isfile env) (map (fun dirpath => ospath.join dirpath [file]) dirs).
Proof.
  induction dirs as [|d dirs IH]; cbn; [done|].
  destruct (isfile env _); [done | exact IH].
Qed.

Lemma searched_snoc dirs d a p :
  searched (dirs ++ [d]) a p
  = ospath.join d [ospath.join a p +:+ _ext] :: searched dirs a p.
Proof. unfold searched. by rewrite rev_unit. Qed.

Lemma _find_scene_file_searched dirs a p :
  _find_scene_file env dirs (a :: p)
  = match List.find (isfile env) (searched dirs a p) with
    | Some filename => Ok filename
    | None =>
        Raise (FileNotFoundError
                 ("Failed including " +:+ pystr.join "." (a :: p) +:+ pystr.nl
                  +:+ "Tried..." +:+ pystr.nl
                  +:+ pystr.join pystr.nl
                        (map (fun f => "- " +:+ f) (searched dirs a p))))
    end.
Proof.
  unfold _find_scene_file, searched. rewrite first_file_find.
  destruct (List.find _ _); [done|]. by rewrite map_map.
Qed.

(** What a first include of a readable file does: it appends the file's
    directory to the search path, marks the file as in progress, opens it,
    and builds its tree in that state before undoing the two. *)
Lemma _include_first build filename text node st :
  abspath env filename ∉ _including st ->
  abspath env filename ∉ _included st ->
  read env (abspath env filename) = Some text ->
  parse env text = Ok node ->
  _include env build filename st
  = bind (build node)
      (fun _ => bind pop_including
         (fun _ => bind (modify (set_included (fun i => {[abspath env filename]} ∪ i)))
            (fun _ => pop_search_path)))
      (set_opened (fun l => l ++ [abspath env filename])
         (set_including (fun l => l ++ [abspath env filename])
            (set_search_paths (fun l => l ++ [dirname env (abspath env filename)]) st))).
Proof.
  intros H1 H2 Hr Hp. unfold _include, bind at 1, get_state.
  rewrite (bool_decide_eq_false_2 _ H1), (bool_decide_eq_false_2 _ H2).
  unfold bind at 1 2 3 4, modify, read_file, bind at 1, modify, lift_res. cbn.
  rewrite Hr. cbn. rewrite Hp. done.
Qed.

(** C6.  The module path [a :: p] is looked for as [a/p.anim] under each
    search directory, the last appended first: the result is the first file
    that exists among [searched dirs a p], whose head is the candidate under
    the directory appended last.  Building the [include] node resolves the
    path against the search directories of the builder and includes the file
    found, returning [None].  A first include appends the directory of
    the included file for as long as that file is built, so that directory is
    searched first from inside it.  When no candidate exists, the build fails
    with [Failed including a.p], located at the node, whose elaboration
    [Tried...] lists every searched file name, one per line. *)
Theorem include_resolution fuel a p token st :
  (forall dirs d,
     searched (dirs ++ [d]) a p
     = ospath.join d [ospath.join a p +:+ _ext] :: searched dirs a p)
  /\ (forall dirs filename,
       _find_scene_file env dirs (a :: p) = Ok filename
       <-> List.find (isfile env) (searched dirs a p) = Some filename)
  /\ (forall build filename text node,
       abspath env filename ∉ _including st ->
       abspath env filename ∉ _included st ->
       read env (abspath env filename) = Some text ->
       parse env text = Ok node ->
       exists st1,
         search_paths st1 = search_paths st ++ [dirname env (abspath env filename)]
         /\ _include env build filename st
            = bind (build node)
                (fun _ => bind pop_including
                   (fun _ => bind (modify (set_included
                                             (fun i => {[abspath env filename]} ∪ i)))
                      (fun _ => pop_search_path))) st1)
  /\ (Forall (fun part => pystr.contains "010" part = false) (a :: p) ->
      List.find (isfile env) (searched (search_paths st) a p) = None ->
      _build env (S fuel) (parser.Include (a :: p) token) st
      = (Raise (_create_error
                  ("Failed including " +:+ pystr.join "." (a :: p))
                  (Some ("Tried..." +:+ pystr.nl
                         +:+ pystr.join pystr.nl
                               (map (fun f => "- " +:+ f)
                                    (searched (search_paths st) a p))))
                  token), st))
  /\ (forall filename,
        List.find (isfile env) (searched (search_paths st) a p) = Some filename ->
        _build env (S fuel) (parser.Include (a :: p) token) st
        = bind (_include env (_build env fuel) filename) (fun _ => ret BNone) st).
Proof.
  split; [intros dirs d; apply searched_snoc|].
  split.
  { intros dirs filename. rewrite _find_scene_file_searched.
    destruct (List.find _ _); split; congruence. }
  split.
  { intros build filename text node H1 H2 Hr Hp. eexists.
    split; [|by eapply _include_first]. done. }
  split.
  2:{ intros filename Hfound. rewrite _build_unfold. cbn [_build_body].
      unfold _build_Include, bind at 1, get_state.
      unfold bind at 1, try_except, lift_res.
      by rewrite _find_scene_file_searched, Hfound. }
  intros Hnl Hnone. rewrite _build_unfold. cbn [_build_body].
  unfold _build_Include, bind, get_state, try_except, lift_res.
  rewrite _find_scene_file_searched, Hnone.
  match goal with
  | |- context [FileNotFoundError ?text] =>
      replace text
        with (("Failed including " +:+ pystr.join "." (a :: p))
              +:+ String.String "010"
                    ("Tried..." +:+ pystr.nl
                     +:+ pystr.join pystr.nl
                           (map (fun f => "- " +:+ f) (searched (search_paths st) a p))))
        by (by rewrite append_assoc)
  end.
  rewrite partition_at; [done|].
  rewrite contains_app. change (pystr.contains "010" "Failed including ") with false.
  cbn [orb]. by apply contains_join.
Qed.

End Find.

Lemma include_resolution_witness :
  _build demo.env 1 (parser.Include ["shapes"; "stars"] (demo.at_ 1 0 1 20))
    (set_search_paths (fun l => l ++ ["/home/me"]) (init demo.env))
  = (Raise (SceneBuilderError
              ("Failed including shapes.stars at 1:0 to 1:20" +:+ pystr.nl
               +:+ "Tried..." +:+ pystr.nl
               +:+ "- /home/me/shapes/stars.anim" +:+ pystr.nl
               +:+ "- /scenes/shapes/stars.anim")),
     set_search_paths (fun l => l ++ ["/home/me"]) (init demo.env)).
Proof.
  apply (include_resolution demo.env 0 "shapes" ["stars"] (demo.at_ 1 0 1 20)
           (set_search_paths (fun l => l ++ ["/home/me"]) (init demo.env))).
  - repeat constructor.
  - reflexivity.
Defined.

(** ** Looking a property up the ancestor chain *)

Lemma heap_wf_from_ok k h :
  heap_wf_from k h = true ->
  forall i obj up, h !! i = Some obj -> parent obj = Some up -> up < k + i.
Proof.
  revert k. induction h as [|o h IH]; intros k Hwf i obj up Hi Hp; [done|].
  cbn in Hwf. apply andb_true_iff in Hwf as [Ho Hrest].
  destruct i as [|i]; cbn in Hi.
  - injection Hi as ->. rewrite Hp in Ho. apply Nat.ltb_lt in Ho. lia.
  - specialize (IH (S k) Hrest i obj up Hi Hp). lia.
Qed.

Lemma heap_wf_check h : heap_wf_from 0 h = true -> heap_wf h.
Proof. intros H i obj up Hi Hp. apply (heap_wf_from_ok 0 h H i obj up Hi Hp). Qed.

Lemma chain_length h e chain :
  heap_wf h -> ancestor_chain h e chain -> length chain <= S e.
Proof.
  intros Hwf. induction 1 as [e obj Hobj Hp | e obj up rest Hobj Hp _ IH]; cbn; [lia|].
  pose proof (Hwf e obj up Hobj Hp). lia.
Qed.

Lemma chain_exists h :
  heap_wf h -> forall e, e < length h -> exists chain, ancestor_chain h e chain.
Proof.
  intros Hwf e. induction (lt_wf e) as [e _ IH]. intros He.
  destruct (lookup_lt_is_Some_2 h e He) as [obj Hobj].
  destruct (parent obj) as [up|] eqn:Hp.
  - pose proof (Hwf e obj up Hobj Hp) as Hup.
    destruct (IH up Hup ltac:(lia)) as [rest Hrest].
    exists (e :: rest). by eapply chain_up.
  - exists [e]. by eapply chain_root.
Qed.

(** Constructing an element and attaching it to an older one keep the
    tree a tree. *)
Lemma new_keeps_wf c h : heap_wf h -> heap_wf (new c h).2.
Proof.
  intros Hwf i obj up Hi Hp. cbn in Hi.
  apply lookup_app_Some in Hi as [Hi | [_ Hi]]; [by eapply Hwf|].
  apply list_lookup_singleton_Some in Hi as [_ <-]. done.
Qed.

Lemma add_keeps_wf h up child :
  heap_wf h -> up < child -> heap_wf (element.add up child h).2.
Proof.
  intros Hwf Hlt. unfold element.add, bind, update.
  destruct (h !! child) as [cobj|] eqn:Hc; [|done]. cbn.
  rewrite list_lookup_insert_ne by lia.
  destruct (h !! up) as [pobj|] eqn:Hp; cbn.
  - intros i obj up' Hi Hp'.
    destruct (decide (i = up)) as [-> | Hne].
    + rewrite list_lookup_insert_eq in Hi
        by (rewrite length_insert; by eapply lookup_lt_Some).
      injection Hi as <-. cbn in Hp'. by eapply Hwf.
    + rewrite list_lookup_insert_ne in Hi by done.
      destruct (decide (i = child)) as [-> | Hne'].
      * rewrite list_lookup_insert_eq in Hi by (by eapply lookup_lt_Some).
        injection Hi as <-. cbn in Hp'. by injection Hp' as <-.
      * rewrite list_lookup_insert_ne in Hi by done. by eapply Hwf.
  - intros i obj up' Hi Hp'.
    destruct (decide (i = child)) as [-> | Hne'].
    + rewrite list_lookup_insert_eq in Hi by (by eapply lookup_lt_Some).
      injection Hi as <-. cbn in Hp'. by injection Hp' as <-.
    + rewrite list_lookup_insert_ne in Hi by done. by eapply Hwf.
Qed.

Lemma _get_property_loop_chain h name e chain :
  ancestor_chain h e chain ->
  forall fuel, length chain <= fuel ->
  _get_property_loop fuel h (Some e) name
  = Ok (match List.find (has_property h name) chain with
        | Some a => Some (datatypes.ElementProperty a name)
        | None => None
        end).
Proof.
  induction 1 as [e obj Hobj Hp | e obj up rest Hobj Hp _ IH];
    intros [|fuel] Hfuel; cbn in Hfuel; try lia;
    cbn [_get_property_loop List.find];
    unfold element.get, element.get_property, bind, deref, has_property;
    rewrite Hobj; destruct (properties obj !! name) as [prop|] eqn:Hprop; cbn;
    rewrite ?Hobj, ?Hp.
  - done.
  - by destruct fuel.
  - done.
  - rewrite IH by lia. done.
Qed.

(** C3.  On a tree, [_get_property] looks the name up on the element, then
    on its parent, and so on along the element's ancestor chain: it yields
    the property object of the first element of the chain that has the name
    in its own table, and fails with [Undefined property] exactly when no
    element of the chain, the root included, has it.  It never changes the
    state.  A member access whose left side evaluates to an element resolves
    its member name in this way, starting at that element. *)
Theorem property_lookup_walks_ancestors env fuel st e name token :
  heap_wf (heap st) ->
  e < length (heap st) ->
  exists chain,
    ancestor_chain (heap st) e chain
    /\ _get_property e name token st
       = (match List.find (has_property (heap st) name) chain with
          | Some a => Ok (datatypes.ElementProperty a name)
          | None =>
              Raise (_create_error ("Undefined property " +:+ pystr.repr name)
                       None token)
          end, st)
    /\ forall value v member_token,
         _build env fuel value st = (Ok (BValue v), st) ->
         evaluation.eval env fuel (heap st) [] v = Ok (datatypes.ElementRef e) ->
         _build env (S fuel)
           (parser.MemberAccess value (parser.Name name member_token) token) st
         = (match List.find (has_property (heap st) name) chain with
            | Some a => Ok (BValue (datatypes.ElementProperty a name))
            | None =>
                Raise (_create_error ("Undefined property " +:+ pystr.repr name)
                         None token)
            end, st).
Proof.
  intros Hwf He. destruct (chain_exists _ Hwf e He) as [chain Hchain].
  exists chain. split; [done|].
  assert (_get_property e name token st
       = (match List.find (has_property (heap st) name) chain with
          | Some a => Ok (datatypes.ElementProperty a name)
          | None =>
              Raise (_create_error ("Undefined property " +:+ pystr.repr name)
                       None token)
          end, st)) as Hget.
  { unfold _get_property, bind, get_state, lift_res.
    rewrite (_get_property_loop_chain _ name _ _ Hchain).
    - by destruct (List.find _ _).
    - pose proof (chain_length _ _ _ Hwf Hchain). lia. }
  split; [done|].
  intros value v member_token Hbuild Heval.
  rewrite _build_unfold. cbn [_build_body].
  unfold _build_MemberAccess, bind at 1. rewrite Hbuild.
  unfold bind at 1, get_state. unfold bind at 1, lift_res. rewrite Heval.
  unfold bind at 1, name_of, ret. unfold bind. rewrite Hget.
  by destruct (List.find _ _).
Qed.

Lemma property_lookup_walks_ancestors_witness :
  let st := demo.nested_state in
  exists chain,
    ancestor_chain (heap st) 2 chain
    /\ _get_property 2 "color" None st
       = (match List.find (has_property (heap st) "color") chain with
          | Some a => Ok (datatypes.ElementProperty a "color")
          | None => Raise (_create_error "Undefined property 'color'" None None)
          end, st).
Proof.
  intros st.
  destruct (property_lookup_walks_ancestors demo.env 0 st 2 "color" None)
    as (chain & Hchain & Hget & _).
  - apply heap_wf_check. vm_compute. reflexivity.
  - apply Nat.ltb_lt. vm_compute. reflexivity.
  - exists chain. split; [exact Hchain | exact Hget].
Defined.

(** Inside the [Image] of [nested_scene], [color] is the enclosing
    [Rectangle]'s, [width] is the image's own, and [radius] is nobody's. *)
Example lookup_in_nested_scene :
  let st := demo.inside [0; 1; 2] demo.nested_state in
  (_get_property 2 "color" None st).1 = Ok (datatypes.ElementProperty 1 "color")
  /\ (_get_property 2 "width" None st).1 = Ok (datatypes.ElementProperty 2 "width")
  /\ (_get_property 2 "radius" (demo.at_ 3 4 3 10) st).1
     = Raise (SceneBuilderError "Undefined property 'radius' at 3:4 to 3:10").
Proof. vm_compute. done. Qed.

(** ** Attaching a child its parent rejects *)

Lemma _get_element_type_pure fuel : forall name token st,
  (_get_element_type fuel name token st).2 = st.
Proof.
  induction fuel as [|fuel IH]; intros name token st; [done|].
  cbn [_get_element_type]. unfold bind, _get_template, bind, get_state.
  destruct (templates st !! name) as [[c|t]|]; cbn; [done| apply IH | done].
Qed.

Lemma deref_lookup h self obj : h !! self = Some obj -> deref self h = (Ok obj, h).
Proof. intros H. unfold deref. by rewrite H. Qed.

Lemma update_lookup h self obj f :
  h !! self = Some obj -> update self f h = (Ok tt, <[self := f obj]> h).
Proof. intros H. unfold update. by rewrite H. Qed.

Lemma isinstance_lookup h self obj c :
  h !! self = Some obj -> isinstance self c h = (Ok (issubclass (cls obj) c), h).
Proof. intros H. unfold isinstance, bind. by rewrite (deref_lookup _ _ _ H). Qed.

Lemma element_add_lookup h up child pobj cobj :
  h !! up = Some pobj -> h !! child = Some cobj -> up <> child ->
  element.add up child h
  = (Ok tt, <[up := with_children (children pobj ++ [child]) pobj]>
              (<[child := with_parent (Some up) cobj]> h)).
Proof.
  intros Hp Hc Hne. unfold element.add, bind.
  rewrite (update_lookup _ _ _ _ Hc).
  rewrite (update_lookup _ _ pobj); [done|].
  by rewrite list_lookup_insert_ne.
Qed.

(** [BaseDrawable.add] attaches the child before it looks at its kind, and
    raises [NotImplementedError] for a child that is neither a [Drawable]
    nor an [Animation]. *)
Lemma BaseDrawable_add_rejects h up child pobj cobj :
  h !! up = Some pobj -> h !! child = Some cobj -> up <> child ->
  issubclass (cls cobj) Drawable = false ->
  issubclass (cls cobj) Animation = false ->
  drawables.BaseDrawable_add up child h
  = (Raise NotImplementedError,
     <[up := with_children (children pobj ++ [child]) pobj]>
       (<[child := with_parent (Some up) cobj]> h)).
Proof.
  intros Hp Hc Hne HD HA. unfold drawables.BaseDrawable_add, bind at 1.
  rewrite (element_add_lookup _ _ _ _ _ Hp Hc Hne).
  assert ((<[up := with_children (children pobj ++ [child]) pobj]>
             (<[child := with_parent (Some up) cobj]> h)) !! child
          = Some (with_parent (Some up) cobj)) as Hc'.
  { rewrite list_lookup_insert_ne by done.
    apply list_lookup_insert_eq. by eapply lookup_lt_Some. }
  unfold bind at 1. rewrite (isinstance_lookup _ _ _ _ Hc'). cbn [cls with_parent].
  rewrite HD. unfold bind at 1. rewrite (isinstance_lookup _ _ _ _ Hc').
  cbn [cls with_parent]. by rewrite HA.
Qed.

(** C7.  When the element a [Create] node constructs is neither a
    [Drawable] nor an [Animation] and the active parent is a [BaseDrawable],
    the build fails with [Cannot add <child class> to <parent class>],
    located at the node. *)
Theorem rejected_child_names_both_types env fuel element name children token
    st ty up h1 pobj cobj :
  name = None \/ name = Some "" ->
  (_get_element_type fuel element token st).1 = Ok ty ->
  on_init env (length (heap st)) (heap st ++ [fresh ty]) = (Ok tt, h1) ->
  last (_elements st) = Some up ->
  up < length (heap st) ->
  h1 !! up = Some pobj ->
  h1 !! length (heap st) = Some cobj ->
  issubclass (cls pobj) BaseDrawable = true ->
  issubclass (cls cobj) Drawable = false ->
  issubclass (cls cobj) Animation = false ->
  (_build env (S fuel) (parser.Create element name children token) st).1
  = Raise (_create_error
             ("Cannot add " +:+ class_name (cls cobj) +:+ " to "
              +:+ class_name (cls pobj)) None token).
Proof.
  intros Hname Hty Hinit Hup Hlt Hp Hc HpB HcD HcA.
  rewrite _build_unfold. cbn [_build_body]. unfold _build_Create.
  replace (match name with Some n => pystr.truthy n | None => false end) with false
    by (by destruct Hname as [-> | ->]).
  unfold bind at 1.
  pose proof (_get_element_type_pure fuel element token st) as Hst.
  destruct (_get_element_type fuel element token st) as [r st0].
  cbn in Hty, Hst. subst r st0.
  unfold bind at 1, on_heap at 1, new.
  unfold bind at 1, on_heap at 1. cbn [heap set_heap]. rewrite Hinit.
  unfold bind at 1, get_state. cbn [_elements set_heap]. rewrite Hup.
  unfold bind at 1, try_except, on_heap, bind at 1.
  cbn [heap set_heap].
  unfold drawables.add, bind at 1. rewrite (deref_lookup _ _ _ Hp), HpB.
  rewrite (BaseDrawable_add_rejects _ _ _ _ _ Hp Hc ltac:(lia) HcD HcA).
  cbn. unfold class_name_of. by rewrite Hp, Hc.
Qed.


Lemma rejected_child_names_both_types_witness :
  (_build demo.env 3 (parser.Create "Scene" None [] (demo.at_ 4 2 4 17))
     (demo.inside [0; 1] demo.nested_state)).1
  = Raise (SceneBuilderError "Cannot add Scene to Rectangle at 4:2 to 4:17").
Proof.
  pose (st := demo.inside [0; 1] demo.nested_state).
  pose (pobj := default (fresh Element) (heap st !! 1)).
  pose proof (rejected_child_names_both_types demo.env 2 "Scene" None []
           (demo.at_ 4 2 4 17) st Scene 1 (heap st ++ [fresh Scene]) pobj
           (fresh Scene)) as H.
  assert (H1 : (_get_element_type 2 "Scene" (demo.at_ 4 2 4 17) st).1 = Ok Scene) by (vm_compute; reflexivity).
  assert (H2 : on_init demo.env (length (heap st)) (heap st ++ [fresh Scene]) = (Ok tt, heap st ++ [fresh Scene])) by (vm_compute; reflexivity).
  assert (H3 : last (_elements st) = Some 1) by (vm_compute; reflexivity).
  assert (H4 : 1 < length (heap st)) by (apply Nat.ltb_lt; vm_compute; reflexivity).
  assert (H5 : (heap st ++ [fresh Scene]) !! 1 = Some pobj) by (vm_compute; reflexivity).
  assert (H6 : (heap st ++ [fresh Scene]) !! length (heap st) = Some (fresh Scene)) by (vm_compute; reflexivity).
  assert (H7 : issubclass (cls pobj) BaseDrawable = true) by (vm_compute; reflexivity).
  specialize (H (or_introl eq_refl) H1 H2 H3 H4 H5 H6 H7 eq_refl eq_refl).
  exact H.
Defined.

(** ** Applying a template *)

Section Templates.
Context (env : Env).

Lemma _get_element_type_unfold fuel name token st :
  _get_element_type (S fuel) name token st
  = match templates st !! name with
    | Some (TemplateDecl t) =>
        _get_element_type fuel
          (parser.inherit_or (parser.t_inherit t) "Drawable") None st
    | Some (ElementType c) => (Ok c, st)
    | None =>
        (Raise (_create_error
                  ("Creating undefined " +:+ pystr.repr name +:+ " template")
                  None token), st)
    end.
Proof.
  cbn [_get_element_type]. unfold bind, _get_template, bind, get_state.
  by destruct (templates st !! name) as [[?|?]|].
Qed.






End Templates.

(** ** Building an expression changes nothing *)


Lemma pure_ret {S A} (a : A) : pure (ret (S:=S) a).
Proof. done. Qed.
Lemma pure_raise {S A} e : pure (raise (S:=S) (A:=A) e).
Proof. done. Qed.
Lemma pure_fault {S A} f : pure (fault (S:=S) (A:=A) f).
Proof. done. Qed.
Lemma pure_get_state {S} : pure (get_state (S:=S)).
Proof. done. Qed.
Lemma pure_lift_res {S A} (r : Res A) : pure (lift_res (S:=S) r).
Proof. done. Qed.
Lemma pure_bind {S A B} (m : M S A) (k : A -> M S B) :
  pure m -> (forall a, pure (k a)) -> pure (bind m k).
Proof.
  intros Hm Hk s. unfold bind. specialize (Hm s).
  destruct (m s) as [[a|e|f] s']; cbn in *; subst; [apply Hk | done..].
Qed.
Lemma pure_try_except {S A} (m : M S A) handler :
  pure m -> pure (try_except m handler).
Proof.
  intros Hm s. unfold try_except. specialize (Hm s).
  destruct (m s) as [[a|e|f] s']; cbn in *; subst; [done| |done].
  by destruct (handler e).
Qed.
Lemma pure_map_m {S A B} (f : A -> M S B) xs :
  Forall (fun x => pure (f x)) xs -> pure (map_m f xs).
Proof.
  induction 1 as [|x xs Hx _ IH]; cbn [map_m]; [apply pure_ret|].
  apply pure_bind; [done|]. intros y. apply pure_bind; [done|]. intros ys. apply pure_ret.
Qed.

Lemma pure_on_heap_read {A} (m : M Heap A) : pure m -> pure (on_heap m).
Proof.
  intros Hm s. unfold on_heap. specialize (Hm (heap s)).
  destruct (m (heap s)) as [r h]. cbn in *. subst. by destruct s.
Qed.

Lemma pure_get_property_obj self name : pure (element.get_property self name).
Proof.
  intros h. unfold element.get_property, bind, deref.
  destruct (h !! self) as [obj|]; [|done]. by destruct (properties obj !! name).
Qed.

Ltac pure_step :=
  match goal with
  | |- pure (bind _ _) => apply pure_bind; [|intros ?]
  | |- pure (ret _) => apply pure_ret
  | |- pure (raise _) => apply pure_raise
  | |- pure (fault _) => apply pure_fault
  | |- pure get_state => apply pure_get_state
  | |- pure (lift_res _) => apply pure_lift_res
  | |- pure (try_except _ _) => apply pure_try_except
  | |- pure (_fail _ _ _) => apply pure_raise
  | |- pure (match ?x with _ => _ end) => destruct x
  end.

Lemma pure__element : pure _element.
Proof. unfold _element. repeat pure_step. Qed.

Lemma pure__get_property element name token : pure (_get_property element name token).
Proof. unfold _get_property. repeat pure_step. Qed.

Section Expr.
Context (env : Env).

Lemma expr_pure fuel : forall node,
  is_expr node = true -> pure (_build env fuel node).
Proof.
  induction fuel as [|fuel IH]; intros node Hexpr; [apply pure_fault|].
  rewrite _build_unfold.
  destruct node as [ | | | | | | value member token | op x token | op l r token
                   | q unit token | text token | fn args token | nm token ];
    try discriminate Hexpr; cbn [_build_body]; cbn in Hexpr.
  - unfold _build_MemberAccess.
    apply pure_bind; [by apply IH|]. intros built.
    apply pure_bind; [apply pure_get_state|]. intros s.
    apply pure_bind; [destruct built; repeat pure_step|]. intros ev.
    destruct ev; try apply pure_raise.
    apply pure_bind; [unfold name_of; repeat pure_step|]. intros n.
    apply pure_bind; [apply pure__get_property|]. intros p. apply pure_ret.
  - unfold _build_UnaryOp, operand.
    apply pure_bind; [|intros; apply pure_ret].
    apply pure_bind; [by apply IH|]. intros b. repeat pure_step.
  - apply andb_true_iff in Hexpr as [Hl Hr].
    unfold _build_BinOp, operand.
    apply pure_bind; [apply pure_bind; [by apply IH|]; intros b; repeat pure_step|].
    intros lv.
    apply pure_bind; [apply pure_bind; [by apply IH|]; intros b; repeat pure_step|].
    intros rv. apply pure_ret.
  - unfold _build_Number. repeat pure_step.
  - apply pure_ret.
  - unfold _build_Call.
    apply pure_bind; [|intros; repeat pure_step].
    apply pure_map_m. apply Forall_forall. intros x Hx.
    unfold operand. apply pure_bind; [|intros b; repeat pure_step].
    apply IH. rewrite forallb_forall in Hexpr. apply Hexpr. by apply list_elem_of_In.
  - unfold _build_Name.
    apply pure_bind; [apply pure_get_state|]. intros s.
    destruct (enum_member s nm); [apply pure_ret|].
    apply pure_bind; [apply pure__element|]. intros self.
    apply pure_bind; [apply pure__get_property|]. intros p. apply pure_ret.
Qed.

End Expr.

(** ** Assignment *)

Section Assign.
Context (env : Env).

Lemma push_pop_types ty st :
  set_types (fun l => removelast l) (set_types (fun l => l ++ [ty]) st) = st.
Proof. destruct st. unfold set_types. cbn. by rewrite removelast_last. Qed.

Lemma _push_type_ok {A} ty (body : M State A) a st :
  pure body ->
  (body (set_types (fun l => l ++ [ty]) st)).1 = Ok a ->
  _push_type ty body st = (Ok a, st).
Proof.
  intros Hpure Hbody. unfold _push_type, bind at 1, modify.
  unfold bind at 1. specialize (Hpure (set_types (fun l => l ++ [ty]) st)).
  destruct (body _) as [r s']. cbn in Hpure, Hbody. subst r s'.
  unfold bind at 1, _type, bind at 1, get_state. cbn [_types set_types].
  rewrite last_snoc. cbn. unfold bind, modify. rewrite push_pop_types.
  by rewrite bool_decide_eq_true_2.
Qed.

Lemma bind_ok {S A B} (m : M S A) (k : A -> M S B) s a s' :
  m s = (Ok a, s') -> bind m k s = k a s'.
Proof. intros H. unfold bind. by rewrite H. Qed.

Lemma try_except_ok {S A} (m : M S A) handler s a s' :
  m s = (Ok a, s') -> try_except m handler s = (Ok a, s').
Proof. intros H. unfold try_except. by rewrite H. Qed.

Lemma _element_top st self :
  last (_elements st) = Some self -> _element st = (Ok self, st).
Proof. intros H. unfold _element, bind, get_state. by rewrite H. Qed.

Lemma on_heap_id st : set_heap (fun _ => heap st) st = st.
Proof. by destruct st. Qed.

Lemma get_property_lookup h self obj n p :
  h !! self = Some obj -> properties obj !! n = Some p ->
  element.get_property self n h = (Ok p, h).
Proof.
  intros Hobj Hp. unfold element.get_property, bind.
  by rewrite (deref_lookup _ _ _ Hobj), Hp.
Qed.

Lemma declared_type_lookup st self obj n p ty tys :
  last (_elements st) = Some self ->
  heap st !! self = Some obj ->
  properties obj !! n = Some p ->
  types p = ty :: tys ->
  declared_type n st = (Ok ty, st).
Proof.
  intros Hself Hobj Hprop Hty. unfold declared_type.
  rewrite (bind_ok _ _ _ _ _ (_element_top _ _ Hself)).
  erewrite bind_ok.
  2:{ unfold on_heap. rewrite (get_property_lookup _ _ _ _ _ Hobj Hprop).
      by rewrite on_heap_id. }
  by rewrite Hty.
Qed.

(** An assignment to an existing property of the active element, whose
    right-hand side builds to the value [v]: the outcome is that of
    [Element.set], seen through the handlers. *)
Lemma _build_Assign_set fuel st self obj n p ty tys name_token valnode v token :
  last (_elements st) = Some self ->
  heap st !! self = Some obj ->
  properties obj !! n = Some p ->
  types p = ty :: tys ->
  is_expr valnode = true ->
  (_build env fuel valnode (set_types (fun l => l ++ [ty]) st)).1 = Ok (BValue v) ->
  _build env (S fuel) (parser.Assign (parser.Name n name_token) valnode token) st
  = let r := element.set env fuel self n v (heap st) in
    (match r.1 with
     | Ok _ => Ok BNone
     | Raise ex =>
         Raise (default ex (_build_Assign_handlers n
                              (" in " +:+ class_name (cls obj)) token ex))
     | NoResult f => NoResult f
     end, set_heap (fun _ => r.2) st).
Proof.
  intros Hself Hobj Hprop Hty Hexpr Hval.
  rewrite _build_unfold. cbn [_build_body]. unfold _build_Assign.
  erewrite bind_ok; [|reflexivity].
  erewrite bind_ok; [|reflexivity].
  erewrite bind_ok.
  2:{ apply try_except_ok. by eapply declared_type_lookup. }
  erewrite bind_ok.
  2:{ apply (_push_type_ok ty _ (BValue v) st (expr_pure env fuel _ Hexpr) Hval). }
  erewrite bind_ok; [|reflexivity].
  rewrite (bind_ok _ _ _ _ _ (_element_top _ _ Hself)).
  erewrite bind_ok; [|reflexivity].
  unfold bind, try_except, on_heap. cbn zeta.
  destruct (element.set env fuel self n v (heap st)) as [[u|ex|f] h'] eqn:Hset; cbn.
  - done.
  - rewrite Hself. cbn. unfold class_name_of. rewrite Hobj.
    by destruct (_build_Assign_handlers _ _ _ _).
  - done.
Qed.



Lemma set_constant fuel h self obj n p v :
  h !! self = Some obj -> properties obj !! n = Some p ->
  readonly p = false -> constant p = true ->
  element.set env fuel self n v h
  = (Raise (ElementPropertyConstantError
              ("Property " +:+ pystr.repr n +:+ " is constant")), h).
Proof.
  intros Hobj Hp Hro Hc. unfold element.set.
  rewrite (bind_ok _ _ _ _ _ (get_property_lookup _ _ _ _ _ Hobj Hp)).
  by rewrite Hro, Hc.
Qed.

Lemma set_circular fuel h self obj n p v path paths :
  h !! self = Some obj -> properties obj !! n = Some p ->
  readonly p = false -> constant p = false ->
  element.cycle_paths fuel (element.graph_with h self n v) [(self, n)]
    (element.references v) = Some (path :: paths) ->
  element.set env fuel self n v h
  = (Raise (CircularReferenceError
              ("Circular reference in property " +:+ pystr.repr n)
              (path :: paths)), h).
Proof.
  intros Hobj Hp Hro Hc Hcycle. unfold element.set.
  rewrite (bind_ok _ _ _ _ _ (get_property_lookup _ _ _ _ _ Hobj Hp)).
  rewrite Hro, Hc. erewrite bind_ok; [|reflexivity]. by rewrite Hcycle.
Qed.


End Assign.

(** ** Cycles *)

Section Follows.
Context (graph : PropertyId -> option datatypes.Value).

Lemma follows_snoc l a b :
  follows graph (l ++ [a]) -> refers graph a b -> follows graph (l ++ [a; b]).
Proof.
  intros Hl Hab. induction l as [|x l IH]; cbn in *.
  - constructor; [done | constructor].
  - destruct l as [|y l]; cbn in *.
    + inversion Hl; subst. constructor; [done|]. apply IH. constructor.
    + inversion Hl; subst. constructor; [done|]. by apply IH.
Qed.

Lemma follows_suffix pre l : follows graph (pre ++ l) -> follows graph l.
Proof.
  induction pre as [|x pre IH]; cbn; [done|]. intros H. apply IH.
  destruct (pre ++ l) eqn:E; [constructor|]. by inversion H.
Qed.

Lemma cycle_from_suffix r stack :
  r ∈ stack ->
  exists pre suf, stack = pre ++ r :: suf /\ element.cycle_from r stack = r :: suf ++ [r].
Proof.
  induction stack as [|x rest IH]; intros Hin; [by apply elem_of_nil in Hin|].
  cbn [element.cycle_from]. destruct (bool_decide (x = r)) eqn:Ex.
  - apply bool_decide_eq_true in Ex as ->. by exists [], rest.
  - apply bool_decide_eq_false in Ex. apply elem_of_cons in Hin as [->|Hin]; [done|].
    destruct (IH Hin) as (pre & suf & -> & Hc). by exists (x :: pre), suf.
Qed.

Lemma cycle_from_follows r s top :
  r ∈ s ++ [top] -> follows graph (s ++ [top]) -> refers graph top r ->
  follows graph (element.cycle_from r (s ++ [top])).
Proof.
  intros Hin Hs Hr.
  destruct (cycle_from_suffix _ _ Hin) as (pre & suf & Hsplit & ->).
  assert (exists l, r :: suf = l ++ [top]) as [l Hl].
  { destruct (decide (suf = [])) as [-> | Hne].
    - exists []. cbn. f_equal. apply (f_equal last) in Hsplit.
      rewrite !last_snoc in Hsplit. by injection Hsplit.
    - destruct (exists_last Hne) as (suf' & z & ->). exists (r :: suf'). cbn. f_equal. f_equal. f_equal.
      replace (pre ++ r :: suf' ++ [z]) with ((pre ++ r :: suf') ++ [z]) in Hsplit
        by (by rewrite <- app_assoc).
      apply (f_equal last) in Hsplit. rewrite !last_snoc in Hsplit. by injection Hsplit. }
  rewrite Hsplit in Hs. apply follows_suffix in Hs.
  change (r :: suf ++ [r]) with ((r :: suf) ++ [r]). rewrite Hl in *.
  rewrite <- app_assoc. by apply follows_snoc.
Qed.

Lemma cycle_paths_follow fuel : forall s top refs found,
  element.cycle_paths fuel graph (s ++ [top]) refs = Some found ->
  follows graph (s ++ [top]) ->
  (forall r, r ∈ refs -> refers graph top r) ->
  Forall (follows graph) found.
Proof.
  induction fuel as [|fuel IH]; intros s top refs found; [done|].
  cbn [element.cycle_paths]. destruct refs as [|r rest]; [by intros [= <-]|].
  intros H Hs Hrefs. apply bind_Some in H as (here & Hhere & H).
  apply bind_Some in H as (there & Hthere & [= <-]).
  assert (refers graph top r) as Hr by (apply Hrefs; left).
  apply Forall_app. split.
  - destruct (bool_decide (r ∈ s ++ [top])) eqn:Er.
    + injection Hhere as <-. apply bool_decide_eq_true in Er.
      constructor; [|done]. by apply cycle_from_follows.
    + destruct (graph r) as [value|] eqn:Hg; [|by injection Hhere as <-].
      apply (IH (s ++ [top]) r _ _ Hhere).
      * rewrite <- app_assoc. by apply follows_snoc.
      * intros r' Hr'. by exists value.
  - apply (IH s top rest _ Hthere Hs). intros r' Hr'. apply Hrefs. by right.
Qed.

(** The search gives the same answer at every greater depth. *)
Lemma cycle_paths_mono fuel : forall fuel' stack refs found,
  element.cycle_paths fuel graph stack refs = Some found -> fuel <= fuel' ->
  element.cycle_paths fuel' graph stack refs = Some found.
Proof.
  induction fuel as [|fuel IH]; intros fuel' stack refs found H Hle; [done|].
  destruct fuel' as [|fuel']; [lia|]. cbn [element.cycle_paths] in *.
  destruct refs as [|r rest]; [done|].
  apply bind_Some in H as (here & Hhere & H).
  apply bind_Some in H as (there & Hthere & [= <-]).
  apply bind_Some. exists here. split.
  - destruct (bool_decide (r ∈ stack)); [done|].
    destruct (graph r); [|done]. apply (IH _ _ _ _ Hhere). lia.
  - apply bind_Some. exists there. split; [|done]. apply (IH _ _ _ _ Hthere). lia.
Qed.

(** The search misses no cycle: when a reference leads, along references, to
    a property that is on the stack or was met on the way, the search does
    not come back empty-handed. *)
Lemma cycle_paths_complete fuel : forall stack refs found r chain,
  NoDup stack -> r ∈ refs ->
  follows graph (r :: chain) -> ~ NoDup (stack ++ r :: chain) ->
  element.cycle_paths fuel graph stack refs = Some found -> found <> [].
Proof.
  induction fuel as [|fuel IH]; intros stack refs found r chain Hnd Hin Hf Hdup H; [done|].
  cbn [element.cycle_paths] in H. destruct refs as [|x rest]; [by apply elem_of_nil in Hin|].
  apply bind_Some in H as (here & Hhere & H).
  apply bind_Some in H as (there & Hthere & [= <-]).
  apply elem_of_cons in Hin as [-> | Hin].
  2:{ pose proof (IH _ _ _ _ _ Hnd Hin Hf Hdup Hthere) as Hne.
      intros Happ. by apply app_eq_nil in Happ as [_ ?]. }
  assert (here <> []) as Hne; [|intros Happ; by apply app_eq_nil in Happ as [? _]].
  destruct (bool_decide (x ∈ stack)) eqn:Ex; [by injection Hhere as <-|].
  apply bool_decide_eq_false in Ex.
  assert (NoDup (stack ++ [x])) as Hnd'.
  { apply NoDup_app. split; [done|]. split; [|apply NoDup_singleton].
    intros y Hy Hy'. apply list_elem_of_singleton in Hy' as ->. done. }
  destruct chain as [|c chain]; [done|].
  inversion Hf as [| |a b l (v & Hv & Hc) Hrest]; subst.
  rewrite Hv in Hhere.
  apply (IH _ _ _ c chain Hnd' Hc Hrest); [|done].
  by rewrite <- app_assoc.
Qed.

(** The search ends: on a graph with finitely many properties, each of
    which mentions at most [B] others, a depth of the number of remaining
    references plus [B + 1] for every property not yet on the stack is
    enough. *)
Lemma cycle_paths_total (D : gset PropertyId) B :
  (forall r v, graph r = Some v -> r ∈ D /\ length (element.references v) <= B) ->
  forall fuel stack refs d,
    size (D ∖ list_to_set stack) <= d ->
    length refs + 1 + d * (B + 1) <= fuel ->
    is_Some (element.cycle_paths fuel graph stack refs).
Proof.
  intros Hg. induction fuel as [|fuel IH]; intros stack refs d Hsize Hfuel; [lia|].
  cbn [element.cycle_paths]. destruct refs as [|r rest]; [by eexists|].
  cbn [length] in Hfuel.
  destruct (IH stack rest d Hsize) as [there Hthere]; [lia|].
  assert (is_Some (if bool_decide (r ∈ stack)
                   then Some [element.cycle_from r stack]
                   else match graph r with
                        | Some v => element.cycle_paths fuel graph (stack ++ [r])
                                      (element.references v)
                        | None => Some []
                        end)) as [here Hhere].
  { destruct (bool_decide (r ∈ stack)) eqn:Er; [by eexists|].
    apply bool_decide_eq_false in Er.
    destruct (graph r) as [v|] eqn:Hv; [|by eexists].
    destruct (Hg _ _ Hv) as [HD HB].
    assert (size (D ∖ list_to_set (stack ++ [r])) < size (D ∖ list_to_set stack)) as Hless.
    { apply subset_size. split.
      - intros y Hy. apply elem_of_difference in Hy as [Hy Hout].
        apply elem_of_difference. split; [done|]. intros Hon. apply Hout.
        apply elem_of_list_to_set, elem_of_app. left.
        by apply elem_of_list_to_set in Hon.
      - intros Hsub.
        assert (r ∈ D ∖ list_to_set (C:=gset PropertyId) stack) as Hr.
        { apply elem_of_difference. split; [done|]. intros Hon.
          by apply elem_of_list_to_set in Hon. }
        apply Hsub, elem_of_difference in Hr as [_ Hout]. apply Hout.
        apply elem_of_list_to_set, elem_of_app. right. apply list_elem_of_here. }
    destruct d as [|d]; [lia|].
    apply (IH _ _ d); [lia|].
    rewrite Nat.mul_succ_l in Hfuel. lia. }
  rewrite Hhere, Hthere. by eexists.
Qed.

End Follows.

(** The properties of a tree are finitely many. *)
Lemma stored_ids h :
  exists D : gset PropertyId, forall id, is_Some (element.stored_value h id) -> id ∈ D.
Proof.
  induction h as [|e h [D HD]].
  - exists ∅. intros [i k] [v Hv]. by destruct i.
  - exists (set_map (fun k => (0, k)) (dom (properties e))
            ∪ set_map (fun id : PropertyId => (S id.1, id.2)) D).
    intros [[|i] k] Hs.
    + apply elem_of_union_l, elem_of_map. exists k. split; [done|].
      apply elem_of_dom. unfold element.stored_value in Hs. cbn in Hs.
      destruct (properties e !! k); [by eexists | by destruct Hs].
    + apply elem_of_union_r, elem_of_map. exists (i, k). split; [done|].
      by apply HD.
Qed.

Lemma references_bound (graph : PropertyId -> option datatypes.Value)
    (D : gset PropertyId) :
  exists B, forall r v, r ∈ D -> graph r = Some v -> length (element.references v) <= B.
Proof.
  induction D as [|x X Hx [B HB]] using set_ind_L.
  - exists 0. intros r v Hr. by apply elem_of_empty in Hr.
  - exists (Nat.max B (match graph x with
                       | Some v => length (element.references v)
                       | None => 0
                       end)).
    intros r v Hr Hv. apply elem_of_union in Hr as [Hr | Hr].
    + apply elem_of_singleton in Hr as ->. rewrite Hv. lia.
    + specialize (HB r v Hr Hv). lia.
Qed.

(** On the graph an assignment would give, the search for cycles ends and
    finds one whenever there is one to find. *)
Lemma search_finds_cycle h self n v chain :
  follows (element.graph_with h self n v) ((self, n) :: chain) ->
  ~ NoDup ((self, n) :: chain) ->
  exists fuel0 path paths,
    forall fuel, fuel0 <= fuel ->
      element.cycle_paths fuel (element.graph_with h self n v) [(self, n)]
        (element.references v) = Some (path :: paths).
Proof.
  intros Hf Hdup. set (graph := element.graph_with h self n v) in *.
  destruct (stored_ids h) as [Dh HDh].
  destruct (references_bound graph ({[(self, n)]} ∪ Dh)) as [B HB].
  assert (forall r w, graph r = Some w ->
            r ∈ ({[(self, n)]} ∪ Dh : gset PropertyId)
            /\ length (element.references w) <= B) as Hg.
  { intros r w Hr. assert (r ∈ ({[(self, n)]} ∪ Dh : gset PropertyId)) as Hin; [|by eauto].
    unfold graph, element.graph_with in Hr.
    destruct (bool_decide (r = (self, n))) eqn:E.
    - apply bool_decide_eq_true in E as ->. set_solver.
    - apply elem_of_union_r, HDh. by eexists. }
  set (fuel0 := length (element.references v) + 1
                + size ({[(self, n)]} ∪ Dh : gset PropertyId) * (B + 1)).
  destruct (cycle_paths_total graph _ B Hg fuel0 [(self, n)] (element.references v)
              (size ({[(self, n)]} ∪ Dh : gset PropertyId))) as [found Hfound].
  { apply subseteq_size. intros y Hy. by apply elem_of_difference in Hy as [Hy _]. }
  { done. }
  destruct chain as [|c chain]; [exfalso; apply Hdup, NoDup_singleton|].
  inversion Hf as [| |a b l (w & Hw & Hc) Hrest]; subst.
  assert (w = v) as ->.
  { unfold graph, element.graph_with in Hw. rewrite bool_decide_eq_true_2 in Hw by done.
    by injection Hw. }
  pose proof (cycle_paths_complete graph fuel0 [(self, n)] _ found c chain
                (NoDup_singleton _) Hc Hrest Hdup Hfound) as Hne.
  destruct found as [|path paths]; [done|].
  exists fuel0, path, paths. intros fuel Hle. by eapply cycle_paths_mono.
Qed.

Section AssignClaims.
Context (env : Env).


Lemma cycle_from_shape r stack :
  r ∈ stack -> exists middle, element.cycle_from r stack = r :: middle ++ [r].
Proof.
  induction stack as [|x rest IH]; intros Hin; [by apply elem_of_nil in Hin|].
  cbn [element.cycle_from]. destruct (bool_decide (x = r)) eqn:Ex.
  - apply bool_decide_eq_true in Ex as ->. by exists rest.
  - apply bool_decide_eq_false in Ex. apply elem_of_cons in Hin as [->|Hin]; [done|].
    by apply IH.
Qed.

Lemma cycle_paths_shape fuel : forall graph stack refs found,
  element.cycle_paths fuel graph stack refs = Some found ->
  Forall (fun cycle => exists r middle, cycle = r :: middle ++ [r]) found.
Proof.
  induction fuel as [|fuel IH]; intros graph stack refs found; [done|].
  cbn [element.cycle_paths]. destruct refs as [|r rest]; [by intros [= <-]|].
  intros H. apply bind_Some in H as (here & Hhere & H).
  apply bind_Some in H as (there & Hthere & [= <-]).
  apply Forall_app. split; [|by eapply IH].
  destruct (bool_decide (r ∈ stack)) eqn:Er.
  - injection Hhere as <-. apply bool_decide_eq_true in Er.
    destruct (cycle_from_shape _ _ Er) as [middle ->]. constructor; [|done]. eauto.
  - destruct (graph r) as [value|]; [by eapply IH|]. by injection Hhere as <-.
Qed.

(** C1, as amended.  Take an assignment, in the body of an element, to a
    property of the element that is neither read-only nor constant, whose
    right-hand side builds to a value that would close a circular
    reference: once the value is stored, some walk from the property along
    the references of the expressions comes back to a property it has
    visited.  Then, at every recursion depth from some depth on, the build
    fails with the circular-reference error, located at the node, and
    nothing changes.  The diagnostic carries the elaboration [Paths:]
    followed by one line per cycle found, at least one, which lists the
    names of the properties on the cycle, joined by arrows, from the first
    occurrence back to the repeat; the elements the properties belong to are
    not part of it.  Each reported cycle starts and ends with the same
    property, and each of its properties refers to the next once the new
    expression is stored. *)
Theorem circular_assignment_reports_paths f1 st self obj n p ty tys name_token
    valnode v token chain :
  last (_elements st) = Some self ->
  heap st !! self = Some obj ->
  properties obj !! n = Some p ->
  types p = ty :: tys ->
  is_expr valnode = true ->
  (forall fuel, f1 <= fuel ->
     (_build env fuel valnode (set_types (fun l => l ++ [ty]) st)).1 = Ok (BValue v)) ->
  readonly p = false ->
  constant p = false ->
  follows (element.graph_with (heap st) self n v) ((self, n) :: chain) ->
  ~ NoDup ((self, n) :: chain) ->
  exists fuel0 path paths,
    Forall (fun cycle => exists r middle, cycle = r :: middle ++ [r]) (path :: paths)
    /\ Forall (follows (element.graph_with (heap st) self n v)) (path :: paths)
    /\ forall fuel, fuel0 <= fuel ->
         exists text,
           _build env (S fuel) (parser.Assign (parser.Name n name_token) valnode token) st
           = (Raise (_create_error (text +:+ " in " +:+ class_name (cls obj))
                       (Some ("Paths:" +:+ pystr.nl
                              +:+ pystr.join pystr.nl
                                    (map (fun cycle => pystr.join " -> " (map snd cycle))
                                         (path :: paths))))
                       token), st).
Proof.
  intros Hself Hobj Hprop Hty Hexpr Hval Hro Hc Hf Hdup.
  destruct (search_finds_cycle (heap st) self n v chain Hf Hdup)
    as (fuel0 & path & paths & Hsearch).
  exists (Nat.max f1 fuel0), path, paths.
  pose proof (Hsearch fuel0 (Nat.le_refl _)) as Hcycle.
  split; [by eapply cycle_paths_shape|]. split.
  - apply (cycle_paths_follow _ fuel0 [] (self, n) _ _ Hcycle); [constructor|].
    intros r Hr. exists v. split; [|done].
    unfold element.graph_with. by rewrite bool_decide_eq_true_2.
  - intros fuel Hle. eexists.
    rewrite (_build_Assign_set env fuel st self obj n p ty tys name_token valnode v token
               Hself Hobj Hprop Hty Hexpr (Hval fuel ltac:(lia))).
    rewrite (set_circular env _ _ _ _ _ _ _ _ _ Hobj Hprop Hro Hc
               (Hsearch fuel ltac:(lia))). cbn.
    by rewrite on_heap_id.
Qed.

End AssignClaims.



Lemma circular_assignment_reports_paths_witness :
  let st := demo.inside [0; 1] demo.twin_state in
  let graph :=
    element.graph_with (heap st) 1 "width" (datatypes.ElementProperty 1 "width") in
  exists fuel0 path paths,
    Forall (fun cycle => exists r middle, cycle = r :: middle ++ [r]) (path :: paths)
    /\ Forall (follows graph) (path :: paths)
    /\ forall fuel, fuel0 <= fuel ->
         exists text,
           _build demo.env (S fuel)
             (parser.Assign (parser.Name "width" None) (parser.Name "width" None)
                (demo.at_ 2 4 2 16)) st
           = (Raise (_create_error (text +:+ " in Rectangle")
                       (Some ("Paths:" +:+ pystr.nl
                              +:+ pystr.join pystr.nl
                                    (map (fun cycle => pystr.join " -> " (map snd cycle))
                                         (path :: paths))))
                       (demo.at_ 2 4 2 16)), st).
Proof.
  intros st graph.
  pose (obj := default (fresh Element) (heap st !! 1)).
  pose (p := default demo.no_property (properties obj !! "width")).
  assert (H1 : last (_elements st) = Some 1) by reflexivity.
  assert (H2 : heap st !! 1 = Some obj) by (vm_compute; reflexivity).
  assert (H3 : properties obj !! "width" = Some p) by (vm_compute; reflexivity).
  assert (H4 : types p = datatypes.TPercentage :: [datatypes.TNumber])
    by (vm_compute; reflexivity).
  assert (H5 : forall fuel, 1 <= fuel ->
                 (_build demo.env fuel (parser.Name "width" None)
                    (set_types (fun l => l ++ [datatypes.TPercentage]) st)).1
                 = Ok (BValue (datatypes.ElementProperty 1 "width"))).
  { intros [|fuel] Hfuel; [lia|]. vm_compute. reflexivity. }
  assert (H6 : readonly p = false) by (vm_compute; reflexivity).
  assert (H7 : constant p = false) by (vm_compute; reflexivity).
  assert (H8 : follows graph [(1, "width"); (1, "width")]).
  { apply follows_cons; [|apply follows_one].
    exists (datatypes.ElementProperty 1 "width").
    split; [vm_compute; reflexivity | apply list_elem_of_here]. }
  assert (H9 : ~ NoDup [(1, "width"); (1, "width")]).
  { intros Hnd. apply NoDup_cons in Hnd as [Hnd _]. apply Hnd, list_elem_of_here. }
  exact (circular_assignment_reports_paths demo.env 1 st 1 obj "width" p
           datatypes.TPercentage [datatypes.TNumber] None
           (parser.Name "width" None) (datatypes.ElementProperty 1 "width")
           (demo.at_ 2 4 2 16) [(1, "width")]
           H1 H2 H3 H4 eq_refl H5 H6 H7 H8 H9).
Defined.

(** The same assignment in either of two sibling rectangles closes a cycle
    through a different property object, and yet the two diagnostics are the
    same text: the elaboration names the properties only. *)
Lemma circular_diagnostic_omits_elements :
  let assign := parser.Assign (parser.Name "width" None) (parser.Name "width" None) None in
  let first := demo.inside [0; 1] demo.twin_state in
  let second := demo.inside [0; 2] demo.twin_state in
  (element.set demo.env 3 1 "width" (datatypes.ElementProperty 1 "width") (heap first)).1
  = Raise (CircularReferenceError "Circular reference in property 'width'"
             [[(1, "width"); (1, "width")]])
  /\ (element.set demo.env 3 2 "width" (datatypes.ElementProperty 2 "width") (heap second)).1
     = Raise (CircularReferenceError "Circular reference in property 'width'"
                [[(2, "width"); (2, "width")]])
  /\ (_build demo.env 4 assign first).1
     = Raise (SceneBuilderError
                ("Circular reference in property 'width' in Rectangle" +:+ pystr.nl
                 +:+ "Paths:" +:+ pystr.nl +:+ "width -> width"))
  /\ (_build demo.env 4 assign second).1 = (_build demo.env 4 assign first).1.
Proof. vm_compute. repeat split. Qed.


(** ** The defaults of [Circle] *)

Lemma bind_inv {S A B} (m : M S A) (k : A -> M S B) s b s' :
  bind m k s = (Ok b, s') ->
  exists a s1, m s = (Ok a, s1) /\ k a s1 = (Ok b, s').
Proof.
  unfold bind. destruct (m s) as [[a|e|f] s1]; intros H; [eauto|done..].
Qed.

Section Tables.
Context (env : Env).

Lemma define_inv self n v ty rel ro c h u h' :
  element.define env self n v ty rel ro c h = (Ok u, h') ->
  exists m p,
    table h self = Some m /\ m !! n = None
    /\ value p = v /\ relative p = rel
    /\ table h' self = Some (<[n := p]> m).
Proof.
  unfold element.define, bind, deref, table.
  destruct (h !! self) as [obj|] eqn:Hobj; [|done].
  destruct (properties obj !! n) eqn:Hn; [done|].
  unfold update. rewrite Hobj. intros [= <- <-].
  eexists _, _. split; [done|]. split; [done|]. split; [|split]; [| |
    rewrite list_lookup_insert_eq by (by eapply lookup_lt_Some); reflexivity]; done.
Qed.

Lemma set_inv fuel self n v h u h' :
  element.set env fuel self n v h = (Ok u, h') ->
  exists m p,
    table h self = Some m /\ m !! n = Some p
    /\ table h' self = Some (<[n := with_value v p]> m).
Proof.
  unfold element.set, bind at 1, element.get_property, bind at 1, deref, table.
  destruct (h !! self) as [obj|] eqn:Hobj; [|done].
  destruct (properties obj !! n) as [p|] eqn:Hn; [|done]. cbn.
  destruct (readonly p); [done|]. destruct (constant p); [done|].
  unfold bind, get_state.
  destruct (element.cycle_paths _ _ _ _) as [[|? ?]|]; [|done..].
  destruct (type_compatible _ _ _); [|done].
  unfold update. rewrite Hobj. intros [= <- <-].
  eexists _, _. split; [done|]. split; [done|].
  rewrite list_lookup_insert_eq by (by eapply lookup_lt_Some). done.
Qed.

Lemma get_inv self n h v h' :
  element.get self n h = (Ok v, h') ->
  h' = h /\ v = datatypes.ElementProperty self n.
Proof.
  unfold element.get, bind, element.get_property, bind, deref.
  destruct (h !! self) as [obj|]; [|done].
  destruct (properties obj !! n); [|done]. by intros [= <- <-].
Qed.

End Tables.

Ltac binv H :=
  let a := fresh "a" in let h := fresh "h" in let H1 := fresh "Hstep" in
  apply bind_inv in H as (a & h & H1 & H).

Ltac getinv H :=
  let E1 := fresh in let E2 := fresh in
  apply get_inv in H as [E1 E2]; subst.

Section Circle.
Context (env : Env).

Lemma centered_inv self dim h v h' :
  drawables.centered self dim h = (Ok v, h') ->
  h' = h /\ v = datatypes.BinOp "-" (drawables.percent 50)
                  (datatypes.BinOp "/" (datatypes.ElementProperty self dim) (drawables.int 2)).
Proof.
  unfold drawables.centered. intros H. binv H. getinv Hstep. by injection H as <- <-.
Qed.

Lemma corner_inv self center dim h v h' :
  drawables.corner self center dim h = (Ok v, h') ->
  h' = h /\ v = datatypes.BinOp "-" (datatypes.ElementProperty self center)
                  (datatypes.BinOp "/" (datatypes.ElementProperty self dim) (drawables.int 2)).
Proof.
  unfold drawables.corner. intros H. binv H. getinv Hstep. binv H. getinv Hstep.
  by injection H as <- <-.
Qed.

Lemma scaled_inv self op n h v h' :
  drawables.scaled self op n h = (Ok v, h') ->
  h' = h /\ v = datatypes.BinOp op (datatypes.ElementProperty self n) (drawables.int 2).
Proof.
  unfold drawables.scaled. intros H. binv H. getinv Hstep. by injection H as <- <-.
Qed.


Ltac step_define Ht Hstep p Hv Hrel :=
  let m := fresh "m" in let Hm := fresh "Hm" in let Hm' := fresh "Hm" in
  apply (define_inv env) in Hstep as (m & p & Hm & _ & Hv & Hrel & Hm');
  rewrite Ht in Hm; injection Hm as <-; clear Ht; rename Hm' into Ht.

Ltac step_set Ht Hstep p Hp :=
  let m := fresh "m" in let Hm := fresh "Hm" in let Hm' := fresh "Hm" in
  apply (set_inv env) in Hstep as (m & p & Hm & Hp & Hm');
  rewrite Ht in Hm; injection Hm as <-; clear Ht; rename Hm' into Ht.

Lemma Drawable_on_ready_inv self h u h' :
  drawables.Drawable_on_ready env self h = (Ok u, h') ->
  exists m pw ph,
    table h' self = Some (<["height" := ph]> (<["width" := pw]> m))
    /\ relative pw = Some "width" /\ relative ph = Some "height".
Proof.
  unfold drawables.Drawable_on_ready. intros H. binv H. binv H.
  destruct (parent a0) as [up|]; [|done]. binv H.
  destruct (index_of self (children a1)) as [i|]; [|done].
  binv H. binv H. binv H. binv H.
  unfold drawables.def_relative in *.
  apply (define_inv env) in Hstep5 as (m5 & pw & Hm5 & _ & _ & Hrw & Hm5').
  apply (define_inv env) in H as (m6 & ph & Hm6 & _ & _ & Hrh & Hm6').
  rewrite Hm5' in Hm6. injection Hm6 as <-. eauto 10.
Qed.


Lemma declares_table h self m n p :
  table h self = Some m -> m !! n = Some p ->
  declares h self n (value p) (relative p).
Proof.
  unfold table. intros Ht Hp. apply fmap_Some in Ht as (obj & Hobj & ->).
  by exists obj, p.
Qed.

Lemma Circle_on_ready_defaults fuel self h u h' :
  drawables.Circle_on_ready env fuel self h = (Ok u, h') ->
  declares h' self "diameter" (drawables.percent 100) (Some "width")
  /\ declares h' self "radius"
       (datatypes.BinOp "/" (datatypes.ElementProperty self "diameter") (drawables.int 2))
       (Some "width")
  /\ declares h' self "width"
       (datatypes.BinOp "*" (datatypes.ElementProperty self "radius") (drawables.int 2))
       (Some "width")
  /\ declares h' self "height"
       (datatypes.BinOp "*" (datatypes.ElementProperty self "radius") (drawables.int 2))
       (Some "height").
Proof.
  unfold drawables.Circle_on_ready. intros H.
  binv H. apply Drawable_on_ready_inv in Hstep as (m0 & pw & ph & Ht & Hrw & Hrh).
  unfold drawables.def_relative, drawables.define_paint, drawables.def in H.
  binv H. apply centered_inv in Hstep as [-> ->].
  binv H. step_define Ht Hstep pcx Hvcx Hrcx.
  binv H. apply centered_inv in Hstep as [-> ->].
  binv H. step_define Ht Hstep pcy Hvcy Hrcy.
  binv H. step_define Ht Hstep pd Hvd Hrd.
  binv H. apply scaled_inv in Hstep as [-> ->].
  binv H. step_define Ht Hstep pr Hvr Hrr.
  binv H. apply corner_inv in Hstep as [-> ->].
  binv H. step_set Ht Hstep px Hpx.
  binv H. apply corner_inv in Hstep as [-> ->].
  binv H. step_set Ht Hstep py Hpy.
  binv H. apply scaled_inv in Hstep as [-> ->].
  binv H. step_set Ht Hstep pw' Hpw.
  binv H. apply scaled_inv in Hstep as [-> ->].
  binv H. step_set Ht Hstep ph' Hph.
  binv H. step_define Ht Hstep pc Hvc Hrc.
  binv H. getinv Hstep.
  binv H. step_define Ht Hstep pf Hvf Hrf.
  binv H. step_define Ht Hstep po Hvo Hro.
  step_define Ht H pow Hvow Hrow.
  repeat (rewrite lookup_insert_ne in Hpw by done). rewrite lookup_insert_eq in Hpw.
  injection Hpw as <-.
  repeat (rewrite lookup_insert_ne in Hph by done). rewrite lookup_insert_eq in Hph.
  injection Hph as <-.
  assert (forall n p, _ !! n = Some p -> declares h' self n (value p) (relative p)) as D
    by (intros n p; apply (declares_table _ _ _ _ _ Ht)).
  repeat split.
  - rewrite <- Hvd, <- Hrd. apply D.
    repeat (rewrite lookup_insert_ne by done). apply lookup_insert_eq.
  - rewrite <- Hvr, <- Hrr. apply D.
    repeat (rewrite lookup_insert_ne by done). apply lookup_insert_eq.
  - rewrite <- Hrw.
    apply (D "width" (with_value
             (datatypes.BinOp "*" (datatypes.ElementProperty self "radius") (drawables.int 2)) pw)).
    repeat (rewrite lookup_insert_ne by done). apply lookup_insert_eq.
  - rewrite <- Hrh.
    apply (D "height" (with_value
             (datatypes.BinOp "*" (datatypes.ElementProperty self "radius") (drawables.int 2)) ph)).
    repeat (rewrite lookup_insert_ne by done). apply lookup_insert_eq.
Qed.

(** What assigning to an existing property leaves of the others. *)
Lemma set_declares fuel self n v h u h' :
  element.set env fuel self n v h = (Ok u, h') ->
  (exists rel, declares h' self n v rel)
  /\ forall n' v' rel, n' <> n -> declares h self n' v' rel -> declares h' self n' v' rel.
Proof.
  intros H. apply (set_inv env) in H as (m & p & Hm & Hp & Hm'). split.
  - exists (relative p).
    apply (declares_table _ _ _ n (with_value v p) Hm'), lookup_insert_eq.
  - intros n' v' rel Hne (obj & p' & Hobj & Hp' & <- & <-).
    apply (declares_table _ _ _ n' p' Hm').
    rewrite lookup_insert_ne by done.
    unfold table in Hm. rewrite Hobj in Hm. by injection Hm as <-.
Qed.

Lemma radius_of_diameter k h self obj up rel :
  h !! self = Some obj ->
  parent obj = Some up ->
  declares h self "diameter" (datatypes.Percentage (50 # 1)) rel ->
  declares h self "radius"
    (datatypes.BinOp "/" (datatypes.ElementProperty self "diameter") (drawables.int 2))
    (Some "width") ->
  evaluation.eval_property env (4 + k) h up "width" = Ok (datatypes.Number (300 # 1)) ->
  evaluation.eval_property env (5 + k) h self "radius" = Ok (datatypes.Number (75 # 1)).
Proof.
  intros Hobj Hup (o & pd & Ho & Hpd & Hvd & _) (obj' & pr & Hobj' & Hpr & Hvr & Hrr) Hwidth.
  rewrite Hobj in Hobj'. injection Hobj' as <-.
  rewrite Hobj in Ho. injection Ho as <-.
  change (5 + k) with (S (4 + k)). cbn [evaluation.eval_property].
  rewrite Hobj, Hpr. change (4 + k) with (S (S (S (S k)))) at 1.
  cbn [evaluation.eval].
  rewrite bool_decide_eq_false_2 by apply not_elem_of_nil.
  rewrite Hobj, Hpr, Hvr.
  rewrite bool_decide_eq_false_2
    by (intros Hin; apply list_elem_of_singleton in Hin; discriminate Hin).
  rewrite Hobj, Hpd, Hvd. cbn [res_bind drawables.int].
  destruct k; cbn [evaluation.eval res_bind]; rewrite Hrr, Hup, Hwidth; reflexivity.
Qed.


(** C8.  After [Circle.on_ready] the circle declares [diameter] as 100%
    relative to [width] and [radius] as [diameter / 2], and holds
    [radius * 2] in [width] and in [height].  If [diameter] is then assigned
    50% and the circle's parent reads its [width] as 300, the circle's
    [radius] reads as 75. *)
Theorem circle_radius_is_half_diameter fuel k self up obj h0 h1 h2 :
  drawables.Circle_on_ready env fuel self h0 = (Ok tt, h1) ->
  element.set env fuel self "diameter" (datatypes.Percentage (50 # 1)) h1 = (Ok tt, h2) ->
  h2 !! self = Some obj ->
  parent obj = Some up ->
  evaluation.eval_property env (4 + k) h2 up "width" = Ok (datatypes.Number (300 # 1)) ->
  (declares h1 self "diameter" (drawables.percent 100) (Some "width")
   /\ declares h1 self "radius"
        (datatypes.BinOp "/" (datatypes.ElementProperty self "diameter") (drawables.int 2))
        (Some "width")
   /\ declares h1 self "width"
        (datatypes.BinOp "*" (datatypes.ElementProperty self "radius") (drawables.int 2))
        (Some "width")
   /\ declares h1 self "height"
        (datatypes.BinOp "*" (datatypes.ElementProperty self "radius") (drawables.int 2))
        (Some "height"))
  /\ evaluation.eval_property env (5 + k) h2 self "radius"
     = Ok (datatypes.Number (75 # 1)).
Proof.
  intros Hready Hset Hobj Hup Hwidth.
  pose proof (Circle_on_ready_defaults _ _ _ _ _ Hready) as Hdefaults.
  split; [exact Hdefaults|].
  destruct Hdefaults as (_ & Hradius & _).
  destruct (set_declares _ _ _ _ _ _ _ Hset) as [[rel Hd] Hkeep].
  eapply radius_of_diameter; eauto.
Qed.

End Circle.

Lemma circle_radius_is_half_diameter_witness :
  evaluation.eval_property demo.env 5 demo.circle_halved 1 "radius"
  = Ok (datatypes.Number (75 # 1)).
Proof.
  pose (obj := default (fresh Element) (demo.circle_halved !! 1)).
  assert (H1 : drawables.Circle_on_ready demo.env 10 1 demo.circle_attached
               = (Ok tt, demo.circle_ready)) by (vm_compute; reflexivity).
  assert (H2 : element.set demo.env 10 1 "diameter" (datatypes.Percentage (50 # 1))
                 demo.circle_ready = (Ok tt, demo.circle_halved))
    by (vm_compute; reflexivity).
  assert (H3 : demo.circle_halved !! 1 = Some obj) by (vm_compute; reflexivity).
  assert (H4 : parent obj = Some 0) by (vm_compute; reflexivity).
  assert (H5 : evaluation.eval_property demo.env 4 demo.circle_halved 0 "width"
               = Ok (datatypes.Number (300 # 1))) by (vm_compute; reflexivity).
  exact (proj2 (circle_radius_is_half_diameter demo.env 10 0 1 0 obj
                  demo.circle_attached demo.circle_ready demo.circle_halved
                  H1 H2 H3 H4 H5)).
Defined.

(** The same through the builder: in the scene built from [circle_scene] the
    circle's [radius] reads as 75, and its [width] as 150. *)
Example circle_scene_radius :
  (build demo.env 30 demo.circle_scene (init demo.env)).1 = Ok 0
  /\ evaluation.eval_property demo.env 10 (heap demo.circle_state) 1 "radius"
     = Ok (datatypes.Number (75 # 1))
  /\ evaluation.eval_property demo.env 10 (heap demo.circle_state) 1 "width"
     = Ok (datatypes.Number (150 # 1)).
Proof. vm_compute. done. Qed.

(** ** Templates, continued *)


(** In the scene built from [template_scene], the [Card] is a [Rectangle]
    that has the defaults of [Rectangle], then the width [Box] assigns, then
    the title [Card] defines; [Plain], which declares no [inherit], resolves
    to [Drawable]. *)
Example card_is_built_base_first :
  let st := demo.template_state in
  (_get_element_type 5 "Card" None st).1 = Ok Rectangle
  /\ (_get_element_type 5 "Plain" None st).1 = Ok Drawable
  /\ (exists obj, heap st !! 1 = Some obj /\ cls obj = Rectangle
        /\ (value <$> properties obj !! "width")
           = Some (datatypes.Percentage (50 # 1))
        /\ (value <$> properties obj !! "title") = Some (datatypes.String "card")
        /\ is_Some (properties obj !! "outline_width")).
Proof. vm_compute. repeat split. eexists. repeat split. by eexists. Qed.

(** * Further properties of the builder and the drawables *)

(** ** The template registry *)

Section Registry.
Context (env : Env).

(** X1.  [_build_Template] declares a name once.  When the name is already
    in the registry, whether as an element class or as a template, the build
    fails with [Redeclaration of 'name'], located at the node, and the state
    is unchanged.  Otherwise the node is stored under its name and [None] is
    returned: looking the name up gives the node back, every other name is
    as before, and the inheritance chain of the name is the node followed by
    the chain of its inherit target ([Drawable] when none is given). *)
Theorem template_declared_once fuel name inherit children token st :
  (is_Some (templates st !! name) ->
   _build env (S fuel) (parser.Template name inherit children token) st
   = (Raise (_create_error ("Redeclaration of " +:+ pystr.repr name) None token), st))
  /\ (templates st !! name = None ->
      let t := {| parser.t_name := name; parser.t_inherit := inherit;
                  parser.t_children := children; parser.t_token := token |} in
      let st' := set_templates (fun m => <[name := TemplateDecl t]> m) st in
      _build env (S fuel) (parser.Template name inherit children token) st
      = (Ok BNone, st')
      /\ _get_template name None st' = (Ok (TemplateDecl t), st')
      /\ (forall other, other <> name ->
            templates st' !! other = templates st !! other)
      /\ forall chain c,
           template_chain (templates st) (parser.inherit_or inherit "Drawable") chain c ->
           template_chain (templates st') name (t :: chain) c).
Proof.
  rewrite !_build_unfold. cbn [_build_body]. unfold _build_Template, bind, get_state.
  cbn [parser.t_name parser.t_token]. split.
  - intros [entry Hentry]. by rewrite Hentry.
  - intros Hnone. rewrite Hnone. split; [done|]. split.
    { unfold _get_template, bind, get_state. cbn. by rewrite lookup_insert_eq. }
    split.
    { intros other Hne. cbn. by rewrite lookup_insert_ne. }
    intros chain c Hchain. eapply chain_template.
    { cbn. apply lookup_insert_eq. }
    cbn [parser.t_inherit].
    induction Hchain as [n c Hc | n t' rest c Ht _ IH].
    + apply chain_class. cbn. rewrite lookup_insert_ne; [done|congruence].
    + eapply chain_template; [|exact IH]. cbn. rewrite lookup_insert_ne; [done|congruence].
Qed.

(** X2.  Creating an element of a name the registry does not hold fails
    with [Creating undefined 'name' template], located at the [create]
    node, before anything is constructed.  When the name is a template whose
    inherit target is not in the registry, the error names the target and
    carries no location: [_get_element_type] passes no token on when it
    follows the inheritance. *)
Theorem undefined_type_is_reported fuel element name children token st :
  name = None \/ name = Some "" ->
  (templates st !! element = None ->
   _build env (S (S fuel)) (parser.Create element name children token) st
   = (Raise (_create_error
               ("Creating undefined " +:+ pystr.repr element +:+ " template")
               None token), st))
  /\ (forall t,
        templates st !! element = Some (TemplateDecl t) ->
        templates st !! parser.inherit_or (parser.t_inherit t) "Drawable" = None ->
        _build env (S (S (S fuel))) (parser.Create element name children token) st
        = (Raise (SceneBuilderError
                    ("Creating undefined "
                     +:+ pystr.repr (parser.inherit_or (parser.t_inherit t) "Drawable")
                     +:+ " template")), st)).
Proof.
  intros Hname.
  assert (match name with Some n => pystr.truthy n | None => false end = false) as Hfalsy
    by (by destruct Hname as [-> | ->]).
  split.
  - intros Hnone. rewrite _build_unfold. cbn [_build_body]. unfold _build_Create.
    rewrite Hfalsy. unfold bind at 1. rewrite _get_element_type_unfold, Hnone. done.
  - intros t Ht Hnone. rewrite _build_unfold. cbn [_build_body]. unfold _build_Create.
    rewrite Hfalsy. unfold bind at 1.
    rewrite _get_element_type_unfold, Ht, _get_element_type_unfold, Hnone. done.
Qed.

(** X3.  Nothing in [_build_Template] or [_get_element_type] looks for
    circular inheritance.  When a set of names is closed under inheritance,
    each of them a template that inherits from another of them, resolving
    the element class of any of them recurses without end: whatever the
    bound on the depth of the recursion, [_get_element_type] exhausts it, and
    so does creating an element of such a name. *)
Theorem circular_inheritance_never_resolves (names : string -> Prop) st :
  (forall name, names name ->
     exists t, templates st !! name = Some (TemplateDecl t)
               /\ names (parser.inherit_or (parser.t_inherit t) "Drawable")) ->
  forall fuel element, names element ->
    (forall token, _get_element_type fuel element token st = (NoResult OutOfFuel, st))
    /\ forall children token,
         _build env fuel (parser.Create element None children token) st
         = (NoResult OutOfFuel, st).
Proof.
  intros Hclosed.
  assert (forall fuel element, names element -> forall token,
            _get_element_type fuel element token st = (NoResult OutOfFuel, st)) as Hloop.
  { induction fuel as [|fuel IH]; intros element Hin token; [done|].
    destruct (Hclosed _ Hin) as (t & Ht & Hnext).
    rewrite _get_element_type_unfold, Ht. by apply IH. }
  intros fuel element Hin. split; [by apply Hloop|].
  intros children token. destruct fuel as [|fuel]; [done|].
  rewrite _build_unfold. cbn [_build_body]. unfold _build_Create. cbn.
  unfold bind at 1. by rewrite Hloop.
Qed.

End Registry.

Lemma template_declared_once_witness :
  _build demo.env 1 (parser.Template "Box" None [] (demo.at_ 4 0 4 15)) demo.template_state
  = (Raise (SceneBuilderError "Redeclaration of 'Box' at 4:0 to 4:15"),
     demo.template_state).
Proof.
  assert (is_Some (templates demo.template_state !! "Box")) as H
    by (vm_compute; by eexists).
  exact (proj1 (template_declared_once demo.env 0 "Box" None [] (demo.at_ 4 0 4 15)
                  demo.template_state) H).
Defined.

Lemma undefined_type_is_reported_witness :
  _build demo.env 2 (parser.Create "Polygon" None [] (demo.at_ 3 0 3 17)) demo.tangle_state
  = (Raise (SceneBuilderError "Creating undefined 'Polygon' template at 3:0 to 3:17"),
     demo.tangle_state)
  /\ _build demo.env 3 (parser.Create "Star" None [] (demo.at_ 3 0 3 14)) demo.tangle_state
     = (Raise (SceneBuilderError "Creating undefined 'Polygon' template"),
        demo.tangle_state).
Proof.
  pose proof (undefined_type_is_reported demo.env 0 "Polygon" None []
                (demo.at_ 3 0 3 17) demo.tangle_state (or_introl eq_refl)) as [H1 _].
  pose proof (undefined_type_is_reported demo.env 0 "Star" None []
                (demo.at_ 3 0 3 14) demo.tangle_state (or_introl eq_refl)) as [_ H2].
  assert (templates demo.tangle_state !! "Polygon" = None) as Hnone
    by (vm_compute; reflexivity).
  split.
  - exact (H1 Hnone).
  - refine (H2 {| parser.t_name := "Star"; parser.t_inherit := Some "Polygon";
                  parser.t_children := []; parser.t_token := None |} _ Hnone).
    vm_compute; reflexivity.
Defined.

Lemma circular_inheritance_never_resolves_witness :
  _build demo.env 1000 (parser.Create "Ping" None [] None) demo.tangle_state
  = (NoResult OutOfFuel, demo.tangle_state).
Proof.
  refine (proj2 (circular_inheritance_never_resolves demo.env
                   (fun name => name = "Ping" \/ name = "Pong") demo.tangle_state
                   _ 1000 "Ping" (or_introl eq_refl)) [] None).
  intros name [-> | ->].
  - exists {| parser.t_name := "Ping"; parser.t_inherit := Some "Pong";
              parser.t_children := []; parser.t_token := None |}.
    split; [vm_compute; reflexivity | by right].
  - exists {| parser.t_name := "Pong"; parser.t_inherit := Some "Ping";
              parser.t_children := []; parser.t_token := None |}.
    split; [vm_compute; reflexivity | by left].
Defined.

(** ** Names, assignments and expressions *)

Section Names.
Context (env : Env).

(** X4.  [_build_Assign] looks the assigned name up on the active element
    alone, not along its ancestors: when the element has no property of
    that name the build fails with [Assigning value to undefined property
    'name' in Class], located at the assignment, whatever the right-hand
    side is; the right-hand side is not built and the state is unchanged. *)
Theorem assignment_needs_own_property fuel st self obj n name_token value token :
  last (_elements st) = Some self ->
  heap st !! self = Some obj ->
  properties obj !! n = None ->
  _build env (S fuel) (parser.Assign (parser.Name n name_token) value token) st
  = (Raise (_create_error
              ("Assigning value to undefined property " +:+ pystr.repr n
               +:+ " in " +:+ class_name (cls obj)) None token), st).
Proof.
  intros Hself Hobj Hnone. rewrite _build_unfold. cbn [_build_body].
  unfold _build_Assign.
  erewrite bind_ok; [|reflexivity]. erewrite bind_ok; [|reflexivity].
  unfold bind at 1, try_except, declared_type.
  rewrite (bind_ok _ _ _ _ _ (_element_top _ _ Hself)).
  unfold bind, on_heap, element.get_property, bind.
  rewrite (deref_lookup _ _ _ Hobj), Hnone. cbn.
  rewrite on_heap_id, Hself. cbn. unfold class_name_of. by rewrite Hobj.
Qed.

Lemma _build_Name_member fuel st ty enum members m z tk :
  ty = datatypes.EnumType enum members \/ ty = datatypes.FlagType enum members ->
  datatypes.enum_lookup members m = Some z ->
  _build env (S fuel) (parser.Name m tk) (set_types (fun l => l ++ [ty]) st)
  = (Ok (BValue (match ty with
                 | datatypes.FlagType _ _ => datatypes.FlagMember enum z
                 | _ => datatypes.EnumMember enum z
                 end)), set_types (fun l => l ++ [ty]) st).
Proof.
  intros Hty Hm. rewrite _build_unfold. cbn [_build_body].
  unfold _build_Name, bind at 1, get_state, enum_member. cbn [_types set_types].
  rewrite last_snoc. by destruct Hty as [-> | ->]; rewrite Hm.
Qed.

(** X5.  In an assignment to a property whose first declared type is an
    enumeration or a flag type, a bare name on the right that is a member of
    that type is built to the boxed member and not looked up as a property,
    whether or not a property of that name exists: the assignment hands the
    member to [Element.set], and its outcome is that of [set], with the
    errors of [set] reworded by the handlers of [_build_Assign]. *)
Theorem member_name_shadows_property fuel st self obj n p ty tys enum members m z
    name_token member_token token :
  last (_elements st) = Some self ->
  heap st !! self = Some obj ->
  properties obj !! n = Some p ->
  types p = ty :: tys ->
  ty = datatypes.EnumType enum members \/ ty = datatypes.FlagType enum members ->
  datatypes.enum_lookup members m = Some z ->
  let member := match ty with
                | datatypes.FlagType _ _ => datatypes.FlagMember enum z
                | _ => datatypes.EnumMember enum z
                end in
  _build env (S (S fuel))
    (parser.Assign (parser.Name n name_token) (parser.Name m member_token) token) st
  = let r := element.set env (S fuel) self n member (heap st) in
    (match r.1 with
     | Ok _ => Ok BNone
     | Raise ex =>
         Raise (default ex (_build_Assign_handlers n
                              (" in " +:+ class_name (cls obj)) token ex))
     | NoResult f => NoResult f
     end, set_heap (fun _ => r.2) st).
Proof.
  intros Hself Hobj Hprop Hty Henum Hm member.
  apply (_build_Assign_set env (S fuel) st self obj n p ty tys); try done.
  by rewrite (_build_Name_member fuel st ty enum members m z member_token Henum Hm).
Qed.

(** X6.  Building an expression (a number, a string, a name, a member
    access, an operator or a call whose operands are expressions) never
    changes the builder or the element tree, whether it returns a value or
    raises. *)
Theorem expressions_build_without_effect fuel node st :
  is_expr node = true -> (_build env fuel node st).2 = st.
Proof. intros H. by apply expr_pure. Qed.

(** X7.  [_build_Number] never changes the state.  It fails only on a unit
    that is neither [%] nor a value of [AngleUnit] or [TimeUnit], with
    [Unexpected unit 'u', expected any of ...] located at the node; without
    a unit or with a known one it returns a value that carries the number of
    the node unchanged. *)
Theorem number_fails_on_unknown_unit_only fuel value unit token st :
  let r := _build env (S fuel) (parser.Number value unit token) st in
  r.2 = st
  /\ (forall u,
        unit = Some u -> u <> "%" -> u ∉ angle_units env -> u ∉ time_units env ->
        r.1 = Raise (_create_error
                       ("Unexpected unit " +:+ pystr.repr u +:+ ", expected any of "
                        +:+ units_text env) None token))
  /\ ((unit = None \/ exists u, unit = Some u
                                /\ (u = "%" \/ u ∈ angle_units env \/ u ∈ time_units env)) ->
      exists v, r.1 = Ok (BValue v)
                /\ (v = datatypes.Number value \/ v = datatypes.Percentage value
                    \/ (exists u, v = datatypes.Angle value u)
                    \/ exists u, v = datatypes.Time value u)).
Proof.
  intros r. subst r. rewrite _build_unfold. cbn [_build_body]. unfold _build_Number.
  destruct unit as [u|]; cbn.
  2:{ split; [done|]. split; [done|]. intros _. eexists. split; [done|]. by left. }
  destruct (String.eqb u "%") eqn:Epct.
  { apply String.eqb_eq in Epct as ->. split; [done|]. split; [by intros ? [= <-]|].
    intros _. eexists. split; [done|]. right. by left. }
  apply String.eqb_neq in Epct.
  destruct (bool_decide (u ∈ angle_units env)) eqn:Ea.
  { apply bool_decide_eq_true in Ea. split; [done|]. split.
    - intros ? [= <-] _ Hna. done.
    - intros _. eexists. split; [done|]. right. right. left. by eexists. }
  apply bool_decide_eq_false in Ea.
  destruct (bool_decide (u ∈ time_units env)) eqn:Et.
  { apply bool_decide_eq_true in Et. split; [done|]. split.
    - intros ? [= <-] _ _ Hnt. done.
    - intros _. eexists. split; [done|]. right. right. right. by eexists. }
  apply bool_decide_eq_false in Et.
  split; [done|]. split.
  - by intros ? [= <-] _ _ _.
  - intros [Hn | (u' & [= <-] & [-> | [Hin | Hin]])]; done.
Qed.

(** X8.  [build] asserts that the root is a [create] of [Scene]: on any
    other node it raises [AssertionError] and touches nothing.  On such a
    root it starts from a registry it seeds itself and from empty stacks, so
    the registry and the two stacks it is entered with have no influence on
    the outcome. *)
Theorem build_checks_root_and_starts_afresh fuel root st :
  ((forall name children token,
      root <> parser.Create "Scene" name children token
      /\ root <> parser.Scene "Scene" name children token) ->
   build env fuel root st = (Raise AssertionError, st))
  /\ (forall name children token,
        root = parser.Create "Scene" name children token
        \/ root = parser.Scene "Scene" name children token ->
        forall registry stack stack',
          build env fuel root
            (set_templates (fun _ => registry)
               (set_elements (fun _ => stack) (set_types (fun _ => stack') st)))
          = build env fuel root st).
Proof.
  split.
  - intros Hroot. unfold build.
    destruct root as [ | |element name children token|element name children token
                      | | | | | | | | | ]; try done;
      (destruct (String.eqb element "Scene") eqn:E; [|done]);
      apply String.eqb_eq in E as ->; by destruct (Hroot name children token).
  - intros name children token Hroot registry stack stack'. unfold build.
    destruct Hroot as [-> | ->]; cbn [negb String.eqb]; unfold bind, modify; by destruct st.
Qed.

End Names.

Lemma assignment_needs_own_property_witness :
  _build demo.env 1
    (parser.Assign (parser.Name "color" None) (parser.Name "fill" None)
       (demo.at_ 5 2 5 13)) demo.image_state
  = (Raise (SceneBuilderError
              "Assigning value to undefined property 'color' in Image at 5:2 to 5:13"),
     demo.image_state).
Proof.
  pose (obj := default (fresh Element) (heap demo.image_state !! 2)).
  assert (last (_elements demo.image_state) = Some 2) as H1 by (vm_compute; reflexivity).
  assert (heap demo.image_state !! 2 = Some obj) as H2 by (vm_compute; reflexivity).
  assert (properties obj !! "color" = None) as H3 by (vm_compute; reflexivity).
  exact (assignment_needs_own_property demo.env 0 demo.image_state 2 obj "color" None
           (parser.Name "fill" None) (demo.at_ 5 2 5 13) H1 H2 H3).
Defined.

Lemma member_name_shadows_property_witness :
  (_build demo.env 2
     (parser.Assign (parser.Name "alignment" None) (parser.Name "Right" None)
        (demo.at_ 2 2 2 18)) demo.text_state).1
  = Raise (SceneBuilderError "Property 'alignment' is constant in Text at 2:2 to 2:18").
Proof.
  pose (obj := default (fresh Element) (heap demo.text_state !! 1)).
  pose (p := default demo.no_property (properties obj !! "alignment")).
  assert (last (_elements demo.text_state) = Some 1) as H1 by (vm_compute; reflexivity).
  assert (heap demo.text_state !! 1 = Some obj) as H2 by (vm_compute; reflexivity).
  assert (properties obj !! "alignment" = Some p) as H3 by (vm_compute; reflexivity).
  assert (types p = drawables.TextAlignment :: []) as H4 by (vm_compute; reflexivity).
  rewrite (member_name_shadows_property demo.env 0 demo.text_state 1 obj "alignment" p
             drawables.TextAlignment [] "TextAlignment"
             [("Left", 1%Z); ("Center", 2%Z); ("Right", 3%Z); ("Default", 1%Z)]
             "Right" 3%Z None None (demo.at_ 2 2 2 18) H1 H2 H3 H4
             (or_introl eq_refl) eq_refl).
  vm_compute. reflexivity.
Defined.

Lemma expressions_build_without_effect_witness :
  (_build demo.env 5
     (parser.BinOp "*" (parser.Name "width" None) (parser.Number (2 # 1) None None) None)
     demo.image_state).2
  = demo.image_state.
Proof.
  exact (expressions_build_without_effect demo.env 5
           (parser.BinOp "*" (parser.Name "width" None)
              (parser.Number (2 # 1) None None) None)
           demo.image_state eq_refl).
Defined.

(** ** The drawables *)

Lemma index_of_position x xs i :
  index_of x xs = Some i ->
  xs !! i = Some x /\ forall j, j < i -> xs !! j <> Some x.
Proof.
  revert i. induction xs as [|y xs IH]; intros i; [done|]. cbn [index_of].
  destruct (Nat.eqb y x) eqn:E.
  - intros [= <-]. apply Nat.eqb_eq in E as ->. split; [done|]. intros j Hj. lia.
  - apply Nat.eqb_neq in E. destruct (index_of x xs) as [k|]; [|done].
    intros [= <-]. destruct (IH k eq_refl) as [Hk Hbefore]. split; [done|].
    intros [|j] Hj; cbn; [congruence|]. apply Hbefore. lia.
Qed.

Section Drawables.
Context (env : Env).

(** X9.  [BaseDrawable.add] first attaches the child as [Element.add] does
    and then files it by kind: a [Drawable] is appended to [elements], an
    [Animation] to [animations].  A child of any other class raises
    [NotImplementedError], but only after it has been attached: it stays
    among the children of the parent, with the parent as its back
    reference, while [elements] and [animations] are as before. *)
Theorem BaseDrawable_add_files_by_kind h up child pobj cobj :
  h !! up = Some pobj ->
  h !! child = Some cobj ->
  up <> child ->
  let attached :=
    <[up := with_children (children pobj ++ [child]) pobj]>
      (<[child := with_parent (Some up) cobj]> h) in
  (issubclass (cls cobj) Drawable = true ->
   drawables.BaseDrawable_add up child h
   = (Ok tt, <[up := with_elements (elements pobj ++ [child])
                       (with_children (children pobj ++ [child]) pobj)]> attached))
  /\ (issubclass (cls cobj) Drawable = false ->
      issubclass (cls cobj) Animation = true ->
      drawables.BaseDrawable_add up child h
      = (Ok tt, <[up := with_animations (animations pobj ++ [child])
                          (with_children (children pobj ++ [child]) pobj)]> attached))
  /\ (issubclass (cls cobj) Drawable = false ->
      issubclass (cls cobj) Animation = false ->
      drawables.BaseDrawable_add up child h = (Raise NotImplementedError, attached)
      /\ (exists p, attached !! up = Some p /\ child ∈ children p
                    /\ elements p = elements pobj /\ animations p = animations pobj)
      /\ exists c, attached !! child = Some c /\ parent c = Some up).
Proof.
  intros Hp Hc Hne attached.
  assert (attached !! child = Some (with_parent (Some up) cobj)) as Hc'.
  { unfold attached. rewrite list_lookup_insert_ne by done.
    apply list_lookup_insert_eq. by eapply lookup_lt_Some. }
  assert (attached !! up = Some (with_children (children pobj ++ [child]) pobj)) as Hp'.
  { unfold attached. apply list_lookup_insert_eq. rewrite length_insert.
    by eapply lookup_lt_Some. }
  unfold drawables.BaseDrawable_add.
  rewrite (bind_ok _ _ _ _ _ (element_add_lookup _ _ _ _ _ Hp Hc Hne)).
  fold attached.
  rewrite (bind_ok _ _ _ _ _ (isinstance_lookup _ _ _ Drawable Hc')).
  cbn [cls with_parent].
  split; [|split].
  - intros ->. by rewrite (update_lookup _ _ _ _ Hp').
  - intros -> HA. rewrite (bind_ok _ _ _ _ _ (isinstance_lookup _ _ _ Animation Hc')).
    cbn [cls with_parent]. rewrite HA. by rewrite (update_lookup _ _ _ _ Hp').
  - intros -> HA. rewrite (bind_ok _ _ _ _ _ (isinstance_lookup _ _ _ Animation Hc')).
    cbn [cls with_parent]. rewrite HA. split; [done|]. split.
    + eexists. split; [exact Hp'|]. cbn. split; [|done].
      apply elem_of_app. right. by apply list_elem_of_singleton.
    + eexists. split; [exact Hc'|]. done.
Qed.

(** X10.  [Drawable.on_ready] reads [self.parent.children]: on an element
    that has no parent once [Element.on_ready] has run, the [on_ready] of
    [Drawable] and of every class derived from it raises [AttributeError],
    and none of its properties is defined. *)
Theorem drawable_without_parent_cannot_be_readied fuel c self h h1 obj :
  issubclass c Drawable = true ->
  foreign_on_ready env Element self h = (Ok tt, h1) ->
  h1 !! self = Some obj ->
  parent obj = None ->
  drawables.on_ready_of env fuel c self h = (Raise AttributeError, h1).
Proof.
  intros Hc Hhook Hobj Hparent.
  assert (drawables.Drawable_on_ready env self h = (Raise AttributeError, h1)) as HD.
  { unfold drawables.Drawable_on_ready.
    rewrite (bind_ok _ _ _ _ _ Hhook), (bind_ok _ _ _ _ _ (deref_lookup _ _ _ Hobj)).
    by rewrite Hparent. }
  assert (forall {A} (k : unit -> M Heap A),
            bind (drawables.Drawable_on_ready env self) k h = (Raise AttributeError, h1))
    as Hfirst by (intros A k; unfold bind; by rewrite HD).
  destruct c; try discriminate Hc; cbn [drawables.on_ready_of];
    unfold drawables.Rectangle_on_ready, drawables.Circle_on_ready,
      drawables.Arc_on_ready, drawables.Ellipse_on_ready, drawables.Line_on_ready,
      drawables.Image_on_ready, drawables.Text_on_ready;
    rewrite ?Hfirst; try done.
  unfold bind at 1. by rewrite Hfirst.
Qed.

(** X11.  When [Drawable.on_ready] returns, the element has a parent, and
    its property [index] holds the position of the element among the
    children of that parent, the first one if it occurs more than once; the
    property is read-only and constant. *)
Theorem drawable_index_is_its_position self h u h' :
  drawables.Drawable_on_ready env self h = (Ok u, h') ->
  exists h1 obj up pobj i p m,
    foreign_on_ready env Element self h = (Ok tt, h1)
    /\ h1 !! self = Some obj /\ parent obj = Some up /\ h1 !! up = Some pobj
    /\ children pobj !! i = Some self
    /\ (forall j, j < i -> children pobj !! j <> Some self)
    /\ table h' self = Some m /\ m !! "index" = Some p
    /\ value p = drawables.int (Z.of_nat i)
    /\ readonly p = true /\ constant p = true.
Proof.
  unfold drawables.Drawable_on_ready. intros H.
  apply bind_inv in H as ([] & h1 & Hhook & H).
  apply bind_inv in H as (obj & h1' & Hobj & H).
  unfold deref in Hobj. destruct (h1 !! self) as [o|] eqn:Ho; [|done].
  injection Hobj as <- <-.
  destruct (parent o) as [up|] eqn:Hup; [|done].
  apply bind_inv in H as (pobj & h1' & Hpobj & H).
  unfold deref in Hpobj. destruct (h1 !! up) as [po|] eqn:Hpo; [|done].
  injection Hpobj as <- <-.
  destruct (index_of self (children po)) as [i|] eqn:Hi; [|done].
  destruct (index_of_position _ _ _ Hi) as [Hat Hbefore].
  apply bind_inv in H as ([] & h2 & Hindex & H).
  apply bind_inv in H as ([] & h3 & Hx & H).
  apply bind_inv in H as ([] & h4 & Hy & H).
  apply bind_inv in H as ([] & h5 & Hw & H).
  unfold drawables.def_relative in *.
  unfold element.define, bind, deref in Hindex.
  rewrite Ho in Hindex. destruct (properties o !! "index") eqn:Hfresh; [done|].
  unfold update in Hindex. rewrite Ho in Hindex. injection Hindex as <-.
  apply (define_inv env) in Hx as (mx & px & Hmx & _ & _ & _ & Hmx').
  apply (define_inv env) in Hy as (my & py & Hmy & _ & _ & _ & Hmy').
  apply (define_inv env) in Hw as (mw & pw & Hmw & _ & _ & _ & Hmw').
  apply (define_inv env) in H as (mh & ph & Hmh & _ & _ & _ & Hmh').
  unfold table in Hmx. rewrite list_lookup_insert_eq in Hmx by (by eapply lookup_lt_Some).
  cbn in Hmx. injection Hmx as <-.
  rewrite Hmx' in Hmy. injection Hmy as <-.
  rewrite Hmy' in Hmw. injection Hmw as <-.
  rewrite Hmw' in Hmh. injection Hmh as <-.
  eexists h1, o, up, po, i, _, _. do 6 (split; [done|]).
  split; [exact Hmh'|].
  split; [repeat (rewrite lookup_insert_ne by done); apply lookup_insert_eq|].
  done.
Qed.

Lemma keeps_ret {A} self (a : A) : keeps self (ret a).
Proof. by intros keys h b h' [= <- <-]. Qed.

Lemma keeps_bind {A B} self (m : M Heap A) (k : A -> M Heap B) :
  keeps self m -> (forall a, keeps self (k a)) -> keeps self (bind m k).
Proof.
  intros Hm Hk keys h b h' H Hkeys.
  apply bind_inv in H as (a & h1 & H1 & H2). eapply Hk; [exact H2|]. by eapply Hm.
Qed.

Lemma keeps_define self n v ty rel ro c :
  keeps self (element.define env self n v ty rel ro c).
Proof.
  intros keys h u h' H (m & Hm & Hkeys).
  apply (define_inv env) in H as (m0 & p & Hm0 & _ & _ & _ & Hm').
  rewrite Hm in Hm0. injection Hm0 as <-.
  eexists. split; [exact Hm'|]. intros k Hk. apply lookup_insert_is_Some.
  destruct (decide (n = k)); [by left | right]. split; [done|]. by apply Hkeys.
Qed.

Lemma keeps_set fuel self n v : keeps self (element.set env fuel self n v).
Proof.
  intros keys h u h' H (m & Hm & Hkeys).
  apply (set_inv env) in H as (m0 & p & Hm0 & _ & Hm').
  rewrite Hm in Hm0. injection Hm0 as <-.
  eexists. split; [exact Hm'|]. intros k Hk. apply lookup_insert_is_Some.
  destruct (decide (n = k)); [by left | right]. split; [done|]. by apply Hkeys.
Qed.

Lemma keeps_get self n : keeps self (element.get self n).
Proof. intros keys h v h' H Hkeys. by apply get_inv in H as [-> _]. Qed.

Ltac keeps_tac :=
  unfold drawables.define_paint, drawables.def, drawables.def_relative,
    drawables.def_constant, drawables.centered, drawables.corner, drawables.scaled;
  repeat first
    [ apply keeps_ret | apply keeps_get | apply keeps_set | apply keeps_define
    | apply keeps_bind; [|intros ?] ].

(** What follows [super().on_ready()] in the [on_ready] of a class keeps the
    properties its base class has declared. *)
Ltac after_base H base_keys :=
  apply bind_inv in H as ([] & ?h1 & HD & H); apply base_keys in HD;
  revert H HD;
  match goal with
  | |- ?m _ = _ -> _ =>
      let Hk := fresh "Hk" in
      assert (keeps _ m) as Hk by keeps_tac; intros H HD; by eapply Hk
  end.

Lemma Drawable_on_ready_keys self h u h' :
  drawables.Drawable_on_ready env self h = (Ok u, h') ->
  has_keys h' self ["index"; "x"; "y"; "width"; "height"].
Proof.
  unfold drawables.Drawable_on_ready. intros H.
  apply bind_inv in H as ([] & h1 & Hhook & H).
  apply bind_inv in H as (obj & h1' & Hobj & H).
  destruct (parent obj) as [up|]; [|done].
  apply bind_inv in H as (pobj & h1'' & Hpobj & H).
  destruct (index_of self (children pobj)) as [i|]; [|done].
  apply bind_inv in H as ([] & h2 & Hindex & H).
  apply bind_inv in H as ([] & h3 & Hx & H).
  apply bind_inv in H as ([] & h4 & Hy & H).
  apply bind_inv in H as ([] & h5 & Hw & H).
  unfold drawables.def_relative in *.
  apply (define_inv env) in Hindex as (mi & pi & Hmi & _ & _ & _ & Hmi').
  apply (define_inv env) in Hx as (mx & px & Hmx & _ & _ & _ & Hmx').
  apply (define_inv env) in Hy as (my & py & Hmy & _ & _ & _ & Hmy').
  apply (define_inv env) in Hw as (mw & pw & Hmw & _ & _ & _ & Hmw').
  apply (define_inv env) in H as (mh & ph & Hmh & _ & _ & _ & Hmh').
  rewrite Hmi' in Hmx. injection Hmx as <-.
  rewrite Hmx' in Hmy. injection Hmy as <-.
  rewrite Hmy' in Hmw. injection Hmw as <-.
  rewrite Hmw' in Hmh. injection Hmh as <-.
  eexists. split; [exact Hmh'|]. intros k Hk.
  repeat (apply elem_of_cons in Hk as [-> | Hk];
          [repeat (rewrite lookup_insert_ne by done); rewrite lookup_insert_eq; by eexists|]).
  by apply elem_of_nil in Hk.
Qed.

Lemma Ellipse_on_ready_keys fuel self h u h' :
  drawables.Ellipse_on_ready env fuel self h = (Ok u, h') ->
  has_keys h' self ["index"; "x"; "y"; "width"; "height"].
Proof.
  unfold drawables.Ellipse_on_ready. intros H. after_base H Drawable_on_ready_keys.
Qed.

(** X12.  Whenever the [on_ready] of [Drawable] or of a class derived from
    it returns, the element has the five properties [index], [x], [y],
    [width] and [height]: [Drawable.on_ready] defines them, and nothing the
    derived classes do afterwards removes one. *)
Theorem every_drawable_declares_its_geometry fuel c self h u h' :
  issubclass c Drawable = true ->
  drawables.on_ready_of env fuel c self h = (Ok u, h') ->
  has_keys h' self ["index"; "x"; "y"; "width"; "height"].
Proof.
  intros Hc H.
  destruct c; try discriminate Hc; cbn [drawables.on_ready_of] in H.
  - by eapply Drawable_on_ready_keys.
  - unfold drawables.Rectangle_on_ready in H. after_base H Drawable_on_ready_keys.
  - unfold drawables.Circle_on_ready in H. after_base H Drawable_on_ready_keys.
  - by eapply Ellipse_on_ready_keys.
  - unfold drawables.Arc_on_ready in H. after_base H (Ellipse_on_ready_keys fuel).
  - unfold drawables.Line_on_ready in H. after_base H Drawable_on_ready_keys.
  - unfold drawables.Image_on_ready in H. after_base H Drawable_on_ready_keys.
  - unfold drawables.Text_on_ready in H. after_base H Drawable_on_ready_keys.
Qed.

End Drawables.

Lemma BaseDrawable_add_files_by_kind_witness :
  (drawables.BaseDrawable_add 1 2 (heap demo.image_state)).1 = Ok tt
  /\ (drawables.BaseDrawable_add 1 0 (heap demo.image_state)).1
     = Raise NotImplementedError.
Proof.
  pose (scene := default (fresh Element) (heap demo.image_state !! 0)).
  pose (rectangle := default (fresh Element) (heap demo.image_state !! 1)).
  pose (image := default (fresh Element) (heap demo.image_state !! 2)).
  assert (heap demo.image_state !! 0 = Some scene) as H0 by (vm_compute; reflexivity).
  assert (heap demo.image_state !! 1 = Some rectangle) as H1 by (vm_compute; reflexivity).
  assert (heap demo.image_state !! 2 = Some image) as H2 by (vm_compute; reflexivity).
  assert (1 <> 2) as H12 by lia.
  assert (1 <> 0) as H10 by lia.
  split.
  - destruct (BaseDrawable_add_files_by_kind (heap demo.image_state) 1 2 rectangle image
                H1 H2 H12) as [Hd _].
    rewrite Hd; [reflexivity | vm_compute; reflexivity].
  - destruct (BaseDrawable_add_files_by_kind (heap demo.image_state) 1 0 rectangle scene
                H1 H0 H10) as (_ & _ & Hr).
    destruct Hr as [Hr _]; [vm_compute; reflexivity..|]. by rewrite Hr.
Defined.

Lemma drawable_without_parent_cannot_be_readied_witness :
  drawables.on_ready_of demo.env 5 Circle 0 [fresh Circle]
  = (Raise AttributeError, [fresh Circle]).
Proof.
  exact (drawable_without_parent_cannot_be_readied demo.env 5 Circle 0
           [fresh Circle] [fresh Circle] (fresh Circle) eq_refl eq_refl eq_refl eq_refl).
Defined.

Lemma drawable_index_is_its_position_witness :
  exists h1 obj up pobj i p m,
    foreign_on_ready demo.env Element 2 (heap demo.rectangle_attached) = (Ok tt, h1)
    /\ h1 !! 2 = Some obj /\ parent obj = Some up /\ h1 !! up = Some pobj
    /\ children pobj !! i = Some 2
    /\ (forall j, j < i -> children pobj !! j <> Some 2)
    /\ table (drawables.Drawable_on_ready demo.env 2 (heap demo.rectangle_attached)).2 2
       = Some m
    /\ m !! "index" = Some p
    /\ value p = drawables.int (Z.of_nat i)
    /\ readonly p = true /\ constant p = true.
Proof.
  assert (drawables.Drawable_on_ready demo.env 2 (heap demo.rectangle_attached)
          = (Ok tt, (drawables.Drawable_on_ready demo.env 2
                       (heap demo.rectangle_attached)).2)) as H
    by (vm_compute; reflexivity).
  exact (drawable_index_is_its_position demo.env 2 (heap demo.rectangle_attached) tt _ H).
Defined.

Lemma every_drawable_declares_its_geometry_witness :
  has_keys (drawables.on_ready_of demo.env 10 Circle 1 demo.circle_attached).2 1
    ["index"; "x"; "y"; "width"; "height"].
Proof.
  assert (drawables.on_ready_of demo.env 10 Circle 1 demo.circle_attached
          = (Ok tt, (drawables.on_ready_of demo.env 10 Circle 1 demo.circle_attached).2)) as H
    by (vm_compute; reflexivity).
  exact (every_drawable_declares_its_geometry demo.env 10 Circle 1 demo.circle_attached
           tt _ eq_refl H).
Defined.

(** ** The stacks and the registry across a build *)

Lemma grows_refl s : grows s s.
Proof. by repeat split. Qed.

Lemma grows_trans s1 s2 s3 : grows s1 s2 -> grows s2 s3 -> grows s1 s3.
Proof. intros (?&?&?) (?&?&?). repeat split; by etrans. Qed.

Lemma extends_refl s : extends s s.
Proof. by repeat split. Qed.

Lemma extends_trans s1 s2 s3 : extends s1 s2 -> extends s2 s3 -> extends s1 s3.
Proof. intros (?&?&?&?) (?&?&?&?). repeat split; by etrans. Qed.

Lemma stacks_extends s s' : stacks s' = stacks s -> extends s s'.
Proof. unfold stacks. intros [= He Ht Hi Hp]. unfold extends. by rewrite He, Ht, Hi, Hp. Qed.

Lemma tidy_pure {A} (m : M State A) : pure m -> tidy m.
Proof.
  intros Hm s. unfold wp. rewrite (Hm s).
  split; [apply grows_refl|]. split; [apply extends_refl | done].
Qed.

Lemma tidy_bind {A B} (m : M State A) (k : A -> M State B) :
  tidy m -> (forall a, tidy (k a)) -> tidy (bind m k).
Proof.
  intros Hm Hk s. apply wp_bind. eapply wp_mono; [|apply Hm].
  intros [a|e|f] s1 (Hg & He & Hs); [|done..].
  eapply wp_mono; [|apply Hk]. intros r s2 (Hg' & He' & Hs').
  split; [by eapply grows_trans|]. split; [by eapply extends_trans|].
  intros Hr. by rewrite (Hs' Hr), (Hs eq_refl).
Qed.

Lemma tidy_try_except {A} (m : M State A) handler : tidy m -> tidy (try_except m handler).
Proof.
  intros Hm s. specialize (Hm s). unfold wp, try_except in *.
  destruct (m s) as [[a|e|f] s1]; [done| |done].
  destruct (handler e); cbn in *; by destruct Hm as (? & ? & ?).
Qed.

Lemma tidy_on_heap {A} (m : M Heap A) : tidy (on_heap m).
Proof.
  intros s. unfold wp, on_heap. destruct (m (heap s)) as [r h]. cbn.
  split; [by repeat split|]. split; [by repeat split | done].
Qed.

Lemma tidy_for_each {A} (body : A -> M State unit) xs :
  (forall x, tidy (body x)) -> tidy (for_each body xs).
Proof.
  intros Hb. induction xs as [|x xs IH]; cbn [for_each]; [by apply tidy_pure|].
  apply tidy_bind; [apply Hb | by intros _].
Qed.

Lemma tidy_map_m {A B} (f : A -> M State B) xs :
  (forall x, tidy (f x)) -> tidy (map_m f xs).
Proof.
  intros Hf. induction xs as [|x xs IH]; cbn [map_m]; [by apply tidy_pure|].
  apply tidy_bind; [apply Hf|]. intros y. apply tidy_bind; [apply IH|].
  intros ys. by apply tidy_pure.
Qed.

Lemma tidy_push_element {A} element (body : M State A) :
  tidy body -> tidy (_push_element element body).
Proof.
  intros Hb s. unfold _push_element. apply wp_bind. unfold wp at 1; cbn.
  apply wp_bind. eapply wp_mono; [|apply Hb].
  assert (forall s1,
            extends (set_elements (fun l => l ++ [element]) s) s1 -> extends s s1) as Hup.
  { intros s1 (He & Ht & Hi & Hp). cbn in *. repeat split; try done.
    by eapply prefix_app_l. }
  intros [a|e|f] s1 (Hg & He & Hs); cbn in *;
    [|split; [exact Hg | split; [by apply Hup | done]]..].
  specialize (Hs eq_refl). unfold stacks in Hs. cbn in Hs.
  injection Hs as Hel Ht Hi Hp.
  unfold wp, bind, _element, bind, get_state, modify. rewrite Hel, last_snoc. cbn.
  rewrite Nat.eqb_refl. cbn.
  assert (stacks (set_elements (fun l => removelast l) s1) = stacks s) as Hstacks.
  { unfold stacks. cbn. by rewrite Hel, removelast_last, Ht, Hi, Hp. }
  split; [|split; [by apply stacks_extends | done]].
  destruct Hg as (?&?&?). by repeat split.
Qed.

Lemma tidy_push_type {A} type (body : M State A) :
  tidy body -> tidy (_push_type type body).
Proof.
  intros Hb s. unfold _push_type. apply wp_bind. unfold wp at 1; cbn.
  apply wp_bind. eapply wp_mono; [|apply Hb].
  assert (forall s1,
            extends (set_types (fun l => l ++ [type]) s) s1 -> extends s s1) as Hup.
  { intros s1 (He & Ht & Hi & Hp). cbn in *. repeat split; try done.
    by eapply prefix_app_l. }
  intros [a|e|f] s1 (Hg & He & Hs); cbn in *;
    [|split; [exact Hg | split; [by apply Hup | done]]..].
  specialize (Hs eq_refl). unfold stacks in Hs. cbn in Hs.
  injection Hs as Hel Ht Hi Hp.
  unfold wp, bind, _type, bind, get_state, modify. rewrite Ht, last_snoc. cbn.
  rewrite bool_decide_eq_true_2 by done. cbn.
  assert (stacks (set_types (fun l => removelast l) s1) = stacks s) as Hstacks.
  { unfold stacks. cbn. by rewrite Ht, removelast_last, Hel, Hi, Hp. }
  split; [|split; [by apply stacks_extends | done]].
  destruct Hg as (?&?&?). by repeat split.
Qed.

Lemma pop_search_path_snoc s l y :
  search_paths s = l ++ [y] ->
  pop_search_path s = (Ok tt, set_search_paths (fun l => removelast l) s).
Proof.
  intros H. unfold pop_search_path, bind, get_state. rewrite H.
  by destruct l.
Qed.

Section Tidy.
Context (env : Env).

Lemma entered_extends filename s s1 :
  extends (entered env filename s) s1 -> extends s s1.
Proof.
  intros (He & Ht & Hi & Hp). cbn in *. repeat split; try done; by eapply prefix_app_l.
Qed.

Lemma entered_grows filename s : grows s (entered env filename s).
Proof. repeat split; cbn; try done. by apply prefix_app_r. Qed.

(** How a first include ends: it fails where reading, parsing or building
    the file fails, in the state that step has reached, and otherwise
    returns with the file recorded and the stacks popped. *)
Lemma _include_outcome (build : parser.Node -> M State Built) filename s r s' :
  (forall node, tidy (build node)) ->
  abspath env filename ∉ _including s ->
  abspath env filename ∉ _included s ->
  _include env build filename s = (r, s') ->
  (is_ok r = false /\ grows s s' /\ extends (entered env filename s) s')
  \/ (r = Ok tt /\ grows s s' /\ stacks s' = stacks s
      /\ abspath env filename ∈ _included s').
Proof.
  intros Hb H1 H2 E. unfold _include, bind at 1, get_state in E.
  rewrite (bool_decide_eq_false_2 _ H1), (bool_decide_eq_false_2 _ H2) in E.
  unfold bind at 1 2 3, modify, read_file, bind at 1, modify in E. cbn [fst snd] in E.
  fold (entered env filename s) in E.
  destruct (read env (abspath env filename)) as [text|]; cbn in E.
  2:{ injection E as <- <-. left. split; [done|].
      split; [apply entered_grows | apply extends_refl]. }
  unfold bind at 1, lift_res in E.
  destruct (parse env text) as [node|e|ft]; cbn in E;
    [|injection E as <- <-; left; split; [done|];
      split; [apply entered_grows | apply extends_refl]..].
  pose proof (Hb node (entered env filename s)) as Hnode. unfold wp in Hnode.
  unfold bind at 1 in E.
  destruct (build node (entered env filename s)) as [[b|e|ft] s1]; cbn in Hnode;
    destruct Hnode as (Hg & He & Hs);
    [|injection E as <- <-; left; split; [done|]; split;
      [by eapply grows_trans; [apply entered_grows|] | done]..].
  specialize (Hs eq_refl). unfold stacks in Hs. cbn in Hs.
  injection Hs as Hel Ht Hi Hp.
  unfold bind at 1 in E. rewrite (pop_including_snoc _ _ _ Hi) in E.
  cbv beta iota in E.
  erewrite pop_search_path_snoc in E by (cbn; exact Hp). injection E as <- <-.
  right. split; [done|]. split; [|split].
  - destruct Hg as (G1 & G2 & G3). cbn in *. repeat split; cbn; try done.
    + etrans; [exact G2|]. set_solver.
    + etrans; [|exact G3]. by apply prefix_app_r.
  - unfold stacks. cbn. by rewrite Hel, Ht, Hi, Hp, !removelast_last.
  - cbn. set_solver.
Qed.

Lemma tidy_include (build : parser.Node -> M State Built) filename :
  (forall node, tidy (build node)) -> tidy (_include env build filename).
Proof.
  intros Hb s. unfold wp.
  destruct (decide (abspath env filename ∈ _including s
                    \/ abspath env filename ∈ _included s)) as [Hseen | Hnew].
  { rewrite (include_seen env build filename s Hseen). cbn.
    split; [apply grows_refl|]. split; [apply extends_refl | done]. }
  destruct (_include env build filename s) as [r s'] eqn:E.
  destruct (_include_outcome build filename s r s' Hb) as [(Hr & Hg & He) | (Hr & Hg & Hs & _)];
    [tauto | tauto | done | |]; cbn.
  - split; [done|]. split; [by eapply entered_extends|]. by rewrite Hr.
  - split; [done|]. split; [by apply stacks_extends | done].
Qed.

Ltac tidy_step :=
  match goal with
  | |- tidy (bind _ _) => apply tidy_bind; [|intros ?]
  | |- tidy (ret _) => apply tidy_pure, pure_ret
  | |- tidy (raise _) => apply tidy_pure, pure_raise
  | |- tidy (fault _) => apply tidy_pure, pure_fault
  | |- tidy get_state => apply tidy_pure, pure_get_state
  | |- tidy (lift_res _) => apply tidy_pure, pure_lift_res
  | |- tidy (_fail _ _ _) => apply tidy_pure, pure_raise
  | |- tidy _element => apply tidy_pure, pure__element
  | |- tidy (_get_property _ _ _) => apply tidy_pure, pure__get_property
  | |- tidy (_get_element_type _ _ _) =>
      apply tidy_pure; intros ?; apply _get_element_type_pure
  | |- tidy (try_except _ _) => apply tidy_try_except
  | |- tidy (on_heap _) => apply tidy_on_heap
  | |- tidy (for_each _ _) => apply tidy_for_each; intros ?
  | |- tidy (map_m _ _) => apply tidy_map_m; intros ?
  | |- tidy (_push_element _ _) => apply tidy_push_element
  | |- tidy (_push_type _ _) => apply tidy_push_type
  | |- tidy (_include _ _ _) => apply tidy_include; intros ?
  | |- tidy (match ?x with _ => _ end) => destruct x
  end.

Lemma tidy_Template t : tidy (_build_Template t).
Proof.
  intros s. unfold wp, _build_Template, bind, get_state.
  destruct (templates s !! parser.t_name t) eqn:E; cbn;
    [split; [apply grows_refl|]; split; [apply extends_refl | done]|].
  split; [|split; [by repeat split | done]].
  repeat split; cbn; try done. by apply insert_subseteq.
Qed.

Lemma build_tidy fuel :
  (forall node, tidy (_build env fuel node))
  /\ (forall element template token, tidy (_apply_template env fuel element template token)).
Proof.
  induction fuel as [|fuel [IHb IHa]].
  { split; intros; by apply tidy_pure. }
  assert (forall children, tidy (_build_children (_build env fuel) children)) as Hchildren.
  { intros children. unfold _build_children. repeat tidy_step. apply IHb. }
  assert (forall element name children token,
            tidy (_build_Create env fuel (_build env fuel) (_apply_template env fuel)
                    element name children token)) as HCreate.
  { intros element name children token. unfold _build_Create.
    repeat first [apply IHa | apply Hchildren | tidy_step]. }
  assert (forall n, tidy (operand (_build env fuel) n)) as Hoperand.
  { intros n. unfold operand. repeat first [apply IHb | tidy_step]. }
  split.
  - intros node. intros s. rewrite _build_unfold. revert s. fold (tidy (A:=Built)).
    change (tidy (_build_body env fuel (_build env fuel) (_apply_template env fuel) node)).
    destruct node as [ path token | name inherit children token
                     | element name children token | element name children token
                     | name value token | name value token | value member token
                     | op x token | op l r token | q unit token | text token
                     | fn args token | nm token ]; cbn [_build_body].
    + unfold _build_Include. repeat first [apply IHb | tidy_step].
    + apply tidy_Template.
    + apply HCreate.
    + unfold _build_Scene. apply tidy_bind; [tidy_step|]. intros s0.
      destruct (negb (_is_including s0)); [apply HCreate|].
      apply tidy_bind; [|intros; tidy_step].
      apply tidy_for_each. intros child.
      destruct (parser.is_Include_or_Template child); [|tidy_step].
      repeat first [apply IHb | tidy_step].
    + unfold _build_Define, name_of, value_of. repeat first [apply IHb | tidy_step].
    + unfold _build_Assign, name_of, value_of, declared_type.
      repeat first [apply IHb | tidy_step].
    + unfold _build_MemberAccess, name_of. repeat first [apply IHb | tidy_step].
    + unfold _build_UnaryOp. repeat first [apply Hoperand | tidy_step].
    + unfold _build_BinOp. repeat first [apply Hoperand | tidy_step].
    + unfold _build_Number. repeat tidy_step.
    + unfold _build_String. tidy_step.
    + unfold _build_Call. repeat first [apply Hoperand | tidy_step].
    + unfold _build_Name. apply tidy_bind; [tidy_step|]. intros s0.
      destruct (enum_member s0 nm); repeat tidy_step.
  - intros element template token s. rewrite _apply_template_unfold. revert s.
    change (tidy (_apply_template_body env fuel (_build env fuel) (_apply_template env fuel)
                    element template token)).
    unfold _apply_template_body. apply tidy_bind; [tidy_step|]. intros s0.
    destruct (templates s0 !! template) as [[c|t]|]; repeat first [apply IHa | apply Hchildren | tidy_step].
Qed.

Lemma _build_restores_stacks fuel node st b st' :
  _build env fuel node st = (Ok b, st') -> stacks st' = stacks st.
Proof.
  intros H. pose proof (proj1 (build_tidy fuel) node st) as Ht.
  unfold wp in Ht. rewrite H in Ht. destruct Ht as (_ & _ & Hs). by apply Hs.
Qed.

Lemma _include_new fuel filename s r s' :
  ~ (abspath env filename ∈ _including s \/ abspath env filename ∈ _included s) ->
  _include env (_build env fuel) filename s = (r, s') ->
  (is_ok r = false /\ grows s s' /\ extends (entered env filename s) s')
  \/ (r = Ok tt /\ grows s s' /\ stacks s' = stacks s
      /\ abspath env filename ∈ _included s').
Proof.
  intros Hnew. apply _include_outcome; [apply (build_tidy fuel) | tauto | tauto].
Qed.

End Tidy.
Section Stacks.
Context (env : Env).

(** X13.  [_find_scene_file] returns only names of files that exist, each
    the module path joined under one of the search directories with the
    extension [.anim]; it finds a file whenever one of the candidates
    exists, and raises [FileNotFoundError] exactly when none does.  An empty
    module path makes [join] raise [TypeError], which [_build_Include] does
    not translate: it reaches the caller as it is, with the state
    unchanged. *)
Theorem found_file_exists_under_a_search_directory dirs a p :
  let file := ospath.join a p +:+ _ext in
  (forall filename,
     _find_scene_file env dirs (a :: p) = Ok filename ->
     isfile env filename = true
     /\ exists dirpath, dirpath ∈ dirs /\ filename = ospath.join dirpath [file])
  /\ ((exists dirpath, dirpath ∈ dirs /\ isfile env (ospath.join dirpath [file]) = true) ->
      exists filename, _find_scene_file env dirs (a :: p) = Ok filename)
  /\ ((forall dirpath, dirpath ∈ dirs -> isfile env (ospath.join dirpath [file]) = false) ->
      exists text, _find_scene_file env dirs (a :: p) = Raise (FileNotFoundError text))
  /\ forall fuel token st,
       exists text,
         _build env (S fuel) (parser.Include [] token) st = (Raise (TypeError text), st).
Proof.
  intros file. rewrite _find_scene_file_searched. unfold searched. fold file.
  split; [|split; [|split]].
  - intros filename H. destruct (List.find _ _) as [f|] eqn:Hf; [|done].
    injection H as <-. apply find_some in Hf as [Hin Hfile]. split; [done|].
    apply in_map_iff in Hin as (d & <- & Hd). exists d. split; [|done].
    apply list_elem_of_In. by apply in_rev.
  - intros (d & Hd & Hfile). destruct (List.find _ _) as [f|] eqn:Hf; [by eexists|].
    exfalso. pose proof (find_none _ _ Hf (ospath.join d [file])) as Hnone.
    rewrite Hnone in Hfile; [done|].
    apply (in_map (fun dirpath => ospath.join dirpath [file])).
    apply in_rev. rewrite rev_involutive. by apply list_elem_of_In.
  - intros Hnone. destruct (List.find _ _) as [f|] eqn:Hf; [|by eexists].
    apply find_some in Hf as [Hin Hfile].
    apply in_map_iff in Hin as (d & <- & Hd). rewrite Hnone in Hfile; [done|].
    apply list_elem_of_In. by apply in_rev.
  - intros fuel token st. eexists. rewrite _build_unfold. cbn [_build_body].
    unfold _build_Include, bind, get_state, try_except, lift_res. cbn. reflexivity.
Qed.

(** X14.  A build that returns leaves the four stacks of the builder (the
    active elements, the types being assigned, the files being included and
    the search directories) exactly as it found them, whatever the node and
    however deep the includes and templates it went through. *)
Theorem successful_build_restores_the_stacks fuel node st b st' :
  _build env fuel node st = (Ok b, st') ->
  _elements st' = _elements st /\ _types st' = _types st
  /\ _including st' = _including st /\ search_paths st' = search_paths st.
Proof.
  intros H. apply _build_restores_stacks in H. unfold stacks in H. by injection H.
Qed.

(** X15.  Whether it returns or fails, a build never removes or replaces an
    entry of the template registry, never forgets a completed include, and
    only appends to the files it has opened. *)
Theorem build_keeps_what_is_registered fuel node st :
  let st' := (_build env fuel node st).2 in
  (forall name entry, templates st !! name = Some entry -> templates st' !! name = Some entry)
  /\ (forall filename, filename ∈ _included st -> filename ∈ _included st')
  /\ exists files, opened st' = opened st ++ files.
Proof.
  intros st'. destruct (proj1 (build_tidy env fuel) node st) as [(Ht & Hi & Ho) _].
  fold st' in Ht, Hi, Ho. split; [|split].
  - intros name entry Hn. by eapply lookup_weaken.
  - intros filename Hf. by apply Hi.
  - exact Ho.
Qed.

(** X16.  An include that has returned makes itself a no-op: the file is
    recorded as included and the search directories are as before, so
    building the same [include] again in the state it left resolves to the
    same file and returns at once, with nothing read and nothing changed. *)
Theorem include_is_idempotent fuel fuel' path token st b st' :
  _build env (S fuel) (parser.Include path token) st = (Ok b, st') ->
  b = BNone
  /\ _build env (S fuel') (parser.Include path token) st' = (Ok BNone, st').
Proof.
  intros H.
  pose proof (_build_restores_stacks env (S fuel) _ _ _ _ H) as Hstacks.
  unfold stacks in Hstacks. injection Hstacks as _ _ _ Hpaths.
  rewrite _build_unfold in H. cbn [_build_body] in H. unfold _build_Include in H.
  apply bind_inv in H as (s0 & s0' & [= <- <-] & H).
  apply bind_inv in H as (filename & s1 & Hfind & H).
  unfold try_except, lift_res in Hfind.
  destruct (_find_scene_file env (search_paths st) path) as [f|e|ft] eqn:Ef;
    [| |done].
  2:{ destruct e; try done. by destruct (pystr.partition _ _). }
  injection Hfind as <- <-.
  apply bind_inv in H as ([] & s2 & Hinc & [= <- <-]).
  split; [done|].
  assert (abspath env f ∈ _including s2 \/ abspath env f ∈ _included s2) as Hseen.
  { destruct (decide (abspath env f ∈ _including st
                      \/ abspath env f ∈ _included st)) as [Hs | Hnew].
    { by rewrite (include_seen env _ f st Hs) in Hinc; injection Hinc as <-. }
    right.
    by destruct (_include_new env fuel f st _ _ Hnew Hinc)
         as [(Hr & _) | (_ & _ & _ & Hin)]. }
  rewrite _build_unfold. cbn [_build_body].
  unfold _build_Include, bind, get_state, try_except, lift_res.
  rewrite Hpaths, Ef. by rewrite (include_seen _ _ _ _ Hseen).
Qed.

Lemma build_while_including fuel name children token st :
  _including st <> [] ->
  is_ok (build env fuel (parser.Scene "Scene" name children token) st).1 = false.
Proof.
  intros Hinc. unfold build. cbn [negb String.eqb Ascii.eqb Bool.eqb andb].
  change (String.eqb "Scene" "Scene") with true. cbn [negb].
  erewrite bind_ok; [|reflexivity]. erewrite bind_ok; [|reflexivity].
  erewrite bind_ok; [|reflexivity].
  set (s0 := set_types _ _).
  assert (_is_including s0 = true) as Hs0.
  { unfold _is_including. cbn. by destruct (_including st). }
  unfold bind at 1. destruct fuel as [|fuel]; [done|].
  rewrite _build_unfold. cbn [_build_body]. unfold _build_Scene, bind at 1, get_state.
  rewrite Hs0. cbn [negb]. unfold bind at 1.
  destruct (for_each _ _ _) as [[[]|e|ft] s1]; done.
Qed.

(** X17.  [_include] has no [finally]: when an include of a file that was
    found fails, whether the file cannot be read or parsed or an error is
    raised while its tree is built, the file stays on the stack of includes
    in progress and its directory stays on the search path.  The builder
    then believes it is inside an include, and every later [build] of the
    tree of a file on it fails: [_build_Scene] creates no scene, and [build]
    asserts that it got one. *)
Theorem failed_include_leaves_the_builder_including fuel path token filename st e st' :
  _find_scene_file env (search_paths st) path = Ok filename ->
  _build env (S fuel) (parser.Include path token) st = (Raise e, st') ->
  _including st ++ [abspath env filename] `prefix_of` _including st'
  /\ search_paths st ++ [dirname env (abspath env filename)] `prefix_of` search_paths st'
  /\ forall fuel' name children token',
       is_ok (build env fuel' (parser.Scene "Scene" name children token') st').1 = false.
Proof.
  intros Hfind H.
  rewrite _build_unfold in H. cbn [_build_body] in H. unfold _build_Include in H.
  erewrite bind_ok in H; [|reflexivity].
  erewrite bind_ok in H; [|by apply try_except_ok; unfold lift_res; rewrite Hfind].
  unfold bind in H.
  destruct (_include env (_build env fuel) filename st) as [r s1] eqn:Hinc.
  assert (r = Raise e /\ s1 = st') as [-> ->].
  { destruct r; [done | by injection H as <- <- | done]. }
  destruct (decide (abspath env filename ∈ _including st
                    \/ abspath env filename ∈ _included st)) as [Hs | Hnew].
  { by rewrite (include_seen env _ filename st Hs) in Hinc. }
  destruct (_include_new env fuel filename st _ _ Hnew Hinc)
    as [(_ & _ & Hext) | (Hr & _)]; [|done].
  destruct Hext as (_ & _ & Hi & Hp). cbn in Hi, Hp.
  split; [done|]. split; [done|].
  intros fuel' name children token'. apply build_while_including.
  destruct Hi as [k ->]. by destruct (_including st).
Qed.

(** X18.  [build] seeds a new registry on every call but keeps the record of
    completed includes the builder has made.  On a builder that has already
    included a file, a scene that includes the same file and then creates
    an element of a template only that file declares fails with [Creating
    undefined 'name' template]: the include is skipped as already done, and
    the registry no longer holds what it declared. *)
Theorem rebuild_loses_included_templates fuel path name kids tk0 tk1 tk2 st
    filename c h1 h2 :
  _including st = [] ->
  _find_scene_file env (search_paths st) path = Ok filename ->
  abspath env filename ∈ _included st ->
  seeded env !! "Scene" = Some (ElementType c) ->
  seeded env !! name = None ->
  on_init env (length (heap st)) (heap st ++ [fresh c]) = (Ok tt, h1) ->
  drawables.on_ready env (S fuel) (length (heap st)) h1 = (Ok tt, h2) ->
  (build env (S (S (S fuel)))
     (parser.Scene "Scene" None
        [parser.Include path tk1; parser.Create name None kids tk2] tk0) st).1
  = Raise (_create_error ("Creating undefined " +:+ pystr.repr name +:+ " template")
             None tk2).
Proof.
  intros Hinc Hfind Hseen HScene Hname Hinit Hready.
  unfold build. cbn [negb String.eqb Ascii.eqb Bool.eqb andb].
  change (String.eqb "Scene" "Scene") with true. cbn [negb].
  erewrite bind_ok; [|reflexivity]. erewrite bind_ok; [|reflexivity].
  erewrite bind_ok; [|reflexivity].
  fold (seeded env).
  set (s0 := set_types _ _).
  assert (templates s0 = seeded env) as Ht by done.
  assert (heap s0 = heap st) as Hh by done.
  unfold bind at 1. rewrite _build_unfold. cbn [_build_body].
  unfold _build_Scene. erewrite bind_ok; [|reflexivity].
  assert (_is_including s0 = false) as -> by (unfold _is_including; cbn; by rewrite Hinc).
  cbn [negb]. unfold _build_Create at 1. cbn [pystr.truthy].
  erewrite bind_ok; [|by rewrite _get_element_type_unfold, Ht, HScene].
  erewrite bind_ok; [|by unfold on_heap, new; rewrite Hh].
  erewrite bind_ok; [|by unfold on_heap; cbn [heap set_heap]; rewrite Hinit].
  erewrite bind_ok; [|reflexivity].
  cbn [_elements set_heap s0 set_types set_elements last].
  change (last []) with (@None nat).
  erewrite bind_ok; [|reflexivity].
  erewrite bind_ok.
  2:{ rewrite _apply_template_unfold. unfold _apply_template_body.
      erewrite bind_ok; [|reflexivity]. cbn [templates set_heap]. rewrite Ht, HScene.
      unfold on_heap. cbn [heap set_heap]. by rewrite Hready. }
  unfold bind at 1, _push_element. erewrite bind_ok; [|reflexivity].
  unfold bind at 1, _build_children. cbn [for_each].
  unfold bind at 1, bind at 1.
  rewrite _build_unfold. cbn [_build_body].
  unfold _build_Include at 1. erewrite bind_ok; [|reflexivity].
  erewrite bind_ok; [|by apply try_except_ok; unfold lift_res; cbn; rewrite Hfind].
  erewrite bind_ok; [|apply include_seen; right; exact Hseen].
  cbn [ret]. unfold bind at 1, bind at 1.
  rewrite _build_unfold. cbn [_build_body]. unfold _build_Create. cbn [pystr.truthy].
  unfold bind at 1. rewrite _get_element_type_unfold. cbn [templates set_heap set_elements].
  by rewrite Ht, Hname.
Qed.

End Stacks.
Lemma successful_build_restores_the_stacks_witness :
  _elements demo.lib_state = [] /\ _types demo.lib_state = []
  /\ _including demo.lib_state = [] /\ search_paths demo.lib_state = ["/scenes"].
Proof.
  assert (_build demo.env 30 (parser.Include ["lib"] None) (init demo.env)
          = (Ok BNone, demo.lib_state)) as H by (vm_compute; reflexivity).
  exact (successful_build_restores_the_stacks demo.env 30 _ _ _ _ H).
Defined.

Lemma include_is_idempotent_witness :
  _build demo.env 1 (parser.Include ["lib"] None) demo.lib_state
  = (Ok BNone, demo.lib_state).
Proof.
  assert (_build demo.env 30 (parser.Include ["lib"] None) (init demo.env)
          = (Ok BNone, demo.lib_state)) as H by (vm_compute; reflexivity).
  exact (proj2 (include_is_idempotent demo.env 29 0 _ _ _ _ _ H)).
Defined.

Lemma failed_include_leaves_the_builder_including_witness :
  is_ok (build demo.env 30 demo.twin_scene
           (_build demo.env 5 (parser.Include ["lib"] None) demo.template_state).2).1
  = false.
Proof.
  assert (_find_scene_file demo.env (search_paths demo.template_state) ["lib"]
          = Ok "/scenes/lib.anim") as Hfind by (vm_compute; reflexivity).
  assert (_build demo.env 5 (parser.Include ["lib"] None) demo.template_state
          = (Raise (SceneBuilderError "Redeclaration of 'Box'"),
             (_build demo.env 5 (parser.Include ["lib"] None) demo.template_state).2))
    as H by (vm_compute; reflexivity).
  exact (proj2 (proj2 (failed_include_leaves_the_builder_including demo.env 4 ["lib"]
                         None "/scenes/lib.anim" demo.template_state _ _ Hfind H))
           30 None _ None).
Defined.

Lemma rebuild_loses_included_templates_witness :
  (build demo.env 30 demo.boxed_scene (init demo.env)).1 = Ok 0
  /\ (build demo.env 30 demo.boxed_scene demo.boxed_state).1
     = Raise (SceneBuilderError "Creating undefined 'Box' template at 2:0 to 2:13").
Proof.
  split; [vm_compute; reflexivity|].
  pose (h1 := heap demo.boxed_state ++ [fresh Scene]).
  pose (h2 := (drawables.on_ready demo.env 28 (length (heap demo.boxed_state)) h1).2).
  assert (_including demo.boxed_state = []) as Hinc by (vm_compute; reflexivity).
  assert (_find_scene_file demo.env (search_paths demo.boxed_state) ["lib"]
          = Ok "/scenes/lib.anim") as Hfind by (vm_compute; reflexivity).
  assert (abspath demo.env "/scenes/lib.anim" ∈ _included demo.boxed_state) as Hseen
    by (apply (bool_decide_unpack _); vm_compute; exact I).
  assert (seeded demo.env !! "Scene" = Some (ElementType Scene)) as HScene
    by (vm_compute; reflexivity).
  assert (seeded demo.env !! "Box" = None) as HBox by (vm_compute; reflexivity).
  assert (on_init demo.env (length (heap demo.boxed_state))
            (heap demo.boxed_state ++ [fresh Scene]) = (Ok tt, h1)) as Hinit
    by reflexivity.
  assert (drawables.on_ready demo.env 28 (length (heap demo.boxed_state)) h1
          = (Ok tt, h2)) as Hready by (vm_compute; reflexivity).
  exact (rebuild_loses_included_templates demo.env 27 ["lib"] "Box" []
           (demo.at_ 0 0 3 1) (demo.at_ 1 0 1 11) (demo.at_ 2 0 2 13)
           demo.boxed_state "/scenes/lib.anim" Scene h1 h2
           Hinc Hfind Hseen HScene HBox Hinit Hready).
Defined.

(** ** What a node builds to *)

Lemma returns_bind {S A B} (P : B -> Prop) (m : M S A) (k : A -> M S B) :
  (forall a, returns P (k a)) -> returns P (bind m k).
Proof.
  intros Hk s b s' H. apply bind_inv in H as (a & s1 & _ & H). by eapply Hk.
Qed.

Lemma returns_ret {S A} (P : A -> Prop) (a : A) : P a -> returns (S:=S) P (ret a).
Proof. by intros Ha s b s' [= <- <-]. Qed.

Lemma returns_raise {S A} (P : A -> Prop) e : returns (S:=S) P (raise e).
Proof. by intros s b s'. Qed.

Lemma returns_apply {S A} (P : A -> Prop) (m : M S A) s a s' :
  returns P m -> m s = (Ok a, s') -> P a.
Proof. intros Hm H. by eapply Hm. Qed.

Ltac returns_step :=
  match goal with
  | |- returns _ (bind _ _) => apply returns_bind; intros ?
  | |- returns _ (ret _) => apply returns_ret
  | |- returns _ (raise _) => apply returns_raise
  | |- returns _ (_fail _ _ _) => apply returns_raise
  | |- returns _ (match ?x with _ => _ end) => destruct x
  end.

Section Kinds.
Context (env : Env).

(** X19.  What [_build] returns is fixed by the class of the node: [None]
    for an [include], a template declaration, a definition and an
    assignment; an element for a [create]; a value for every expression
    node.  The tree of a file gives an element when it is built as the
    scene and [None] when it is built inside an include. *)
Theorem every_node_builds_to_its_kind fuel node st b st' :
  _build env fuel node st = (Ok b, st') ->
  builds_to (_is_including st) node b.
Proof.
  destruct fuel as [|fuel]; [done|]. rewrite _build_unfold.
  assert (forall element name children token,
            returns (fun b => exists e, b = BElement e)
              (_build_Create env fuel (_build env fuel) (_apply_template env fuel)
                 element name children token)) as HCreate.
  { intros. unfold _build_Create. repeat returns_step. by eexists. }
  destruct node as [ path token | name inherit children token
                   | element name children token | element name children token
                   | name value token | name value token | value member token
                   | op x token | op l r token | q unit token | text token
                   | fn args token | nm token ]; cbn [_build_body builds_to]; intros H.
  - eapply (returns_apply (fun b => b = BNone)); [|exact H].
    unfold _build_Include. by repeat returns_step.
  - eapply (returns_apply (fun b => b = BNone)); [|exact H].
    unfold _build_Template. by repeat returns_step.
  - by eapply HCreate.
  - unfold _build_Scene, bind at 1, get_state in H.
    destruct (_is_including st); cbn [negb] in H.
    + eapply (returns_apply (fun b => b = BNone)); [|exact H]. by repeat returns_step.
    + by eapply HCreate.
  - eapply (returns_apply (fun b => b = BNone)); [|exact H].
    unfold _build_Define. by repeat returns_step.
  - eapply (returns_apply (fun b => b = BNone)); [|exact H].
    unfold _build_Assign. by repeat returns_step.
  - eapply (returns_apply (fun b => exists v, b = BValue v)); [|exact H].
    unfold _build_MemberAccess. repeat returns_step; by eexists.
  - eapply (returns_apply (fun b => exists v, b = BValue v)); [|exact H].
    unfold _build_UnaryOp. repeat returns_step; by eexists.
  - eapply (returns_apply (fun b => exists v, b = BValue v)); [|exact H].
    unfold _build_BinOp. repeat returns_step; by eexists.
  - eapply (returns_apply (fun b => exists v, b = BValue v)); [|exact H].
    unfold _build_Number. repeat returns_step; by eexists.
  - injection H as <- _. by eexists.
  - eapply (returns_apply (fun b => exists v, b = BValue v)); [|exact H].
    unfold _build_Call. repeat returns_step; by eexists.
  - eapply (returns_apply (fun b => exists v, b = BValue v)); [|exact H].
    unfold _build_Name. repeat returns_step; by eexists.
Qed.

(** X20.  Whatever its outcome, a build pops nothing it did not push: each
    of the four stacks ends as the stack it started as, with the entries
    still on top that a failure inside a [with] block or inside an include
    has left there. *)
Theorem build_never_pops_what_it_found fuel node st :
  extends st (_build env fuel node st).2.
Proof. by destruct (proj1 (build_tidy env fuel) node st) as (_ & He & _). Qed.

Lemma _get_property_own h self obj n p token st :
  heap st = h -> h !! self = Some obj -> properties obj !! n = Some p ->
  _get_property self n token st = (Ok (datatypes.ElementProperty self n), st).
Proof.
  intros <- Hobj Hp. unfold _get_property, bind, get_state, lift_res.
  destruct (heap st) as [|o rest] eqn:Hheap; [done|]. cbn [length _get_property_loop].
  unfold element.get. rewrite (bind_ok _ _ _ _ _ (get_property_lookup _ _ _ _ _ Hobj Hp)).
  done.
Qed.

(** X21.  A definition that has been built makes the name resolve: in the
    state it leaves, the bare name builds to the property of the active
    element itself (unless the type being assigned has a member of that
    name), and defining the name again, with any expression that builds to
    a value, fails with the error of [Element.define] followed by [ in
    Class], located at the second definition, and changes nothing. *)
Theorem defined_property_is_found_by_name fuel n name_token value token st b st' :
  _build env (S fuel) (parser.Define (parser.Name n name_token) value token) st
  = (Ok b, st') ->
  exists self,
    last (_elements st) = Some self
    /\ (forall fuel' token',
          enum_member st' n = None ->
          _build env (S fuel') (parser.Name n token') st'
          = (Ok (BValue (datatypes.ElementProperty self n)), st'))
    /\ (forall fuel' again token' v,
          is_expr again = true ->
          (_build env fuel' again st').1 = Ok (BValue v) ->
          exists text,
            _build env (S fuel') (parser.Define (parser.Name n name_token) again token') st'
            = (Raise (_create_error (text +:+ " in " +:+ class_name_of (heap st') self)
                        None token'), st')).
Proof.
  intros H. rewrite _build_unfold in H. cbn [_build_body] in H. unfold _build_Define in H.
  apply bind_inv in H as (n' & s0 & [= <- <-] & H).
  apply bind_inv in H as (built & s1 & Hvalue & H).
  apply bind_inv in H as (v & s1' & Hv & H).
  destruct built as [|e|v0]; try done. injection Hv as <- <-.
  apply bind_inv in H as (self & s1' & Hself & H).
  unfold _element, bind, get_state in Hself.
  destruct (last (_elements s1)) as [top|] eqn:Htop; [|done]. injection Hself as <- <-.
  apply bind_inv in H as (s1' & s1'' & [= <- <-] & H).
  apply bind_inv in H as ([] & s2 & Hdefine & [= <- <-]).
  unfold try_except, on_heap in Hdefine.
  destruct (element.define _ _ _ _ _ _ _ _ _) as [[[]|e|ft] h'] eqn:Hd; [|by destruct e|done].
  injection Hdefine as <-.
  pose proof (_build_restores_stacks env _ _ _ _ _ Hvalue) as Hstacks.
  unfold stacks in Hstacks. injection Hstacks as He _ _ _.
  apply (define_inv env) in Hd as (m & p & Hm & _ & _ & _ & Hm').
  unfold table in Hm'. apply fmap_Some in Hm' as (obj' & Hobj' & Hprops).
  assert (properties obj' !! n = Some p) as Hp by (rewrite <- Hprops; apply lookup_insert_eq).
  exists top. split; [by rewrite <- He|]. split.
  - intros fuel' token' Henum. rewrite _build_unfold. cbn [_build_body].
    unfold _build_Name. erewrite bind_ok; [|reflexivity]. rewrite Henum.
    rewrite (bind_ok _ _ _ _ _ (_element_top (set_heap (fun _ => h') s1) top Htop)).
    by rewrite (bind_ok _ _ _ _ _ (_get_property_own h' top obj' n p token' (set_heap (fun _ => h') s1) eq_refl Hobj' Hp)).
  - intros fuel' again token' v2 Hexpr Hagain. eexists.
    rewrite _build_unfold. cbn [_build_body]. unfold _build_Define.
    erewrite bind_ok; [|reflexivity].
    erewrite bind_ok.
    2:{ pose proof (expr_pure env fuel' again Hexpr
                      (set_heap (fun _ => h') s1)) as Hpure.
        destruct (_build env fuel' again _) as [r s]. cbn in Hagain, Hpure. by subst. }
    erewrite bind_ok; [|reflexivity].
    rewrite (bind_ok _ _ _ _ _ (_element_top (set_heap (fun _ => h') s1) top Htop)).
    erewrite bind_ok; [|reflexivity].
    unfold bind, try_except, on_heap, element.define, bind. cbn [heap set_heap].
    rewrite (deref_lookup _ _ _ Hobj'), Hp. cbn. by destruct s1.
Qed.

Lemma operand_ok (build : parser.Node -> M State Built) n v st :
  build n st = (Ok (BValue v), st) -> operand build n st = (Ok v, st).
Proof. intros H. unfold operand, bind. by rewrite H. Qed.

Lemma literal_builds node : forall fuel v st,
  literal env node = Some v -> height node <= fuel ->
  _build env fuel node st = (Ok (BValue v), st).
Proof.
  induction node as [ | | | | | | | op x IHx token | op l IHl r IHr token
                    | q unit token | text token | | ];
    intros fuel v st Hlit Hfuel; cbn [literal] in Hlit; try done;
    (destruct fuel as [|fuel]; [cbn in Hfuel; lia|]);
    rewrite _build_unfold; cbn [_build_body].
  - apply fmap_Some in Hlit as (vx & Hx & ->). cbn [height] in Hfuel.
    unfold _build_UnaryOp.
    assert (height x <= fuel) as Hle by lia.
    by rewrite (bind_ok _ _ _ _ _ (operand_ok _ _ _ _ (IHx fuel vx st Hx Hle))).
  - destruct (literal env l) as [vl|] eqn:Hl; [|done].
    destruct (literal env r) as [vr|] eqn:Hr; [|done]. injection Hlit as <-.
    cbn [height] in Hfuel. unfold _build_BinOp.
    assert (height l <= fuel) as Hll by lia.
    assert (height r <= fuel) as Hlr by lia.
    rewrite (bind_ok _ _ _ _ _ (operand_ok _ _ _ _ (IHl fuel vl st eq_refl Hll))).
    by rewrite (bind_ok _ _ _ _ _ (operand_ok _ _ _ _ (IHr fuel vr st eq_refl Hlr))).
  - unfold _build_Number. destruct unit as [u|]; [|by injection Hlit as <-].
    destruct (String.eqb u "%"); [by injection Hlit as <-|].
    destruct (bool_decide (u ∈ angle_units env)); [by injection Hlit as <-|].
    destruct (bool_decide (u ∈ time_units env)); [by injection Hlit as <-|]. done.
  - by injection Hlit as <-.
Qed.

Lemma operands_build fuel args vs st :
  Forall (fun a => is_expr a = true) args ->
  Forall2 (fun a v => (_build env fuel a st).1 = Ok (BValue v)) args vs ->
  map_m (operand (_build env fuel)) args st = (Ok vs, st).
Proof.
  intros Hexpr Hargs. induction Hargs as [|a v args vs Ha _ IH]; [done|].
  apply Forall_cons in Hexpr as [He Hexpr]. cbn [map_m].
  assert (_build env fuel a st = (Ok (BValue v), st)) as Hbuild.
  { pose proof (expr_pure env fuel a He st) as Hp.
    destruct (_build env fuel a st) as [r s]. cbn in Ha, Hp. by subst. }
  rewrite (bind_ok _ _ _ _ _ (operand_ok _ _ _ _ Hbuild)).
  by rewrite (bind_ok _ _ _ _ _ (IH Hexpr)).
Qed.

Lemma operands_raise fuel pre bad post vs e st :
  Forall (fun a => is_expr a = true) pre ->
  Forall2 (fun a v => (_build env fuel a st).1 = Ok (BValue v)) pre vs ->
  is_expr bad = true ->
  (_build env fuel bad st).1 = Raise e ->
  map_m (operand (_build env fuel)) (pre ++ bad :: post) st = (Raise e, st).
Proof.
  intros Hexpr Hpre Hbad Hraise. induction Hpre as [|a v pre vs Ha _ IH]; cbn [app map_m].
  - pose proof (expr_pure env fuel bad Hbad st) as Hp.
    unfold bind at 1, operand, bind.
    destruct (_build env fuel bad st) as [r s]. cbn in Hraise, Hp. by subst.
  - apply Forall_cons in Hexpr as [He Hexpr].
    assert (_build env fuel a st = (Ok (BValue v), st)) as Hbuild.
    { pose proof (expr_pure env fuel a He st) as Hp.
      destruct (_build env fuel a st) as [r s]. cbn in Ha, Hp. by subst. }
    rewrite (bind_ok _ _ _ _ _ (operand_ok _ _ _ _ Hbuild)).
    unfold bind at 1. by rewrite (IH Hexpr).
Qed.

(** X22.  Operators are built, not evaluated.  An expression made of
    strings, numbers with a known unit or none, and unary and binary
    operators builds, at any recursion depth that reaches the height of its
    tree, to the tree of values that mirrors it (operands in their order,
    numbers unchanged), and leaves the state as it was. *)
Theorem literal_expression_builds_to_its_value fuel node v st :
  literal env node = Some v -> height node <= fuel ->
  _build env fuel node st = (Ok (BValue v), st).
Proof. intros Hlit Hfuel. by apply literal_builds. Qed.

(** X23.  [_build_Call] builds the arguments in their order and only then
    looks the function up in the table [functions].  When every argument
    builds to a value, a registered name gives the call value over the built
    arguments, and a name that is not registered raises the [KeyError] of
    the table lookup as it is, neither located nor turned into a build
    error.  When an argument raises, the arguments before it having built to
    values, the call raises that error, whether or not the name is
    registered and whatever arguments follow. *)
Theorem call_needs_registered_function fuel name pre vs token st :
  Forall (fun a => is_expr a = true) pre ->
  Forall2 (fun a v => (_build env fuel a st).1 = Ok (BValue v)) pre vs ->
  _build env (S fuel) (parser.Call name pre token) st
  = (match functions env name with
     | Some _ => Ok (BValue (datatypes.Call name vs))
     | None => Raise (KeyError name)
     end, st)
  /\ forall bad post e,
       is_expr bad = true ->
       (_build env fuel bad st).1 = Raise e ->
       _build env (S fuel) (parser.Call name (pre ++ bad :: post) token) st
       = (Raise e, st).
Proof.
  intros Hexpr Hpre. split.
  - rewrite _build_unfold. cbn [_build_body]. unfold _build_Call.
    rewrite (bind_ok _ _ _ _ _ (operands_build fuel pre vs st Hexpr Hpre)).
    by destruct (functions env name).
  - intros bad post e Hbad Hraise. rewrite _build_unfold. cbn [_build_body].
    unfold _build_Call, bind.
    by rewrite (operands_raise fuel pre bad post vs e st Hexpr Hpre Hbad Hraise).
Qed.

End Kinds.

Lemma every_node_builds_to_its_kind_witness :
  builds_to false demo.circle_scene (BElement 0).
Proof.
  pose (st := set_templates (fun _ => seeded demo.env) (init demo.env)).
  assert (_build demo.env 30 demo.circle_scene st
          = (Ok (BElement 0), (_build demo.env 30 demo.circle_scene st).2)) as H
    by (vm_compute; reflexivity).
  exact (every_node_builds_to_its_kind demo.env 30 demo.circle_scene st _ _ H).
Defined.

Lemma defined_property_is_found_by_name_witness :
  let st' := (_build demo.env 3
                (parser.Define (parser.Name "title" None) (parser.String "logo" None) None)
                demo.image_state).2 in
  _build demo.env 1 (parser.Name "title" None) st'
  = (Ok (BValue (datatypes.ElementProperty 2 "title")), st').
Proof.
  cbv zeta.
  assert (_build demo.env 3
            (parser.Define (parser.Name "title" None) (parser.String "logo" None) None)
            demo.image_state
          = (Ok BNone,
             (_build demo.env 3
                (parser.Define (parser.Name "title" None) (parser.String "logo" None) None)
                demo.image_state).2)) as H
    by (vm_compute; reflexivity).
  destruct (defined_property_is_found_by_name demo.env 2 "title" None _ None _ _ _ H)
    as (self & Hself & Hname & _).
  assert (self = 2) as -> by (vm_compute in Hself; congruence).
  apply Hname. vm_compute. reflexivity.
Defined.

Lemma literal_expression_builds_to_its_value_witness :
  _build demo.env 3 demo.sum_tree demo.image_state
  = (Ok (BValue (datatypes.BinOp "+" (datatypes.Number (1 # 1))
                   (datatypes.UnaryOp "-" (datatypes.Percentage (50 # 1))))),
     demo.image_state).
Proof.
  apply (literal_expression_builds_to_its_value demo.env 3 demo.sum_tree).
  - reflexivity.
  - cbn. lia.
Defined.

Lemma call_needs_registered_function_witness :
  _build demo.env 2
    (parser.Call "sin" [parser.Number (90 # 1) (Some "deg") None] (demo.at_ 1 0 1 10))
    demo.image_state
  = (Raise (KeyError "sin"), demo.image_state)
  /\ _build demo.env 2
       (parser.Call "sin"
          [parser.Number (90 # 1) (Some "deg") None; parser.Name "nope" (demo.at_ 1 13 1 17)]
          (demo.at_ 1 0 1 18))
       demo.image_state
     = (Raise (SceneBuilderError "Undefined property 'nope' at 1:13 to 1:17"),
        demo.image_state).
Proof.
  assert (Forall (fun a => is_expr a = true) [parser.Number (90 # 1) (Some "deg") None])
    as Hexpr by repeat constructor.
  assert (Forall2 (fun a v => (_build demo.env 1 a demo.image_state).1 = Ok (BValue v))
            [parser.Number (90 # 1) (Some "deg") None] [datatypes.Angle (90 # 1) "deg"])
    as Hpre by repeat constructor.
  split.
  - exact (proj1 (call_needs_registered_function demo.env 1 "sin" _ _
                    (demo.at_ 1 0 1 10) demo.image_state Hexpr Hpre)).
  - refine (proj2 (call_needs_registered_function demo.env 1 "sin" _ _
                     (demo.at_ 1 0 1 18) demo.image_state Hexpr Hpre)
              (parser.Name "nope" (demo.at_ 1 13 1 17)) [] _ eq_refl _).
    vm_compute. reflexivity.
Defined.


(** ** The body of a [create] *)

Lemma try_except_inv {S A} (m : M S A) handler s a s' :
  try_except m handler s = (Ok a, s') -> m s = (Ok a, s').
Proof.
  unfold try_except. destruct (m s) as [[x|e|f] s1]; [done| |done].
  by destruct (handler e).
Qed.

Lemma for_each_snoc_inv {S A} (body : A -> M S unit) xs x s u s' :
  for_each body (xs ++ [x]) s = (Ok u, s') ->
  exists s1, for_each body xs s = (Ok tt, s1) /\ body x s1 = (Ok tt, s').
Proof.
  revert s. induction xs as [|y xs IH]; intros s H; cbn [for_each app] in *.
  - apply bind_inv in H as ([] & s1 & Hx & [= <- <-]). by exists s.
  - apply bind_inv in H as ([] & s1 & Hy & H). destruct (IH _ H) as (s2 & Hxs & Hx).
    exists s2. split; [|done]. by rewrite (bind_ok _ _ _ _ _ Hy).
Qed.

Section Body.
Context (env : Env).

(** An assignment of a literal that returns has stored the value of the
    literal in the property of the active element. *)
Lemma _build_Assign_literal fuel n name_token valnode v token st b st' :
  literal env valnode = Some v -> height valnode <= fuel ->
  _build env (S fuel) (parser.Assign (parser.Name n name_token) valnode token) st
  = (Ok b, st') ->
  exists self m p,
    last (_elements st) = Some self
    /\ table (heap st') self = Some m /\ m !! n = Some p /\ value p = v.
Proof.
  intros Hlit Hfuel H. rewrite _build_unfold in H. cbn [_build_body] in H.
  unfold _build_Assign in H.
  apply bind_inv in H as (n' & s0 & [= <- <-] & H).
  apply bind_inv in H as (s0 & s0' & [= <- <-] & H).
  apply bind_inv in H as (ty & s1 & Hty & H).
  apply try_except_inv in Hty.
  assert (s1 = st) as ->.
  { unfold declared_type in Hty.
    apply bind_inv in Hty as (self & s2 & Hself & Hty).
    pose proof (pure__element st) as Hp. rewrite Hself in Hp. cbn in Hp. subst s2.
    apply bind_inv in Hty as (p & s2 & Hget & Hty).
    pose proof (pure_on_heap_read _ (pure_get_property_obj self n) st) as Hp.
    rewrite Hget in Hp. cbn in Hp. subst s2.
    by destruct (types p); injection Hty as _ <-. }
  erewrite bind_ok in H.
  2:{ apply (_push_type_ok ty _ (BValue v) st).
      - intros s. by rewrite (literal_builds env valnode fuel v s Hlit Hfuel).
      - by rewrite (literal_builds env valnode fuel v _ Hlit Hfuel). }
  cbn [value_of] in H. erewrite bind_ok in H; [|reflexivity].
  apply bind_inv in H as (self & s2 & Hself & H).
  unfold _element, bind, get_state in Hself.
  destruct (last (_elements st)) as [top|] eqn:Htop; [|done]. injection Hself as <- <-.
  apply bind_inv in H as (s2 & s2' & [= <- <-] & H).
  apply bind_inv in H as ([] & s3 & Hset & [= <- <-]).
  apply try_except_inv in Hset. unfold on_heap in Hset.
  destruct (element.set env fuel top n v (heap st)) as [[[]|e|ft] h'] eqn:Hs; try done.
  injection Hset as <-.
  apply (set_inv env) in Hs as (m & p & _ & _ & Hm').
  exists top, (<[n := with_value v p]> m), (with_value v p).
  split; [done|]. split; [exact Hm'|]. split; [apply lookup_insert_eq | done].
Qed.

(** X24.  The body of a [create] is built after the element is readied and
    its template applied, and nothing changes the element after the body:
    when a [create] whose body ends with the assignment of a literal to a
    property returns, the element it returns holds the value of that literal
    in the property, whatever the class defaults, the template or the
    earlier children of the body had put there. *)
Theorem body_assignment_has_the_last_word fuel element kids n name_token valnode v
    token token' st b st' :
  literal env valnode = Some v ->
  height valnode <= fuel ->
  _build env (S (S fuel))
    (parser.Create element None
       (kids ++ [parser.Assign (parser.Name n name_token) valnode token']) token) st
  = (Ok b, st') ->
  exists e m p,
    b = BElement e /\ table (heap st') e = Some m /\ m !! n = Some p /\ value p = v.
Proof.
  intros Hlit Hfuel H. rewrite _build_unfold in H. cbn [_build_body] in H.
  unfold _build_Create in H.
  apply bind_inv in H as (c & s1 & _ & H).
  apply bind_inv in H as (e & s2 & _ & H).
  apply bind_inv in H as ([] & s3 & _ & H).
  apply bind_inv in H as (s3' & s3'' & [= <- <-] & H).
  apply bind_inv in H as ([] & s4 & _ & H).
  apply bind_inv in H as ([] & s5 & _ & H).
  apply bind_inv in H as ([] & s6 & Hbody & H).
  apply bind_inv in H as (s6' & s6'' & [= <- <-] & H).
  destruct (on_created env e (heap s6)); [done|]. injection H as <- <-.
  unfold _push_element in Hbody.
  apply bind_inv in Hbody as ([] & s7 & [= <-] & Hbody).
  apply bind_inv in Hbody as ([] & s8 & Hkids & Hbody).
  apply bind_inv in Hbody as (top & s8' & Htop & Hbody).
  pose proof (pure__element s8) as Hp. rewrite Htop in Hp. cbn in Hp. subst s8'.
  apply bind_inv in Hbody as ([] & s9 & [= <-] & Hbody).
  destruct (Nat.eqb top e); [|done]. injection Hbody as <-. cbn [heap set_elements].
  unfold _build_children in Hkids.
  apply for_each_snoc_inv in Hkids as (sk & Hfirst & Hlast).
  apply bind_inv in Hlast as (b' & sk' & Hassign & [= <-]).
  assert (last (_elements sk) = Some e) as Hactive.
  { assert (tidy (for_each (fun child => bind (_build env (S fuel) child)
                                           (fun _ => ret tt)) kids)) as Ht.
    { apply tidy_for_each. intros child. apply tidy_bind; [apply (build_tidy env)|].
      intros _. apply tidy_pure, pure_ret. }
    specialize (Ht (set_elements (fun l => l ++ [e]) s5)). unfold wp in Ht.
    rewrite Hfirst in Ht. destruct Ht as (_ & _ & Hs). specialize (Hs eq_refl).
    unfold stacks in Hs. injection Hs as -> _ _ _. cbn. apply last_snoc. }
  destruct (_build_Assign_literal fuel n name_token valnode v token' sk b' sk'
              Hlit Hfuel Hassign) as (self & m & p & Hself & Hm & Hn & Hv).
  rewrite Hactive in Hself. injection Hself as <-. by exists e, m, p.
Qed.

End Body.

Lemma body_assignment_has_the_last_word_witness :
  exists e m p,
    BElement 2 = BElement e /\ table (heap demo.box_created) e = Some m
    /\ m !! "width" = Some p /\ value p = datatypes.Number (10 # 1).
Proof.
  assert (_build demo.env 30 demo.box_create (demo.inside [0] demo.template_state)
          = (Ok (BElement 2), demo.box_created)) as H by (vm_compute; reflexivity).
  refine (body_assignment_has_the_last_word demo.env 28 "Box"
            [parser.Assign (parser.Name "height" None)
               (parser.Number (20 # 1) None None) None]
            "width" None (parser.Number (10 # 1) None None) (datatypes.Number (10 # 1))
            None None _ _ _ eq_refl _ H).
  cbn. lia.
Defined.

(** ** Colour and fill *)

Lemma kept_ret {A} self n (a : A) : keeps_declared self n (ret a).
Proof. by intros v rel h b h' [= <- <-]. Qed.

Lemma kept_bind {A B} self n (m : M Heap A) (k : A -> M Heap B) :
  keeps_declared self n m -> (forall a, keeps_declared self n (k a)) ->
  keeps_declared self n (bind m k).
Proof.
  intros Hm Hk v rel h b h' H Hd.
  apply bind_inv in H as (a & h1 & H1 & H2). eapply Hk; [exact H2|]. by eapply Hm.
Qed.

Lemma declares_of_table h self m n p :
  table h self = Some m -> m !! n = Some p ->
  declares h self n (value p) (relative p).
Proof.
  unfold table. intros Hm Hn. apply fmap_Some in Hm as (obj & Hobj & ->).
  by exists obj, p.
Qed.

Lemma table_of_declares h self n v rel :
  declares h self n v rel ->
  exists m p, table h self = Some m /\ m !! n = Some p /\ value p = v /\ relative p = rel.
Proof.
  intros (obj & p & Hobj & Hp & Hv & Hr). exists (properties obj), p.
  unfold table. by rewrite Hobj.
Qed.

Section Paint.
Context (env : Env).

Lemma kept_define self n n' v ty rel ro c :
  keeps_declared self n (element.define env self n' v ty rel ro c).
Proof.
  intros v0 rel0 h u h' H Hd.
  apply table_of_declares in Hd as (m & p & Hm & Hp & <- & <-).
  apply (define_inv env) in H as (m0 & p' & Hm0 & Hfresh & _ & _ & Hm').
  rewrite Hm in Hm0. injection Hm0 as <-.
  eapply declares_of_table; [exact Hm'|].
  rewrite lookup_insert_ne; [done|]. intros ->. by rewrite Hp in Hfresh.
Qed.

Lemma kept_set fuel self n n' v :
  n' <> n -> keeps_declared self n (element.set env fuel self n' v).
Proof.
  intros Hne v0 rel0 h u h' H Hd.
  apply table_of_declares in Hd as (m & p & Hm & Hp & <- & <-).
  apply (set_inv env) in H as (m0 & p' & Hm0 & _ & Hm').
  rewrite Hm in Hm0. injection Hm0 as <-.
  eapply declares_of_table; [exact Hm'|]. by rewrite lookup_insert_ne.
Qed.

Lemma kept_get self n n' : keeps_declared self n (element.get self n').
Proof. intros v rel h a h' H Hd. by apply get_inv in H as [-> _]. Qed.

Ltac kept_tac :=
  unfold drawables.def, drawables.def_relative, drawables.def_constant;
  repeat first
    [ apply kept_ret | apply kept_get | apply kept_define
    | apply kept_set; discriminate
    | apply kept_bind; [|intros ?] ].

(** The two definitions every coloured class makes, and what follows them. *)
Lemma paint_declared self (rest : M Heap unit) h u h' :
  keeps_declared self "color" rest -> keeps_declared self "fill" rest ->
  bind (drawables.def env self "color" drawables.white)
    (fun _ => bind (element.get self "color")
       (fun color => bind (drawables.def env self "fill" color) (fun _ => rest))) h
  = (Ok u, h') ->
  declares h' self "color" drawables.white None
  /\ declares h' self "fill" (datatypes.ElementProperty self "color") None.
Proof.
  intros Hc Hf H.
  apply bind_inv in H as ([] & h1 & Hcolor & H).
  apply bind_inv in H as (color & h1' & Hget & H).
  apply get_inv in Hget as [-> ->].
  apply bind_inv in H as ([] & h2 & Hfill & H).
  assert (declares h1 self "color" drawables.white None) as Hd1.
  { apply (define_inv env) in Hcolor as (m & p & _ & _ & <- & <- & Hm').
    eapply declares_of_table; [exact Hm' | apply lookup_insert_eq]. }
  assert (declares h2 self "fill" (datatypes.ElementProperty self "color") None) as Hd2.
  { apply (define_inv env) in Hfill as (m & p & _ & _ & <- & <- & Hm').
    eapply declares_of_table; [exact Hm' | apply lookup_insert_eq]. }
  split; [eapply Hc; [exact H|]; by eapply kept_define | by eapply Hf].
Qed.

Ltac to_paint H :=
  repeat lazymatch type of H with
    | bind (drawables.def _ _ "color" _) _ _ = _ => fail
    | bind _ _ _ = _ =>
        let a := fresh "a" in let h := fresh "h" in
        apply bind_inv in H as (a & h & _ & H); cbv beta in H
    end.

Lemma Ellipse_on_ready_paint fuel self h u h' :
  drawables.Ellipse_on_ready env fuel self h = (Ok u, h') ->
  declares h' self "color" drawables.white None
  /\ declares h' self "fill" (datatypes.ElementProperty self "color") None.
Proof.
  unfold drawables.Ellipse_on_ready, drawables.define_paint. intros H. to_paint H.
  eapply paint_declared; [| |exact H]; kept_tac.
Qed.

(** X25.  In every class that declares a colour ([Rectangle], [Circle],
    [Ellipse], [Arc], [Line] and [Text]), when [on_ready] returns the
    property [color] holds opaque white and the property [fill] holds a
    reference to the [color] of the same element, not a copy of its value:
    nothing the class does after defining the two touches them. *)
Theorem fill_refers_to_color fuel c self h u h' :
  c ∈ [Rectangle; Circle; Ellipse; Arc; Line; Text] ->
  drawables.on_ready_of env fuel c self h = (Ok u, h') ->
  declares h' self "color" drawables.white None
  /\ declares h' self "fill" (datatypes.ElementProperty self "color") None.
Proof.
  intros Hc H.
  destruct c;
    try (exfalso;
         repeat (apply elem_of_cons in Hc as [Hc | Hc]; [discriminate|]);
         by apply elem_of_nil in Hc);
    cbn [drawables.on_ready_of] in H.
  - unfold drawables.Rectangle_on_ready, drawables.define_paint in H. to_paint H.
    eapply paint_declared; [| |exact H]; kept_tac.
  - unfold drawables.Circle_on_ready, drawables.define_paint in H. to_paint H.
    eapply paint_declared; [| |exact H]; kept_tac.
  - by eapply Ellipse_on_ready_paint.
  - unfold drawables.Arc_on_ready in H.
    apply bind_inv in H as ([] & h1 & HE & H).
    apply Ellipse_on_ready_paint in HE as [Hcolor Hfill]. cbv beta in H. revert H.
    match goal with
    | |- ?m h1 = _ -> _ =>
        assert (forall n, keeps_declared self n m) as Hk by (intros n; kept_tac)
    end.
    intros H. split; by eapply Hk.
  - unfold drawables.Line_on_ready in H. to_paint H.
    eapply paint_declared; [| |exact H]; kept_tac.
  - unfold drawables.Text_on_ready in H. to_paint H.
    match type of H with
    | _ ?hx = _ =>
        assert (bind (drawables.def env self "color" drawables.white)
                  (fun _ => bind (element.get self "color")
                     (fun color => bind (drawables.def env self "fill" color)
                        (fun _ => ret tt))) hx
                = (Ok u, h')) as H'
    end.
    { rewrite <- H. unfold bind.
      destruct (drawables.def env self "color" drawables.white _) as [[[]|?|?] ?];
        [|done..].
      destruct (element.get self "color" _) as [[?|?|?] ?]; [|done..].
      by destruct (drawables.def env self "fill" _ _) as [[[]|?|?] ?]. }
    eapply paint_declared; [| |exact H']; kept_tac.
Qed.

End Paint.

Lemma fill_refers_to_color_witness :
  declares (drawables.on_ready_of demo.env 10 Circle 1 demo.circle_attached).2 1
    "fill" (datatypes.ElementProperty 1 "color") None.
Proof.
  assert (drawables.on_ready_of demo.env 10 Circle 1 demo.circle_attached
          = (Ok tt, (drawables.on_ready_of demo.env 10 Circle 1 demo.circle_attached).2)) as H
    by (vm_compute; reflexivity).
  refine (proj2 (fill_refers_to_color demo.env 10 Circle 1 demo.circle_attached tt _ _ H)).
  apply list_elem_of_further, list_elem_of_here.
Defined.

(** ** The class of a created element, and the assertions on the stacks *)

Section Resolve.
Context (env : Env).

Lemma _get_element_type_of_chain registry name chain c :
  template_chain registry name chain c ->
  forall fuel token st, templates st = registry -> length chain < fuel ->
  _get_element_type fuel name token st = (Ok c, st).
Proof.
  induction 1 as [name c Hc | name t rest c Ht _ IH]; intros fuel token st <- Hfuel;
    (destruct fuel as [|fuel]; [cbn in Hfuel; lia|]);
    rewrite _get_element_type_unfold; rewrite ?Hc, ?Ht; [done|].
  apply IH; [done|]. cbn in Hfuel. lia.
Qed.

Lemma _get_element_type_inv fuel : forall name token st c st',
  _get_element_type fuel name token st = (Ok c, st') ->
  st' = st
  /\ exists chain, template_chain (templates st) name chain c /\ length chain < fuel.
Proof.
  induction fuel as [|fuel IH]; intros name token st c st' H; [done|].
  rewrite _get_element_type_unfold in H.
  destruct (templates st !! name) as [[c0|t]|] eqn:Hname; [| |done].
  - injection H as <- <-. split; [done|]. exists []. split; [by apply chain_class|].
    cbn. lia.
  - apply IH in H as (-> & chain & Hchain & Hlen). split; [done|].
    exists (t :: chain). split; [by eapply chain_template|]. cbn. lia.
Qed.

(** X26.  The class an element is constructed as is the class its template
    name leads to along the inheritance chain, a template without an inherit
    target inheriting from [Drawable]: [_get_element_type] returns a class
    exactly when the chain of the name ends in that class and the recursion
    is deep enough to walk it, and it never changes the state. *)
Theorem element_class_is_the_root_of_the_chain fuel name token st :
  (forall c st',
     _get_element_type fuel name token st = (Ok c, st') ->
     st' = st
     /\ exists chain, template_chain (templates st) name chain c /\ length chain < fuel)
  /\ (forall chain c,
        template_chain (templates st) name chain c -> length chain < fuel ->
        _get_element_type fuel name token st = (Ok c, st)).
Proof.
  split.
  - intros c st'. apply _get_element_type_inv.
  - intros chain c Hchain Hfuel. by eapply _get_element_type_of_chain.
Qed.

Lemma _push_element_returns {A} element (body : M State A) st a s1 :
  tidy body ->
  body (set_elements (fun l => l ++ [element]) st) = (Ok a, s1) ->
  _push_element element body st = (Ok a, set_elements (fun l => removelast l) s1).
Proof.
  intros Hb H. specialize (Hb (set_elements (fun l => l ++ [element]) st)).
  unfold wp in Hb. rewrite H in Hb. destruct Hb as (_ & _ & Hs). specialize (Hs eq_refl).
  unfold stacks in Hs. cbn in Hs. injection Hs as Hel _ _ _.
  unfold _push_element. erewrite bind_ok; [|reflexivity].
  rewrite (bind_ok _ _ _ _ _ H).
  erewrite bind_ok; [|apply _element_top; rewrite Hel; apply last_snoc].
  erewrite bind_ok; [|reflexivity]. by rewrite Nat.eqb_refl.
Qed.

Lemma _push_type_returns {A} type (body : M State A) st a s1 :
  tidy body ->
  body (set_types (fun l => l ++ [type]) st) = (Ok a, s1) ->
  _push_type type body st = (Ok a, set_types (fun l => removelast l) s1).
Proof.
  intros Hb H. specialize (Hb (set_types (fun l => l ++ [type]) st)).
  unfold wp in Hb. rewrite H in Hb. destruct Hb as (_ & _ & Hs). specialize (Hs eq_refl).
  unfold stacks in Hs. cbn in Hs. injection Hs as _ Ht _ _.
  unfold _push_type. erewrite bind_ok; [|reflexivity].
  rewrite (bind_ok _ _ _ _ _ H).
  erewrite bind_ok.
  2:{ unfold _type, bind, get_state. rewrite Ht, last_snoc. reflexivity. }
  erewrite bind_ok; [|reflexivity]. by rewrite bool_decide_eq_true_2.
Qed.

(** X27.  The assertions that close the two [with] blocks of the builder
    never fail.  Whenever the body of a [create], the application of a
    template or the right-hand side of an assignment returns, the entry
    popped from the stack is the one that was pushed: the block returns what
    its body returned, in the state the body reached, with that one entry
    popped. *)
Theorem stack_assertions_never_fail fuel st :
  (forall element children u s1,
     _build_children (_build env fuel) children
       (set_elements (fun l => l ++ [element]) st) = (Ok u, s1) ->
     _push_element element (_build_children (_build env fuel) children) st
     = (Ok u, set_elements (fun l => removelast l) s1))
  /\ (forall element inherit children token u s1,
        bind (_apply_template env fuel element inherit token)
          (fun _ => _build_children (_build env fuel) children)
          (set_elements (fun l => l ++ [element]) st) = (Ok u, s1) ->
        _push_element element
          (bind (_apply_template env fuel element inherit token)
             (fun _ => _build_children (_build env fuel) children)) st
        = (Ok u, set_elements (fun l => removelast l) s1))
  /\ (forall type value b s1,
        _build env fuel value (set_types (fun l => l ++ [type]) st) = (Ok b, s1) ->
        _push_type type (_build env fuel value) st
        = (Ok b, set_types (fun l => removelast l) s1)).
Proof.
  assert (forall children, tidy (_build_children (_build env fuel) children)) as Hchildren.
  { intros children. unfold _build_children. apply tidy_for_each. intros child.
    apply tidy_bind; [apply (build_tidy env) | intros b; apply tidy_pure, pure_ret]. }
  split; [|split].
  - intros element children u s1. by apply _push_element_returns.
  - intros element inherit children token u s1. apply _push_element_returns.
    apply tidy_bind; [apply (build_tidy env) | by intros _].
  - intros type value b s1. apply _push_type_returns. apply (build_tidy env).
Qed.

End Resolve.

Lemma element_class_is_the_root_of_the_chain_witness :
  _get_element_type 3 "Card" None demo.template_state = (Ok Rectangle, demo.template_state)
  /\ _get_element_type 2 "Plain" None demo.template_state
     = (Ok Drawable, demo.template_state).
Proof.
  split.
  - refine (proj2 (element_class_is_the_root_of_the_chain 3 "Card" None
                     demo.template_state) [demo.card_template; demo.box_template]
              Rectangle _ _); [|cbn; lia].
    eapply chain_template; [vm_compute; reflexivity|].
    eapply chain_template; [vm_compute; reflexivity|].
    apply chain_class. vm_compute. reflexivity.
  - refine (proj2 (element_class_is_the_root_of_the_chain 2 "Plain" None
                     demo.template_state)
              [{| parser.t_name := "Plain"; parser.t_inherit := None;
                  parser.t_children := []; parser.t_token := None |}]
              Drawable _ _); [|cbn; lia].
    eapply chain_template; [vm_compute; reflexivity|].
    apply chain_class. vm_compute. reflexivity.
Defined.

(** ** Included files, continued *)

Lemma for_each_only {S A} (p : A -> bool) (body : A -> M S unit) l s :
  for_each (fun x => if p x then body x else ret tt) l s
  = for_each body (List.filter p l) s.
Proof.
  revert s. induction l as [|x l IH]; intros s; [done|].
  cbn [for_each List.filter]. destruct (p x).
  - cbn [for_each]. unfold bind. destruct (body x s) as [[u|e|f] s']; [apply IH|done..].
  - unfold bind. cbn. apply IH.
Qed.

Section IncludedFile.
Context (env : Env).
Hypothesis parse_scene :
  forall text node, parse env text = Ok node -> parser.is_Scene node = true.

(** Building a list of file-level nodes one after the other, each of which
    must give [None]: when it returns, every template among them is in the
    registry. *)
Lemma for_each_registers fuel children : forall s u s',
  for_each
    (fun child =>
       bind (_build env fuel child)
         (fun result => match result with
                        | BNone => ret tt
                        | _ => raise AssertionError
                        end)) children s = (Ok u, s') ->
  grows s s'
  /\ forall tname inherit kids tk,
       parser.Template tname inherit kids tk ∈ children ->
       is_Some (templates s' !! tname).
Proof.
  induction children as [|c cs IH]; intros s u s' H; cbn [for_each] in H.
  - injection H as <- <-. split; [apply grows_refl|].
    intros tname inherit kids tk Hin. by apply elem_of_nil in Hin.
  - apply bind_inv in H as ([] & s1 & Hc & H).
    apply bind_inv in Hc as (b & s1' & Hb & Hc).
    assert (s1' = s1) as ->.
    { destruct b; cbn in Hc; [by injection Hc as <- | discriminate..]. }
    destruct (IH _ _ _ H) as [Hg Hreg].
    pose proof (proj1 (build_tidy env fuel) c s) as Ht. unfold wp in Ht.
    rewrite Hb in Ht. destruct Ht as (Hg1 & _). cbn in Hg1.
    split; [by eapply grows_trans|].
    intros tname inherit kids tk Hin. apply elem_of_cons in Hin as [<- | Hin]; [|by eauto].
    destruct Hg as (Hsub & _). eapply lookup_weaken_is_Some; [|exact Hsub].
    destruct fuel as [|fuel]; [done|]. rewrite _build_unfold in Hb.
    cbn [_build_body] in Hb. unfold _build_Template, bind, get_state in Hb.
    cbn [parser.t_name] in Hb.
    destruct (templates s !! tname); [done|]. injection Hb as _ <-. cbn.
    rewrite lookup_insert_eq. by eexists.
Qed.

(** C10.  While an include is in progress, building a file's [Scene] node
    executes its top-level [Include] and [Template] children, in their
    order, and nothing else: the outcome is that of building each of these
    children in turn, each of which must give [None], and then returning
    [None].  The elements and the stack of active elements are left as they
    were, the node returns [None], never an element, and when it returns
    every template the file declares at its top level is in the registry.
    The parser is taken to return a [Scene] node for every file it
    parses. *)
Theorem included_file_adds_no_element fuel element name children token st :
  _is_including st = true ->
  let r := _build env (S fuel) (parser.Scene element name children token) st in
  r = bind (for_each
              (fun child =>
                 bind (_build env fuel child)
                   (fun result => match result with
                                  | BNone => ret tt
                                  | _ => raise AssertionError
                                  end))
              (List.filter parser.is_Include_or_Template children))
        (fun _ => ret BNone) st
  /\ heap r.2 = heap st
  /\ _elements r.2 = _elements st
  /\ forall b,
       r.1 = Ok b ->
       b = BNone
       /\ forall tname inherit kids tk,
            parser.Template tname inherit kids tk ∈ children ->
            is_Some (templates r.2 !! tname).
Proof.
  intros Hinc r. assert (_including st <> []) as Hne.
  { unfold _is_including in Hinc. by destruct (_including st). }
  assert (r = bind (for_each
                      (fun child =>
                         bind (_build env fuel child)
                           (fun result => match result with
                                          | BNone => ret tt
                                          | _ => raise AssertionError
                                          end))
                      (List.filter parser.is_Include_or_Template children))
                (fun _ => ret BNone) st) as Hr.
  { subst r. rewrite _build_unfold. cbn [_build_body].
    rewrite (_build_Scene_including env _ _ _ _ _ _ _ _ Hinc).
    unfold bind at 1 3. by rewrite for_each_only. }
  pose proof (build_quiet env parse_scene (S fuel)
                (parser.Scene element name children token) st eq_refl Hne)
    as [(Hh & He & _) Hn].
  split; [exact Hr|]. split; [exact Hh|]. split; [exact He|].
  intros b Hb. split; [by apply Hn|].
  intros tname inherit kids tk Hin. fold r in Hb. rewrite Hr in Hb |- *.
  unfold bind at 1 in Hb. unfold bind at 1.
  destruct (for_each _ _ st) as [[[]|e|f] s1] eqn:Hfor; [|done..]. cbn.
  apply (for_each_registers fuel _ _ _ _ Hfor) with inherit kids tk.
  apply list_elem_of_In, filter_In. split; [by apply list_elem_of_In | done].
Qed.

End IncludedFile.

Lemma included_file_adds_no_element_witness :
  let st := set_including (fun _ => ["/scenes/main.anim"]) (init demo.env) in
  let r := _build demo.env 5 demo.lib_tree st in
  heap r.2 = heap st /\ _elements r.2 = _elements st
  /\ is_Some (templates r.2 !! "Box").
Proof.
  intros st r.
  pose proof (included_file_adds_no_element demo.env demo_parse_scene 4 "Scene" None
                [ parser.Template "Box" (Some "Rectangle")
                    [ parser.Assign (parser.Name "width" None)
                        (parser.Number (50 # 1) (Some "%") None) None ] None;
                  parser.Create "Rectangle" None [] None ] None st eq_refl)
    as (_ & Hh & He & Hok).
  split; [exact Hh|]. split; [exact He|].
  assert (r.1 = Ok BNone) as Hr by (vm_compute; reflexivity).
  destruct (Hok BNone Hr) as [_ Hreg].
  apply (Hreg "Box" (Some "Rectangle")
           [ parser.Assign (parser.Name "width" None)
               (parser.Number (50 # 1) (Some "%") None) None ] None).
  apply list_elem_of_here.
Defined.
